(** * A shallow embedding of the osmo licensing contracts

    The three Solidity sources [ModelRegistry.sol] (contracts [ModelRegistry]
    and [ModelToken]), [ModelMarketplace.sol] and
    [DerivativeRoyaltyRegistry.sol] are embedded as functions of a small
    state / error / trace monad.  Every function keeps the name it has in
    the source and follows the order of its statements.

    - [uint256] and [address] are [N]; Solidity 0.8 arithmetic is checked,
      so [+], [-] and [*] revert with a panic on overflow, while the
      [Counters] library increments inside [unchecked] and wraps around.
    - a [mapping] is a [gmap] read with the zero value as default.
    - a [require] that fails aborts the call: the result is [Revert] and no
      storage is returned, which is the all-or-nothing semantics of a
      transaction.
    - each storage write, outward value transfer and emitted event is
      appended to the trace of the call, in program order. *)

From Stdlib Require Import NArith List Lia Bool.
From stdpp Require Import base gmap strings list.

Open Scope string_scope.
Open Scope list_scope.
Open Scope N_scope.

(** ** Machine integers and addresses *)

Definition address := N.
Definition uint256 := N.

Definition MAX_UINT256 : N := 2 ^ 256 - 1.

(** ** Errors, results and traces *)

Inductive error :=
| Error (reason : string)   (* require(..., reason) and revert(reason) *)
| Panic                     (* checked arithmetic, array index out of range *)
| TransferFailed.           (* payable(a).transfer(v) did not go through *)

Inductive result (A : Type) :=
| Ok (a : A)
| Revert (e : error).

Arguments Ok {A} a.
Arguments Revert {A} e.

Inductive event :=
| SStore (slot : string)                 (* a write to the named storage variable *)
| Transfer (to : address) (amount : N)   (* an outward transfer of value *)
| Emit (name : string).                  (* an emitted log *)

(** The call context of Solidity: [msg.sender], [msg.value], [block.timestamp]. *)
Record Env := mkEnv {
  msg_sender : address;
  msg_value : uint256;
  block_timestamp : uint256
}.

(** ** The monad: storage passing, revert, and a trace of effects *)

Definition M (S A : Type) : Type := S -> result (A * S * list event).

Definition ret {S A} (a : A) : M S A := fun s => Ok (a, s, []).

Definition bind {S A B} (m : M S A) (k : A -> M S B) : M S B :=
  fun s =>
    match m s with
    | Ok (a, s1, t1) =>
        match k a s1 with
        | Ok (b, s2, t2) => Ok (b, s2, t1 ++ t2)
        | Revert e => Revert e
        end
    | Revert e => Revert e
    end.

Definition revert {S A} (e : error) : M S A := fun _ => Revert e.

Definition require {S} (b : bool) (reason : string) : M S unit :=
  if b then ret tt else revert (Error reason).

Definition gets {S A} (f : S -> A) : M S A := fun s => Ok (f s, s, []).

Definition sstore {S} (slot : string) (f : S -> S) : M S unit :=
  fun s => Ok (tt, f s, [SStore slot]).

Definition emit {S} (name : string) : M S unit :=
  fun s => Ok (tt, s, [Emit name]).

(** A call into another contract whose storage is the component [get] of
    the caller's world. *)
Definition call {W S A} (get : W -> S) (set : S -> W -> W) (m : M S A) : M W A :=
  fun w =>
    match m (get w) with
    | Ok (a, s', t) => Ok (a, set s' w, t)
    | Revert e => Revert e
    end.

(** A pure computation that may revert (checked arithmetic). *)
Definition lift {S A} (r : result A) : M S A :=
  fun s => match r with Ok a => Ok (a, s, []) | Revert e => Revert e end.

(** The monad is an instance of stdpp's [MRet] and [MBind], so the code
    below reads [x ← m; k] and [m;; k]. *)
Global Instance M_ret {S} : MRet (M S) := fun A a => ret a.
Global Instance M_bind {S} : MBind (M S) := fun A B k m => bind m k.

(** ** Checked and unchecked arithmetic *)

Definition checked_add (a b : uint256) : result uint256 :=
  if a + b <=? MAX_UINT256 then Ok (a + b) else Revert Panic.

Definition checked_sub (a b : uint256) : result uint256 :=
  if b <=? a then Ok (a - b) else Revert Panic.

Definition checked_mul (a b : uint256) : result uint256 :=
  if a * b <=? MAX_UINT256 then Ok (a * b) else Revert Panic.

(** [Counters.increment]: [unchecked { counter._value += 1; }]. *)
Definition increment (c : uint256) : uint256 := (c + 1) mod 2 ^ 256.

(** ** Mappings *)

Class Zero (A : Type) := zero : A.
Global Instance N_zero : Zero N := 0%N.
Global Instance bool_zero : Zero bool := false.
Global Instance string_zero : Zero string := "".
Global Instance list_zero {A} : Zero (list A) := [].

Definition mapping_get `{Countable K} {V} `{Zero V} (m : gmap K V) (k : K) : V :=
  default zero (m !! k).

Notation "m ⟦ k ⟧" := (mapping_get m k) (at level 1, format "m ⟦ k ⟧").

(** String comparison as the source writes it,
    [keccak256(abi.encodePacked(a)) == keccak256(abi.encodePacked(b))]:
    equality of the two strings. *)
Definition str_eq (a b : string) : bool := bool_decide (a = b).

(** [bytes(s).length > 0] *)
Definition nonempty (s : string) : bool := negb (bool_decide (s = "")).

(* ================================================================= *)
(** ** ModelRegistry.sol, contract ModelRegistry *)

Module ModelRegistry.

Record Model := mkModel {
  creator : address;
  createdAt : uint256;
  updatedAt : uint256;
  modelIPFS : string;
  metadataIPFS : string;
  exists_ : bool;
  active : bool;
  derivativeCount : uint256
}.

Global Instance Model_zero : Zero Model := mkModel 0 0 0 "" "" false false 0.

Record Storage := mkStorage {
  _modelIdCounter : uint256;
  models : gmap N Model;
  creatorModels : gmap N (list N);
  modelDerivatives : gmap N (list N);
  marketplace : address;
  derivativeRoyaltyRegistry : address;
  _owner : address
}.

Definition set_modelIdCounter (c : uint256) (s : Storage) : Storage :=
  mkStorage c (models s) (creatorModels s) (modelDerivatives s)
            (marketplace s) (derivativeRoyaltyRegistry s) (_owner s).
Definition set_models (m : gmap N Model) (s : Storage) : Storage :=
  mkStorage (_modelIdCounter s) m (creatorModels s) (modelDerivatives s)
            (marketplace s) (derivativeRoyaltyRegistry s) (_owner s).
Definition set_creatorModels (m : gmap N (list N)) (s : Storage) : Storage :=
  mkStorage (_modelIdCounter s) (models s) m (modelDerivatives s)
            (marketplace s) (derivativeRoyaltyRegistry s) (_owner s).
Definition set_modelDerivatives (m : gmap N (list N)) (s : Storage) : Storage :=
  mkStorage (_modelIdCounter s) (models s) (creatorModels s) m
            (marketplace s) (derivativeRoyaltyRegistry s) (_owner s).
Definition set_marketplace (a : address) (s : Storage) : Storage :=
  mkStorage (_modelIdCounter s) (models s) (creatorModels s) (modelDerivatives s)
            a (derivativeRoyaltyRegistry s) (_owner s).
Definition set_derivativeRoyaltyRegistry (a : address) (s : Storage) : Storage :=
  mkStorage (_modelIdCounter s) (models s) (creatorModels s) (modelDerivatives s)
            (marketplace s) a (_owner s).

Definition set_metadataIPFS (x : string) (m : Model) : Model :=
  mkModel (creator m) (createdAt m) (updatedAt m) (modelIPFS m) x
          (exists_ m) (active m) (derivativeCount m).
Definition set_updatedAt (x : uint256) (m : Model) : Model :=
  mkModel (creator m) (createdAt m) x (modelIPFS m) (metadataIPFS m)
          (exists_ m) (active m) (derivativeCount m).
Definition set_active (x : bool) (m : Model) : Model :=
  mkModel (creator m) (createdAt m) (updatedAt m) (modelIPFS m) (metadataIPFS m)
          (exists_ m) x (derivativeCount m).
Definition set_derivativeCount (x : uint256) (m : Model) : Model :=
  mkModel (creator m) (createdAt m) (updatedAt m) (modelIPFS m) (metadataIPFS m)
          (exists_ m) (active m) x.

(** The deployed contract: [constructor() Ownable(msg.sender) {}]. *)
Definition constructor (deployer : address) : Storage :=
  mkStorage 0 ∅ ∅ ∅ 0 0 deployer.

(** *** Modifiers *)

Definition onlyCreator (env : Env) (modelId : uint256) : M Storage unit :=
  m ← gets (fun s => (models s)⟦modelId⟧);
  require (creator m =? msg_sender env) "ModelRegistry: Not model creator".

Definition modelExists (modelId : uint256) : M Storage unit :=
  m ← gets (fun s => (models s)⟦modelId⟧);
  require (exists_ m) "ModelRegistry: Model does not exist".

Definition onlyMarketplace (env : Env) : M Storage unit :=
  mp ← gets marketplace;
  require (msg_sender env =? mp) "ModelRegistry: Only marketplace can call".

(** [Ownable.onlyOwner] (OpenZeppelin 5, as the constructors
    [Ownable(msg.sender)] require): the custom error
    [OwnableUnauthorizedAccount]. *)
Definition onlyOwner (env : Env) : M Storage unit :=
  o ← gets _owner;
  require (o =? msg_sender env) "OwnableUnauthorizedAccount".

(** *** Core functions *)

Definition registerModel (env : Env) (modelIPFS metadataIPFS : string)
  : M Storage uint256 :=
  require (nonempty modelIPFS) "ModelRegistry: Model IPFS required";;
  require (nonempty metadataIPFS) "ModelRegistry: Metadata IPFS required";;
  modelId ← gets _modelIdCounter;
  sstore "_modelIdCounter" (set_modelIdCounter (increment modelId));;
  sstore "models" (fun s => set_models (<[modelId :=
    {| creator := msg_sender env;
       createdAt := block_timestamp env;
       updatedAt := block_timestamp env;
       modelIPFS := modelIPFS;
       metadataIPFS := metadataIPFS;
       exists_ := true;
       active := true;
       derivativeCount := 0 |}]> (models s)) s);;
  sstore "creatorModels" (fun s => set_creatorModels
    (<[msg_sender env := (creatorModels s)⟦msg_sender env⟧ ++ [modelId]]>
       (creatorModels s)) s);;
  emit "ModelRegistered";;
  ret modelId.

Definition registerDerivativeModel (env : Env) (modelIPFS metadataIPFS : string)
    (originalModelId : uint256) : M Storage uint256 :=
  modelExists originalModelId;;
  modelId ← registerModel env modelIPFS metadataIPFS;
  sstore "modelDerivatives" (fun s => set_modelDerivatives
    (<[originalModelId := (modelDerivatives s)⟦originalModelId⟧ ++ [modelId]]>
       (modelDerivatives s)) s);;
  m ← gets (fun s => (models s)⟦originalModelId⟧);
  n ← lift (checked_add (derivativeCount m) 1);
  sstore "models" (fun s => set_models
    (<[originalModelId := set_derivativeCount n m]> (models s)) s);;
  ret modelId.

Definition updateMetadata (env : Env) (modelId : uint256) (newMetadataIPFS : string)
  : M Storage unit :=
  modelExists modelId;;
  onlyCreator env modelId;;
  require (nonempty newMetadataIPFS) "ModelRegistry: Metadata IPFS required";;
  sstore "models" (fun s => set_models
    (<[modelId := set_metadataIPFS newMetadataIPFS (models s)⟦modelId⟧]> (models s)) s);;
  sstore "models" (fun s => set_models
    (<[modelId := set_updatedAt (block_timestamp env) (models s)⟦modelId⟧]> (models s)) s);;
  emit "ModelUpdated".

Definition toggleModelActive (env : Env) (modelId : uint256) : M Storage unit :=
  modelExists modelId;;
  onlyCreator env modelId;;
  sstore "models" (fun s => set_models
    (<[modelId := set_active (negb (active (models s)⟦modelId⟧)) (models s)⟦modelId⟧]>
       (models s)) s);;
  emit "ModelStatusChanged".

(** *** Marketplace functions *)

Definition incrementDerivativeCount (env : Env) (modelId : uint256) : M Storage unit :=
  modelExists modelId;;
  onlyMarketplace env;;
  m ← gets (fun s => (models s)⟦modelId⟧);
  n ← lift (checked_add (derivativeCount m) 1);
  sstore "models" (fun s => set_models
    (<[modelId := set_derivativeCount n m]> (models s)) s).

(** *** View functions *)

Definition getCreatorModels (creator : address) : M Storage (list N) :=
  gets (fun s => (creatorModels s)⟦creator⟧).

Definition isModelActive (modelId : uint256) : M Storage bool :=
  gets (fun s => exists_ (models s)⟦modelId⟧ && active (models s)⟦modelId⟧).

Definition getModelCount : M Storage uint256 := gets _modelIdCounter.

Definition getDerivatives (modelId : uint256) : M Storage (list N) :=
  modelExists modelId;;
  gets (fun s => (modelDerivatives s)⟦modelId⟧).

(** The public getter of the [models] mapping. *)
Definition models_ (modelId : uint256) : M Storage Model :=
  gets (fun s => (models s)⟦modelId⟧).

(** *** Admin functions *)

Definition setMarketplace (env : Env) (_marketplace : address) : M Storage unit :=
  onlyOwner env;;
  sstore "marketplace" (set_marketplace _marketplace).

Definition setDerivativeRoyaltyRegistry (env : Env) (_registry : address)
  : M Storage unit :=
  onlyOwner env;;
  sstore "derivativeRoyaltyRegistry" (set_derivativeRoyaltyRegistry _registry).

(** *** Sequences of creator calls

    The two functions by which a creator changes a registered model, and
    the registry after a sequence of such transactions (a reverted
    transaction changes nothing). *)

Inductive Call :=
| UpdateMetadata (modelId : uint256) (newMetadataIPFS : string)
| ToggleModelActive (modelId : uint256).

Definition exec (env : Env) (c : Call) : M Storage unit :=
  match c with
  | UpdateMetadata modelId newMetadataIPFS => updateMetadata env modelId newMetadataIPFS
  | ToggleModelActive modelId => toggleModelActive env modelId
  end.

Definition step (tx : Env * Call) (s : Storage) : Storage :=
  match exec (fst tx) (snd tx) s with
  | Ok (_, s', _) => s'
  | Revert _ => s
  end.

Definition run (txs : list (Env * Call)) (s : Storage) : Storage :=
  fold_left (fun s tx => step tx s) txs s.

(** *** The whole state-changing interface

    Every external function of the contract that writes storage: the
    two registrations, the two creator calls of [Call], the derivative
    counter, the two admin setters and the two functions of the inherited
    [Ownable]. *)

Definition set_owner (x : address) (s : Storage) : Storage :=
  mkStorage (_modelIdCounter s) (models s) (creatorModels s) (modelDerivatives s)
            (marketplace s) (derivativeRoyaltyRegistry s) x.

Definition transferOwnership (env : Env) (newOwner : address) : M Storage unit :=
  onlyOwner env;;
  (if newOwner =? 0 then revert (Error "OwnableInvalidOwner") else mret tt);;
  sstore "_owner" (set_owner newOwner);;
  emit "OwnershipTransferred".

Definition renounceOwnership (env : Env) : M Storage unit :=
  onlyOwner env;;
  sstore "_owner" (set_owner 0);;
  emit "OwnershipTransferred".

Inductive AnyCall :=
| RegisterModel (modelIPFS metadataIPFS : string)
| RegisterDerivativeModel (modelIPFS metadataIPFS : string) (originalModelId : uint256)
| ByCreator (c : Call)
| IncrementDerivativeCount (modelId : uint256)
| SetMarketplace (_marketplace : address)
| SetDerivativeRoyaltyRegistry (_registry : address)
| TransferOwnership (newOwner : address)
| RenounceOwnership.

Definition exec_any (env : Env) (c : AnyCall) : M Storage unit :=
  match c with
  | RegisterModel modelIPFS metadataIPFS =>
      _ ← registerModel env modelIPFS metadataIPFS; mret tt
  | RegisterDerivativeModel modelIPFS metadataIPFS originalModelId =>
      _ ← registerDerivativeModel env modelIPFS metadataIPFS originalModelId; mret tt
  | ByCreator c => exec env c
  | IncrementDerivativeCount modelId => incrementDerivativeCount env modelId
  | SetMarketplace _marketplace => setMarketplace env _marketplace
  | SetDerivativeRoyaltyRegistry _registry => setDerivativeRoyaltyRegistry env _registry
  | TransferOwnership newOwner => transferOwnership env newOwner
  | RenounceOwnership => renounceOwnership env
  end.

Definition step_any (tx : Env * AnyCall) (s : Storage) : Storage :=
  match exec_any (fst tx) (snd tx) s with
  | Ok (_, s', _) => s'
  | Revert _ => s
  end.

Definition run_any (txs : list (Env * AnyCall)) (s : Storage) : Storage :=
  fold_left (fun s tx => step_any tx s) txs s.

End ModelRegistry.

(** A read-only call into another contract (its storage [s'] is not
    changed and its trace is empty for a view); a revert propagates. *)
Definition view {S' S A} (s' : S') (m : M S' A) : M S A :=
  fun s =>
    match m s' with
    | Ok (a, _, _) => Ok (a, s, [])
    | Revert e => Revert e
    end.

(* ================================================================= *)
(** ** ModelMarketplace.sol *)

Module ModelMarketplace.

Record LicenseConfig := mkLicenseConfig {
  personalPrice : uint256;
  indiePrice : uint256;
  commercialPrice : uint256;
  enterprisePrice : uint256;
  personalDuration : uint256;
  indieDuration : uint256;
  commercialDuration : uint256;
  enterpriseDuration : uint256
}.

Record Variation := mkVariation {
  name : string;
  price : uint256;
  metadataIPFS : string;
  active : bool
}.

Record RoyaltyInfo := mkRoyaltyInfo {
  recipient : address;
  bps : uint256
}.

Global Instance LicenseConfig_zero : Zero LicenseConfig :=
  mkLicenseConfig 0 0 0 0 0 0 0 0.
Global Instance RoyaltyInfo_zero : Zero RoyaltyInfo := mkRoyaltyInfo 0 0.

Record Storage := mkStorage {
  licenseConfigs : gmap N LicenseConfig;
  royalties : gmap N RoyaltyInfo;
  maxSupplies : gmap N uint256;
  soldCounts : gmap N uint256;
  variations : gmap N (list Variation);
  forSale : gmap N bool;
  _owner : address
}.

Definition MAX_ROYALTY_BPS : uint256 := 2000.

Definition set_licenseConfigs (x : gmap N LicenseConfig) (s : Storage) : Storage :=
  mkStorage x (royalties s) (maxSupplies s) (soldCounts s) (variations s)
            (forSale s) (_owner s).
Definition set_royalties (x : gmap N RoyaltyInfo) (s : Storage) : Storage :=
  mkStorage (licenseConfigs s) x (maxSupplies s) (soldCounts s) (variations s)
            (forSale s) (_owner s).
Definition set_maxSupplies (x : gmap N uint256) (s : Storage) : Storage :=
  mkStorage (licenseConfigs s) (royalties s) x (soldCounts s) (variations s)
            (forSale s) (_owner s).
Definition set_soldCounts (x : gmap N uint256) (s : Storage) : Storage :=
  mkStorage (licenseConfigs s) (royalties s) (maxSupplies s) x (variations s)
            (forSale s) (_owner s).
Definition set_variations (x : gmap N (list Variation)) (s : Storage) : Storage :=
  mkStorage (licenseConfigs s) (royalties s) (maxSupplies s) (soldCounts s) x
            (forSale s) (_owner s).
Definition set_forSale (x : gmap N bool) (s : Storage) : Storage :=
  mkStorage (licenseConfigs s) (royalties s) (maxSupplies s) (soldCounts s)
            (variations s) x (_owner s).

Definition set_personalPrice (x : uint256) (c : LicenseConfig) : LicenseConfig :=
  mkLicenseConfig x (indiePrice c) (commercialPrice c) (enterprisePrice c)
    (personalDuration c) (indieDuration c) (commercialDuration c) (enterpriseDuration c).
Definition set_indiePrice (x : uint256) (c : LicenseConfig) : LicenseConfig :=
  mkLicenseConfig (personalPrice c) x (commercialPrice c) (enterprisePrice c)
    (personalDuration c) (indieDuration c) (commercialDuration c) (enterpriseDuration c).
Definition set_commercialPrice (x : uint256) (c : LicenseConfig) : LicenseConfig :=
  mkLicenseConfig (personalPrice c) (indiePrice c) x (enterprisePrice c)
    (personalDuration c) (indieDuration c) (commercialDuration c) (enterpriseDuration c).
Definition set_enterprisePrice (x : uint256) (c : LicenseConfig) : LicenseConfig :=
  mkLicenseConfig (personalPrice c) (indiePrice c) (commercialPrice c) x
    (personalDuration c) (indieDuration c) (commercialDuration c) (enterpriseDuration c).

Definition set_active (x : bool) (v : Variation) : Variation :=
  mkVariation (name v) (price v) (metadataIPFS v) x.

(** [constructor(address registryAddress) Ownable(msg.sender)]: the
    registry the contract refers to is the [registry] argument of the
    functions below. *)
Definition constructor (deployer : address) : Storage :=
  mkStorage ∅ ∅ ∅ ∅ ∅ ∅ deployer.

Section WithRegistry.

(** The storage of the [ModelRegistry] this contract was constructed with. *)
Variable registry : ModelRegistry.Storage.

(** *** Modifiers *)

Definition onlyCreator (env : Env) (modelId : uint256) : M Storage unit :=
  m ← view registry (ModelRegistry.models_ modelId);
  require (ModelRegistry.creator m =? msg_sender env) "Marketplace: Not model creator".

Definition modelExists (modelId : uint256) : M Storage unit :=
  m ← view registry (ModelRegistry.models_ modelId);
  require (ModelRegistry.exists_ m) "Marketplace: Model does not exist".

(** *** License configuration *)

Definition setLicenseConfig (env : Env) (modelId : uint256) (config : LicenseConfig)
  : M Storage unit :=
  modelExists modelId;;
  onlyCreator env modelId;;
  sstore "licenseConfigs" (fun s => set_licenseConfigs
    (<[modelId := config]> (licenseConfigs s)) s);;
  emit "LicenseUpdated".

Definition setLicensePrice (env : Env) (modelId : uint256) (licenseType : string)
    (price : uint256) : M Storage unit :=
  modelExists modelId;;
  onlyCreator env modelId;;
  config ← gets (fun s => (licenseConfigs s)⟦modelId⟧);
  (if str_eq licenseType "personal" then
     sstore "licenseConfigs" (fun s => set_licenseConfigs
       (<[modelId := set_personalPrice price config]> (licenseConfigs s)) s)
   else if str_eq licenseType "indie" then
     sstore "licenseConfigs" (fun s => set_licenseConfigs
       (<[modelId := set_indiePrice price config]> (licenseConfigs s)) s)
   else if str_eq licenseType "commercial" then
     sstore "licenseConfigs" (fun s => set_licenseConfigs
       (<[modelId := set_commercialPrice price config]> (licenseConfigs s)) s)
   else if str_eq licenseType "enterprise" then
     sstore "licenseConfigs" (fun s => set_licenseConfigs
       (<[modelId := set_enterprisePrice price config]> (licenseConfigs s)) s)
   else revert (Error "Marketplace: Invalid license type"));;
  emit "PriceUpdated".

(** *** Royalty functions *)

Definition setRoyalty (env : Env) (modelId : uint256) (recipient : address)
    (bps : uint256) : M Storage unit :=
  modelExists modelId;;
  onlyCreator env modelId;;
  require (bps <=? MAX_ROYALTY_BPS) "Marketplace: Royalty too high";;
  require (negb (recipient =? 0)) "Marketplace: Invalid recipient";;
  sstore "royalties" (fun s => set_royalties
    (<[modelId := mkRoyaltyInfo recipient bps]> (royalties s)) s);;
  emit "RoyaltyUpdated".

(** *** Variation functions *)

Definition addVariation (env : Env) (modelId : uint256) (name : string)
    (price : uint256) (metadataIPFS : string) : M Storage unit :=
  modelExists modelId;;
  onlyCreator env modelId;;
  sstore "variations" (fun s => set_variations
    (<[modelId := (variations s)⟦modelId⟧ ++ [mkVariation name price metadataIPFS true]]>
       (variations s)) s);;
  emit "VariationAdded".

Definition toggleVariationActive (env : Env) (modelId variationIndex : uint256)
  : M Storage unit :=
  modelExists modelId;;
  onlyCreator env modelId;;
  vs ← gets (fun s => (variations s)⟦modelId⟧);
  require (variationIndex <? N.of_nat (length vs)) "Marketplace: Invalid variation index";;
  match vs !! N.to_nat variationIndex with
  | Some v =>
      sstore "variations" (fun s => set_variations
        (<[modelId := <[N.to_nat variationIndex := set_active (negb (active v)) v]> vs]>
           (variations s)) s)
  | None => revert Panic
  end.

(** *** Supply functions *)

Definition setMaxSupply (env : Env) (modelId maxSupply : uint256) : M Storage unit :=
  modelExists modelId;;
  onlyCreator env modelId;;
  sold ← gets (fun s => (soldCounts s)⟦modelId⟧);
  require ((maxSupply =? 0) || (sold <=? maxSupply)) "Marketplace: Supply below sold count";;
  sstore "maxSupplies" (fun s => set_maxSupplies (<[modelId := maxSupply]> (maxSupplies s)) s);;
  emit "SupplyUpdated".

Definition toggleForSale (env : Env) (modelId : uint256) : M Storage unit :=
  modelExists modelId;;
  onlyCreator env modelId;;
  sstore "forSale" (fun s => set_forSale
    (<[modelId := negb (forSale s)⟦modelId⟧]> (forSale s)) s).

(** *** View functions that consult the registry *)

Definition canPurchase (modelId : uint256) : M Storage bool :=
  act ← view registry (ModelRegistry.isModelActive modelId);
  if negb act then mret false else
  fs ← gets (fun s => (forSale s)⟦modelId⟧);
  if negb fs then mret false else
  maxSupply ← gets (fun s => (maxSupplies s)⟦modelId⟧);
  sold ← gets (fun s => (soldCounts s)⟦modelId⟧);
  if (0 <? maxSupply) && (maxSupply <=? sold) then mret false else
  mret true.

End WithRegistry.

(** [incrementSoldCount(uint256 modelId) external]: the function carries
    no modifier and does not read [msg.sender]. *)
Definition incrementSoldCount (env : Env) (modelId : uint256) : M Storage unit :=
  sold ← gets (fun s => (soldCounts s)⟦modelId⟧);
  n ← lift (checked_add sold 1);
  sstore "soldCounts" (fun s => set_soldCounts (<[modelId := n]> (soldCounts s)) s).

Definition royaltyInfo (modelId salePrice : uint256) : M Storage (address * uint256) :=
  royalty ← gets (fun s => (royalties s)⟦modelId⟧);
  if recipient royalty =? 0 then mret (0, 0) else
  x ← lift (checked_mul salePrice (bps royalty));
  mret (recipient royalty, x / 10000).

Definition getLicensePrice (modelId : uint256) (licenseType : string)
  : M Storage uint256 :=
  license ← gets (fun s => (licenseConfigs s)⟦modelId⟧);
  if str_eq licenseType "personal" then mret (personalPrice license)
  else if str_eq licenseType "indie" then mret (indiePrice license)
  else if str_eq licenseType "commercial" then mret (commercialPrice license)
  else if str_eq licenseType "enterprise" then mret (enterprisePrice license)
  else revert (Error "Marketplace: Invalid license type").

Definition getLicenseDuration (modelId : uint256) (licenseType : string)
  : M Storage uint256 :=
  license ← gets (fun s => (licenseConfigs s)⟦modelId⟧);
  if str_eq licenseType "personal" then mret (personalDuration license)
  else if str_eq licenseType "indie" then mret (indieDuration license)
  else if str_eq licenseType "commercial" then mret (commercialDuration license)
  else if str_eq licenseType "enterprise" then mret (enterpriseDuration license)
  else revert (Error "Marketplace: Invalid license type").

(** The loop of [getTotalPrice], over the remaining variation ids. *)
Fixpoint getTotalPrice_loop (vs : list Variation) (variationIds : list uint256)
    (total : uint256) : M Storage uint256 :=
  match variationIds with
  | [] => mret total
  | id :: rest =>
      require (id <? N.of_nat (length vs)) "Marketplace: Invalid variation ID";;
      match vs !! N.to_nat id with
      | Some v =>
          require (active v) "Marketplace: Variation not active";;
          total' ← lift (checked_add total (price v));
          getTotalPrice_loop vs rest total'
      | None => revert Panic
      end
  end.

Definition getTotalPrice (modelId : uint256) (licenseType : string)
    (variationIds : list uint256) : M Storage uint256 :=
  total ← getLicensePrice modelId licenseType;
  vs ← gets (fun s => (variations s)⟦modelId⟧);
  getTotalPrice_loop vs variationIds total.

(** *** [getActiveVariations]

    [new Variation[](activeCount)] is a zero-initialised memory array; a
    write past its end panics. *)
Global Instance Variation_zero : Zero Variation := mkVariation "" 0 "" false.

(** The first loop: [activeCount++] for every active variation. *)
Fixpoint getActiveVariations_count (allVariations : list Variation)
    (activeCount : uint256) : result uint256 :=
  match allVariations with
  | [] => Ok activeCount
  | v :: rest =>
      if active v then
        match checked_add activeCount 1 with
        | Ok activeCount' => getActiveVariations_count rest activeCount'
        | Revert e => Revert e
        end
      else getActiveVariations_count rest activeCount
  end.

(** The second loop: [activeVariations[currentIndex] = allVariations[i];
    currentIndex++] for every active variation. *)
Fixpoint getActiveVariations_fill (allVariations activeVariations : list Variation)
    (currentIndex : uint256) : result (list Variation) :=
  match allVariations with
  | [] => Ok activeVariations
  | v :: rest =>
      if active v then
        if currentIndex <? N.of_nat (length activeVariations) then
          match checked_add currentIndex 1 with
          | Ok currentIndex' =>
              getActiveVariations_fill rest
                (<[N.to_nat currentIndex := v]> activeVariations) currentIndex'
          | Revert e => Revert e
          end
        else Revert Panic
      else getActiveVariations_fill rest activeVariations currentIndex
  end.

Definition getActiveVariations (modelId : uint256) : M Storage (list Variation) :=
  allVariations ← gets (fun s => (variations s)⟦modelId⟧);
  activeCount ← lift (getActiveVariations_count allVariations 0);
  lift (getActiveVariations_fill allVariations
          (replicate (N.to_nat activeCount) zero) 0).

(** *** The inherited [Ownable]

    None of the contract's own functions is [onlyOwner]. *)

Definition set_owner (x : address) (s : Storage) : Storage :=
  mkStorage (licenseConfigs s) (royalties s) (maxSupplies s) (soldCounts s)
            (variations s) (forSale s) x.

Definition onlyOwner (env : Env) : M Storage unit :=
  o ← gets _owner;
  require (o =? msg_sender env) "OwnableUnauthorizedAccount".

Definition transferOwnership (env : Env) (newOwner : address) : M Storage unit :=
  onlyOwner env;;
  (if newOwner =? 0 then revert (Error "OwnableInvalidOwner") else mret tt);;
  sstore "_owner" (set_owner newOwner);;
  emit "OwnershipTransferred".

Definition renounceOwnership (env : Env) : M Storage unit :=
  onlyOwner env;;
  sstore "_owner" (set_owner 0);;
  emit "OwnershipTransferred".

(** *** The state-changing interface of the contract

    Each transaction comes with the storage of the registry at the time it
    is executed. *)

Inductive Call :=
| SetLicenseConfig (modelId : uint256) (config : LicenseConfig)
| SetLicensePrice (modelId : uint256) (licenseType : string) (price : uint256)
| SetRoyalty (modelId : uint256) (recipient : address) (bps : uint256)
| AddVariation (modelId : uint256) (name : string) (price : uint256) (metadataIPFS : string)
| ToggleVariationActive (modelId variationIndex : uint256)
| SetMaxSupply (modelId maxSupply : uint256)
| ToggleForSale (modelId : uint256)
| IncrementSoldCount (modelId : uint256)
| TransferOwnership (newOwner : address)
| RenounceOwnership.

Definition exec (registry : ModelRegistry.Storage) (env : Env) (c : Call)
  : M Storage unit :=
  match c with
  | SetLicenseConfig modelId config => setLicenseConfig registry env modelId config
  | SetLicensePrice modelId licenseType price =>
      setLicensePrice registry env modelId licenseType price
  | SetRoyalty modelId recipient bps => setRoyalty registry env modelId recipient bps
  | AddVariation modelId name price metadataIPFS =>
      addVariation registry env modelId name price metadataIPFS
  | ToggleVariationActive modelId variationIndex =>
      toggleVariationActive registry env modelId variationIndex
  | SetMaxSupply modelId maxSupply => setMaxSupply registry env modelId maxSupply
  | ToggleForSale modelId => toggleForSale registry env modelId
  | IncrementSoldCount modelId => incrementSoldCount env modelId
  | TransferOwnership newOwner => transferOwnership env newOwner
  | RenounceOwnership => renounceOwnership env
  end.

Definition step (tx : ModelRegistry.Storage * Env * Call) (s : Storage) : Storage :=
  match exec (fst (fst tx)) (snd (fst tx)) (snd tx) s with
  | Ok (_, s', _) => s'
  | Revert _ => s
  end.

Definition run (txs : list (ModelRegistry.Storage * Env * Call)) (s : Storage) : Storage :=
  fold_left (fun s tx => step tx s) txs s.

End ModelMarketplace.

(* ================================================================= *)
(** ** ModelRegistry.sol, contract ModelToken *)

Module ModelToken.

Record LicenseSnapshot := mkLicenseSnapshot {
  licenseType : string;
  license_purchasedAt : uint256;   (* [purchasedAt] of the struct *)
  expiresAt : uint256;             (* 0 = perpetual *)
  duration : uint256
}.

Record PurchaseSnapshot := mkPurchaseSnapshot {
  modelId : uint256;
  purchasedAt : uint256;
  pricePaid : uint256;
  license : LicenseSnapshot;
  variationIds : list uint256;
  metadataSnapshot : string;
  royaltyBpsAtPurchase : uint256;
  burned : bool;
  downloadKey : string
}.

Global Instance PurchaseSnapshot_zero : Zero PurchaseSnapshot :=
  mkPurchaseSnapshot 0 0 0 (mkLicenseSnapshot "" 0 0 0) [] "" 0 false "".

(** The storage of the contract.  The first four fields are declared in
    [ModelToken]; [_owners] to [_tokenURIs] are the storage of the
    OpenZeppelin [ERC721] / [ERC721URIStorage] contracts it inherits, and
    [_owner] is that of [Ownable]. *)
Record Storage := mkStorage {
  _tokenIdCounter : uint256;
  purchaseSnapshots : gmap N PurchaseSnapshot;
  modelPurchaseCount : gmap N uint256;
  userTokens : gmap N (list uint256);
  _owners : gmap N address;
  _balances : gmap N uint256;
  _tokenApprovals : gmap N address;
  _operatorApprovals : gmap (N * N) bool;
  _tokenURIs : gmap N string;
  _owner : address
}.

(** What a call of the token contract can see and change: its own
    storage, the two contracts it was constructed with, its own address
    and balance, and which addresses accept a plain value transfer. *)
Record World := mkWorld {
  registry : ModelRegistry.Storage;
  marketplace : ModelMarketplace.Storage;
  storage : Storage;
  this : address;
  balance : uint256;
  receives : address -> bool
}.

Definition set_tokenIdCounter (x : uint256) (s : Storage) : Storage :=
  mkStorage x (purchaseSnapshots s) (modelPurchaseCount s) (userTokens s) (_owners s)
    (_balances s) (_tokenApprovals s) (_operatorApprovals s) (_tokenURIs s) (_owner s).
Definition set_purchaseSnapshots (x : gmap N PurchaseSnapshot) (s : Storage) : Storage :=
  mkStorage (_tokenIdCounter s) x (modelPurchaseCount s) (userTokens s) (_owners s)
    (_balances s) (_tokenApprovals s) (_operatorApprovals s) (_tokenURIs s) (_owner s).
Definition set_modelPurchaseCount (x : gmap N uint256) (s : Storage) : Storage :=
  mkStorage (_tokenIdCounter s) (purchaseSnapshots s) x (userTokens s) (_owners s)
    (_balances s) (_tokenApprovals s) (_operatorApprovals s) (_tokenURIs s) (_owner s).
Definition set_userTokens (x : gmap N (list uint256)) (s : Storage) : Storage :=
  mkStorage (_tokenIdCounter s) (purchaseSnapshots s) (modelPurchaseCount s) x (_owners s)
    (_balances s) (_tokenApprovals s) (_operatorApprovals s) (_tokenURIs s) (_owner s).
Definition set_owners (x : gmap N address) (s : Storage) : Storage :=
  mkStorage (_tokenIdCounter s) (purchaseSnapshots s) (modelPurchaseCount s) (userTokens s) x
    (_balances s) (_tokenApprovals s) (_operatorApprovals s) (_tokenURIs s) (_owner s).
Definition set_balances (x : gmap N uint256) (s : Storage) : Storage :=
  mkStorage (_tokenIdCounter s) (purchaseSnapshots s) (modelPurchaseCount s) (userTokens s)
    (_owners s) x (_tokenApprovals s) (_operatorApprovals s) (_tokenURIs s) (_owner s).
Definition set_tokenApprovals (x : gmap N address) (s : Storage) : Storage :=
  mkStorage (_tokenIdCounter s) (purchaseSnapshots s) (modelPurchaseCount s) (userTokens s)
    (_owners s) (_balances s) x (_operatorApprovals s) (_tokenURIs s) (_owner s).
Definition set_operatorApprovals (x : gmap (N * N) bool) (s : Storage) : Storage :=
  mkStorage (_tokenIdCounter s) (purchaseSnapshots s) (modelPurchaseCount s) (userTokens s)
    (_owners s) (_balances s) (_tokenApprovals s) x (_tokenURIs s) (_owner s).
Definition set_tokenURIs (x : gmap N string) (s : Storage) : Storage :=
  mkStorage (_tokenIdCounter s) (purchaseSnapshots s) (modelPurchaseCount s) (userTokens s)
    (_owners s) (_balances s) (_tokenApprovals s) (_operatorApprovals s) x (_owner s).
Definition set_owner (x : address) (s : Storage) : Storage :=
  mkStorage (_tokenIdCounter s) (purchaseSnapshots s) (modelPurchaseCount s) (userTokens s)
    (_owners s) (_balances s) (_tokenApprovals s) (_operatorApprovals s) (_tokenURIs s) x.

Definition set_registry (x : ModelRegistry.Storage) (w : World) : World :=
  mkWorld x (marketplace w) (storage w) (this w) (balance w) (receives w).
Definition set_marketplace (x : ModelMarketplace.Storage) (w : World) : World :=
  mkWorld (registry w) x (storage w) (this w) (balance w) (receives w).
Definition set_storage (x : Storage) (w : World) : World :=
  mkWorld (registry w) (marketplace w) x (this w) (balance w) (receives w).
Definition set_balance (x : uint256) (w : World) : World :=
  mkWorld (registry w) (marketplace w) (storage w) (this w) x (receives w).

Definition set_expiresAt (x : uint256) (p : PurchaseSnapshot) : PurchaseSnapshot :=
  mkPurchaseSnapshot (modelId p) (purchasedAt p) (pricePaid p)
    (mkLicenseSnapshot (licenseType (license p)) (license_purchasedAt (license p)) x
                       (duration (license p)))
    (variationIds p) (metadataSnapshot p) (royaltyBpsAtPurchase p) (burned p)
    (downloadKey p).
Definition set_burned (x : bool) (p : PurchaseSnapshot) : PurchaseSnapshot :=
  mkPurchaseSnapshot (modelId p) (purchasedAt p) (pricePaid p) (license p) (variationIds p)
    (metadataSnapshot p) (royaltyBpsAtPurchase p) x (downloadKey p).
Definition set_downloadKey (x : string) (p : PurchaseSnapshot) : PurchaseSnapshot :=
  mkPurchaseSnapshot (modelId p) (purchasedAt p) (pricePaid p) (license p) (variationIds p)
    (metadataSnapshot p) (royaltyBpsAtPurchase p) (burned p) x.

(** [constructor(address registryAddress, address marketplaceAddress)]. *)
Definition constructor (deployer : address) : Storage :=
  mkStorage 0 ∅ ∅ ∅ ∅ ∅ ∅ ∅ ∅ deployer.

(** A write to the contract's own storage. *)
Definition store (slot : string) (f : Storage -> Storage) : M World unit :=
  sstore slot (fun w => set_storage (f (storage w)) w).

(** Calls into the two collaborators. *)
Definition marketplace_view {A} (m : M ModelMarketplace.Storage A) : M World A :=
  fun w => view (marketplace w) m w.
Definition marketplace_call {A} (m : M ModelMarketplace.Storage A) : M World A :=
  call marketplace set_marketplace m.
Definition registry_view {A} (m : M ModelRegistry.Storage A) : M World A :=
  fun w => view (registry w) m w.
(** [marketplace.canPurchase(modelId)]: the marketplace consults the registry. *)
Definition marketplace_canPurchase (modelId : uint256) : M World bool :=
  fun w => view (marketplace w) (ModelMarketplace.canPurchase (registry w) modelId) w.

(** A payable function is entered with [msg.value] already credited. *)
Definition payable (env : Env) : M World unit :=
  fun w => Ok (tt, set_balance (balance w + msg_value env) w, []).

(** [payable(to).transfer(amount)] *)
Definition transfer (to : address) (amount : uint256) : M World unit :=
  fun w =>
    if (amount <=? balance w) && receives w to
    then Ok (tt, set_balance (balance w - amount) w, [Transfer to amount])
    else Revert TransferFailed.

(** *** The inherited ERC721 (OpenZeppelin, not part of the sources) *)

Definition _ownerOf (tokenId : uint256) : M World address :=
  gets (fun w => (_owners (storage w))⟦tokenId⟧).

Definition _exists (tokenId : uint256) : M World bool :=
  o ← _ownerOf tokenId; mret (negb (o =? 0)).

Definition ownerOf (tokenId : uint256) : M World address :=
  o ← _ownerOf tokenId;
  if o =? 0 then revert (Error "ERC721NonexistentToken") else mret o.

Definition isApprovedForAll (owner operator : address) : M World bool :=
  gets (fun w => (_operatorApprovals (storage w))⟦(owner, operator)⟧).

Definition _getApproved (tokenId : uint256) : M World address :=
  gets (fun w => (_tokenApprovals (storage w))⟦tokenId⟧).

Definition _isAuthorized (owner spender : address) (tokenId : uint256) : M World bool :=
  all ← isApprovedForAll owner spender;
  appr ← _getApproved tokenId;
  mret (negb (spender =? 0) && ((owner =? spender) || all || (appr =? spender))).

Definition _checkAuthorized (owner spender : address) (tokenId : uint256)
  : M World unit :=
  ok ← _isAuthorized owner spender tokenId;
  if (ok : bool) then mret tt
  else if owner =? 0 then revert (Error "ERC721NonexistentToken")
  else revert (Error "ERC721InsufficientApproval").

(** [ERC721._update], the function [super._update] refers to. *)
Definition ERC721_update (to : address) (tokenId : uint256) (auth : address)
  : M World address :=
  from ← _ownerOf tokenId;
  (if negb (auth =? 0) then _checkAuthorized from auth tokenId else mret tt);;
  (if negb (from =? 0) then
     store "_tokenApprovals" (fun s => set_tokenApprovals
       (<[tokenId := 0]> (_tokenApprovals s)) s);;
     store "_balances" (fun s => set_balances
       (<[from := ((_balances s)⟦from⟧ + (2 ^ 256 - 1)) mod 2 ^ 256]> (_balances s)) s)
   else mret tt);;
  (if negb (to =? 0) then
     store "_balances" (fun s => set_balances
       (<[to := ((_balances s)⟦to⟧ + 1) mod 2 ^ 256]> (_balances s)) s)
   else mret tt);;
  store "_owners" (fun s => set_owners (<[tokenId := to]> (_owners s)) s);;
  emit "Transfer";;
  mret from.

(** *** Modifiers *)

Definition onlyTokenOwner (env : Env) (tokenId : uint256) : M World unit :=
  o ← ownerOf tokenId;
  require (o =? msg_sender env) "ModelToken: Not token owner".

Definition tokenExists (tokenId : uint256) : M World unit :=
  b ← _exists tokenId;
  require b "ModelToken: Token does not exist".

Definition onlyOwner (env : Env) : M World unit :=
  o ← gets (fun w => _owner (storage w));
  require (o =? msg_sender env) "OwnableUnauthorizedAccount".

(** *** Internal functions *)

Definition _distributePayment (creator : address) (totalPrice : uint256)
    (royaltyRecipient : address) (royaltyBps : uint256) : M World unit :=
  x ← lift (checked_mul totalPrice royaltyBps);
  let royaltyAmount := x / 10000 in
  creatorAmount ← lift (checked_sub totalPrice royaltyAmount);
  transfer creator creatorAmount;;
  if (0 <? royaltyAmount) && negb (royaltyRecipient =? 0)
  then transfer royaltyRecipient royaltyAmount
  else mret tt.

(** The second loop of [_toString]: the decimal digits of [value], least
    significant first, written in front of [buffer]. *)
Fixpoint _toString_loop (fuel : nat) (value : uint256) (buffer : string) : string :=
  match fuel with
  | O => buffer
  | S fuel' =>
      if value =? 0 then buffer
      else _toString_loop fuel' (value / 10)
             (String (Ascii.ascii_of_N (48 + value mod 10)) buffer)
  end.

(** A [uint256] has at most 78 decimal digits. *)
Definition _toString (value : uint256) : string :=
  if value =? 0 then "0" else _toString_loop 78 value "".

(** The first loop of [_update]: the least [i] with [fromTokens[i] == tokenId]. *)
Fixpoint index_of (tokenId : uint256) (fromTokens : list uint256) (i : nat) : option nat :=
  match fromTokens with
  | [] => None
  | x :: rest => if x =? tokenId then Some i else index_of tokenId rest (S i)
  end.

(** [fromTokens[i] = fromTokens[fromTokens.length - 1]; fromTokens.pop(); break] *)
Definition swap_remove (tokenId : uint256) (fromTokens : list uint256) : list uint256 :=
  match index_of tokenId fromTokens 0 with
  | Some i => removelast (<[i := List.last fromTokens 0]> fromTokens)
  | None => fromTokens
  end.

Definition _update (to : address) (tokenId : uint256) (auth : address)
  : M World address :=
  from ← _ownerOf tokenId;
  (if negb (from =? 0) && negb (to =? 0) then
     store "userTokens" (fun s => set_userTokens
       (<[from := swap_remove tokenId (userTokens s)⟦from⟧]> (userTokens s)) s);;
     store "userTokens" (fun s => set_userTokens
       (<[to := (userTokens s)⟦to⟧ ++ [tokenId]]> (userTokens s)) s)
   else mret tt);;
  ERC721_update to tokenId auth.

(** [ERC721._mint], [ERC721._burn] and [ERC721URIStorage._setTokenURI];
    both [_mint] and [_burn] go through the overridden [_update]. *)
Definition _mint (to : address) (tokenId : uint256) : M World unit :=
  (if to =? 0 then revert (Error "ERC721InvalidReceiver") else mret tt);;
  previousOwner ← _update to tokenId 0;
  if negb (previousOwner =? 0) then revert (Error "ERC721InvalidSender") else mret tt.

Definition _burn (tokenId : uint256) : M World unit :=
  previousOwner ← _update 0 tokenId 0;
  if previousOwner =? 0 then revert (Error "ERC721NonexistentToken") else mret tt.

Definition _setTokenURI (tokenId : uint256) (uri : string) : M World unit :=
  store "_tokenURIs" (fun s => set_tokenURIs (<[tokenId := uri]> (_tokenURIs s)) s);;
  emit "MetadataUpdate".

(** *** View functions *)

Definition isLicenseValid (env : Env) (tokenId : uint256) : M World bool :=
  snapshot ← gets (fun w => (purchaseSnapshots (storage w))⟦tokenId⟧);
  if expiresAt (license snapshot) =? 0 then mret true
  else mret (block_timestamp env <=? expiresAt (license snapshot)).

Definition getOwnedTokens (owner : address) : M World (list uint256) :=
  gets (fun w => (userTokens (storage w))⟦owner⟧).

Definition canDownload (tokenId : uint256) : M World bool :=
  gets (fun w => burned (purchaseSnapshots (storage w))⟦tokenId⟧
                 && nonempty (downloadKey (purchaseSnapshots (storage w))⟦tokenId⟧)).

Definition getBurnCertificate (tokenId : uint256) : M World PurchaseSnapshot :=
  p ← gets (fun w => (purchaseSnapshots (storage w))⟦tokenId⟧);
  require (burned p) "ModelToken: Token not burned";;
  mret p.

Definition getLicenseTimeRemaining (env : Env) (tokenId : uint256) : M World uint256 :=
  snapshot ← gets (fun w => (purchaseSnapshots (storage w))⟦tokenId⟧);
  if expiresAt (license snapshot) =? 0 then mret MAX_UINT256
  else if expiresAt (license snapshot) <=? block_timestamp env then mret 0
  else mret (expiresAt (license snapshot) - block_timestamp env).

Section WithHash.

(** [uint256(keccak256(abi.encodePacked(...)))] of the listed values.
    Nothing below depends on what the hash function is. *)
Variable keccak256 : list N -> uint256.

Definition _generateDownloadKey (env : Env) (tokenId : uint256) : M World string :=
  mret ("key_" +:+ _toString tokenId +:+ "_" +:+ _toString (block_timestamp env)
        +:+ "_" +:+ _toString (keccak256 [tokenId; block_timestamp env; msg_sender env])).

(** *** Purchase *)

Definition purchaseModel (env : Env) (modelId : uint256) (licenseType : string)
    (variationIds : list uint256) : M World unit :=
  payable env;;
  tokenExists modelId;;
  ok ← marketplace_canPurchase modelId;
  require ok "ModelToken: Model not available";;
  totalPrice ← marketplace_view
    (ModelMarketplace.getTotalPrice modelId licenseType variationIds);
  require (totalPrice <=? msg_value env) "ModelToken: Insufficient payment";;
  model ← registry_view (ModelRegistry.models_ modelId);
  '(royaltyRecipient, royaltyBps) ← marketplace_view
    (ModelMarketplace.royaltyInfo modelId totalPrice);
  duration ← marketplace_view (ModelMarketplace.getLicenseDuration modelId licenseType);
  expiresAt ← (if 0 <? duration then lift (checked_add (block_timestamp env) duration)
               else mret 0);
  tokenId ← gets (fun w => _tokenIdCounter (storage w));
  store "_tokenIdCounter" (set_tokenIdCounter (increment tokenId));;
  store "purchaseSnapshots" (fun s => set_purchaseSnapshots (<[tokenId :=
    {| modelId := modelId;
       purchasedAt := block_timestamp env;
       pricePaid := totalPrice;
       license := {| licenseType := licenseType;
                     license_purchasedAt := block_timestamp env;
                     expiresAt := expiresAt;
                     duration := duration |};
       variationIds := variationIds;
       metadataSnapshot := ModelRegistry.metadataIPFS model;
       royaltyBpsAtPurchase := royaltyBps;
       burned := false;
       downloadKey := "" |}]> (purchaseSnapshots s)) s);;
  _mint (msg_sender env) tokenId;;
  _setTokenURI tokenId (ModelRegistry.metadataIPFS model);;
  store "userTokens" (fun s => set_userTokens
    (<[msg_sender env := (userTokens s)⟦msg_sender env⟧ ++ [tokenId]]> (userTokens s)) s);;
  n ← gets (fun w => (modelPurchaseCount (storage w))⟦modelId⟧);
  n' ← lift (checked_add n 1);
  store "modelPurchaseCount" (fun s => set_modelPurchaseCount
    (<[modelId := n']> (modelPurchaseCount s)) s);;
  self ← gets this;
  marketplace_call (ModelMarketplace.incrementSoldCount
    (mkEnv self 0 (block_timestamp env)) modelId);;
  _distributePayment (ModelRegistry.creator model) totalPrice royaltyRecipient royaltyBps;;
  emit "ModelPurchased".

(** *** Burn and download *)

Definition burnForDownload (env : Env) (tokenId : uint256) : M World unit :=
  tokenExists tokenId;;
  onlyTokenOwner env tokenId;;
  snapshot ← gets (fun w => (purchaseSnapshots (storage w))⟦tokenId⟧);
  require (negb (burned snapshot)) "ModelToken: Already burned";;
  valid ← isLicenseValid env tokenId;
  require valid "ModelToken: License expired";;
  downloadKey ← _generateDownloadKey env tokenId;
  store "purchaseSnapshots" (fun s => set_purchaseSnapshots
    (<[tokenId := set_burned true (purchaseSnapshots s)⟦tokenId⟧]> (purchaseSnapshots s)) s);;
  store "purchaseSnapshots" (fun s => set_purchaseSnapshots
    (<[tokenId := set_downloadKey downloadKey (purchaseSnapshots s)⟦tokenId⟧]>
       (purchaseSnapshots s)) s);;
  _burn tokenId;;
  emit "TokenBurned".

Definition setDownloadKey (env : Env) (tokenId : uint256) (downloadKey : string)
  : M World unit :=
  onlyOwner env;;
  p ← gets (fun w => (purchaseSnapshots (storage w))⟦tokenId⟧);
  require (burned p) "ModelToken: Token not burned";;
  store "purchaseSnapshots" (fun s => set_purchaseSnapshots
    (<[tokenId := set_downloadKey downloadKey (purchaseSnapshots s)⟦tokenId⟧]>
       (purchaseSnapshots s)) s).

(** *** License management *)

Definition renewLicense (env : Env) (tokenId : uint256) : M World unit :=
  payable env;;
  tokenExists tokenId;;
  onlyTokenOwner env tokenId;;
  snapshot ← gets (fun w => (purchaseSnapshots (storage w))⟦tokenId⟧);
  require (0 <? expiresAt (license snapshot)) "ModelToken: Cannot renew perpetual license";;
  require (negb (burned snapshot)) "ModelToken: Token burned";;
  let modelId := modelId snapshot in
  renewalPrice ← marketplace_view
    (ModelMarketplace.getLicensePrice modelId (licenseType (license snapshot)));
  require (renewalPrice <=? msg_value env) "ModelToken: Insufficient renewal payment";;
  newExpiry ← lift (checked_add (expiresAt (license snapshot)) (duration (license snapshot)));
  store "purchaseSnapshots" (fun s => set_purchaseSnapshots
    (<[tokenId := set_expiresAt newExpiry (purchaseSnapshots s)⟦tokenId⟧]>
       (purchaseSnapshots s)) s);;
  model ← registry_view (ModelRegistry.models_ modelId);
  x ← lift (checked_mul renewalPrice (royaltyBpsAtPurchase snapshot));
  let royaltyAmount := x / 10000 in
  creatorAmount ← lift (checked_sub renewalPrice royaltyAmount);
  transfer (ModelRegistry.creator model) creatorAmount;;
  (if 0 <? royaltyAmount then
     '(royaltyRecipient, _) ← marketplace_view
       (ModelMarketplace.royaltyInfo modelId renewalPrice);
     if negb (royaltyRecipient =? 0) then transfer royaltyRecipient royaltyAmount
     else mret tt
   else mret tt);;
  emit "LicenseRenewed".

(** *** The inherited external functions (OpenZeppelin ERC721 and Ownable) *)

Definition transferFrom (env : Env) (from to : address) (tokenId : uint256)
  : M World unit :=
  (if to =? 0 then revert (Error "ERC721InvalidReceiver") else mret tt);;
  previousOwner ← _update to tokenId (msg_sender env);
  if negb (previousOwner =? from) then revert (Error "ERC721IncorrectOwner")
  else mret tt.

Definition approve (env : Env) (to : address) (tokenId : uint256) : M World unit :=
  owner ← ownerOf tokenId;
  all ← isApprovedForAll owner (msg_sender env);
  (if negb (msg_sender env =? 0) && negb (owner =? msg_sender env) && negb all
   then revert (Error "ERC721InvalidApprover") else mret tt);;
  emit "Approval";;
  store "_tokenApprovals" (fun s => set_tokenApprovals
    (<[tokenId := to]> (_tokenApprovals s)) s).

Definition setApprovalForAll (env : Env) (operator : address) (approved : bool)
  : M World unit :=
  (if operator =? 0 then revert (Error "ERC721InvalidOperator") else mret tt);;
  store "_operatorApprovals" (fun s => set_operatorApprovals
    (<[(msg_sender env, operator) := approved]> (_operatorApprovals s)) s);;
  emit "ApprovalForAll".

Definition transferOwnership (env : Env) (newOwner : address) : M World unit :=
  onlyOwner env;;
  (if newOwner =? 0 then revert (Error "OwnableInvalidOwner") else mret tt);;
  store "_owner" (set_owner newOwner);;
  emit "OwnershipTransferred".

Definition renounceOwnership (env : Env) : M World unit :=
  onlyOwner env;;
  store "_owner" (set_owner 0);;
  emit "OwnershipTransferred".

(** *** The state-changing interface of the contract *)

Inductive Call :=
| PurchaseModel (modelId : uint256) (licenseType : string) (variationIds : list uint256)
| BurnForDownload (tokenId : uint256)
| SetDownloadKey (tokenId : uint256) (downloadKey : string)
| RenewLicense (tokenId : uint256)
| TransferFrom (from to : address) (tokenId : uint256)
| Approve (to : address) (tokenId : uint256)
| SetApprovalForAll (operator : address) (approved : bool)
| TransferOwnership (newOwner : address)
| RenounceOwnership.

Definition exec (env : Env) (c : Call) : M World unit :=
  match c with
  | PurchaseModel modelId licenseType variationIds =>
      purchaseModel env modelId licenseType variationIds
  | BurnForDownload tokenId => burnForDownload env tokenId
  | SetDownloadKey tokenId downloadKey => setDownloadKey env tokenId downloadKey
  | RenewLicense tokenId => renewLicense env tokenId
  | TransferFrom from to tokenId => transferFrom env from to tokenId
  | Approve to tokenId => approve env to tokenId
  | SetApprovalForAll operator approved => setApprovalForAll env operator approved
  | TransferOwnership newOwner => transferOwnership env newOwner
  | RenounceOwnership => renounceOwnership env
  end.

(** One step of the world the token lives in: a transaction on the
    token (a reverted one changes nothing, and none is sent from the null
    address), or anything the registry and the marketplace do on their own
    storage in between. *)
Inductive Action :=
| Tx (env : Env) (c : Call)
| Others (registry' : ModelRegistry.Storage) (marketplace' : ModelMarketplace.Storage).

Definition step (a : Action) (w : World) : World :=
  match a with
  | Tx env c =>
      if msg_sender env =? 0 then w
      else match exec env c w with
           | Ok (_, w', _) => w'
           | Revert _ => w
           end
  | Others registry' marketplace' => set_registry registry' (set_marketplace marketplace' w)
  end.

Definition run (actions : list Action) (w : World) : World :=
  fold_left (fun w a => step a w) actions w.

(** Whether an action is a call of [setDownloadKey] on the given record. *)
Definition is_setDownloadKey (tokenId : uint256) (a : Action) : bool :=
  match a with
  | Tx _ (SetDownloadKey tokenId' _) => tokenId' =? tokenId
  | _ => false
  end.

End WithHash.

End ModelToken.

(* ================================================================= *)
(** ** DerivativeRoyaltyRegistry.sol *)

Module DerivativeRoyaltyRegistry.

Record DerivativeRoyalty := mkDerivativeRoyalty {
  originalModelId : uint256;
  originalCreator : address;
  royaltyBps : uint256;
  active : bool
}.

Record RoyaltyPayment := mkRoyaltyPayment {
  from : address;
  to : address;
  amount : uint256;
  modelId : uint256;
  paymentType : string;   (* "derivative" or "direct" *)
  message : string;
  timestamp : uint256
}.

Global Instance DerivativeRoyalty_zero : Zero DerivativeRoyalty :=
  mkDerivativeRoyalty 0 0 0 false.
Global Instance RoyaltyPayment_zero : Zero RoyaltyPayment :=
  mkRoyaltyPayment 0 0 0 0 "" "" 0.

Record Storage := mkStorage {
  _paymentIdCounter : uint256;
  derivativeRoyalties : gmap N DerivativeRoyalty;
  claimableRoyalties : gmap N uint256;
  royaltyPayments : gmap N RoyaltyPayment;
  creatorPayments : gmap N (list uint256);
  _owner : address
}.

(** What a call of the royalty registry can see and change: its own
    storage, the [ModelRegistry] it was constructed with, its own address
    and balance, and which addresses accept a plain value transfer. *)
Record World := mkWorld {
  registry : ModelRegistry.Storage;
  storage : Storage;
  this : address;
  balance : uint256;
  receives : address -> bool
}.

Definition MAX_DERIVATIVE_ROYALTY_BPS : uint256 := 2000.

Definition set_paymentIdCounter (x : uint256) (s : Storage) : Storage :=
  mkStorage x (derivativeRoyalties s) (claimableRoyalties s) (royaltyPayments s)
            (creatorPayments s) (_owner s).
Definition set_derivativeRoyalties (x : gmap N DerivativeRoyalty) (s : Storage) : Storage :=
  mkStorage (_paymentIdCounter s) x (claimableRoyalties s) (royaltyPayments s)
            (creatorPayments s) (_owner s).
Definition set_claimableRoyalties (x : gmap N uint256) (s : Storage) : Storage :=
  mkStorage (_paymentIdCounter s) (derivativeRoyalties s) x (royaltyPayments s)
            (creatorPayments s) (_owner s).
Definition set_royaltyPayments (x : gmap N RoyaltyPayment) (s : Storage) : Storage :=
  mkStorage (_paymentIdCounter s) (derivativeRoyalties s) (claimableRoyalties s) x
            (creatorPayments s) (_owner s).
Definition set_creatorPayments (x : gmap N (list uint256)) (s : Storage) : Storage :=
  mkStorage (_paymentIdCounter s) (derivativeRoyalties s) (claimableRoyalties s)
            (royaltyPayments s) x (_owner s).

Definition set_registry (x : ModelRegistry.Storage) (w : World) : World :=
  mkWorld x (storage w) (this w) (balance w) (receives w).
Definition set_storage (x : Storage) (w : World) : World :=
  mkWorld (registry w) x (this w) (balance w) (receives w).
Definition set_balance (x : uint256) (w : World) : World :=
  mkWorld (registry w) (storage w) (this w) x (receives w).

Definition set_active (x : bool) (r : DerivativeRoyalty) : DerivativeRoyalty :=
  mkDerivativeRoyalty (originalModelId r) (originalCreator r) (royaltyBps r) x.

(** [constructor(address registryAddress) Ownable(msg.sender)] *)
Definition constructor (deployer : address) : Storage :=
  mkStorage 0 ∅ ∅ ∅ ∅ deployer.

Definition store (slot : string) (f : Storage -> Storage) : M World unit :=
  sstore slot (fun w => set_storage (f (storage w)) w).

Definition registry_view {A} (m : M ModelRegistry.Storage A) : M World A :=
  fun w => view (registry w) m w.
Definition registry_call {A} (m : M ModelRegistry.Storage A) : M World A :=
  call registry set_registry m.

Definition payable (env : Env) : M World unit :=
  fun w => Ok (tt, set_balance (balance w + msg_value env) w, []).

Definition transfer (to : address) (amount : uint256) : M World unit :=
  fun w =>
    if (amount <=? balance w) && receives w to
    then Ok (tt, set_balance (balance w - amount) w, [Transfer to amount])
    else Revert TransferFailed.

(** *** Modifiers *)

Definition modelExists (modelId : uint256) : M World unit :=
  m ← registry_view (ModelRegistry.models_ modelId);
  require (ModelRegistry.exists_ m) "DerivativeRoyalty: Model does not exist".

Definition onlyOwner (env : Env) : M World unit :=
  o ← gets (fun w => _owner (storage w));
  require (o =? msg_sender env) "OwnableUnauthorizedAccount".

(** *** Derivative royalty functions *)

Definition setDerivativeRoyalty (env : Env) (derivativeModelId originalModelId : uint256)
    (royaltyBps : uint256) : M World unit :=
  modelExists derivativeModelId;;
  modelExists originalModelId;;
  require (royaltyBps <=? MAX_DERIVATIVE_ROYALTY_BPS) "DerivativeRoyalty: Royalty too high";;
  originalModel ← registry_view (ModelRegistry.models_ originalModelId);
  require (negb (ModelRegistry.creator originalModel =? 0))
          "DerivativeRoyalty: Invalid original creator";;
  store "derivativeRoyalties" (fun s => set_derivativeRoyalties
    (<[derivativeModelId :=
        {| originalModelId := originalModelId;
           originalCreator := ModelRegistry.creator originalModel;
           royaltyBps := royaltyBps;
           active := true |}]> (derivativeRoyalties s)) s);;
  self ← gets this;
  registry_call (ModelRegistry.incrementDerivativeCount
    (mkEnv self 0 (block_timestamp env)) originalModelId);;
  emit "DerivativeRoyaltySet".

Definition payDerivativeRoyalty (env : Env) (derivativeModelId salePrice : uint256)
  : M World unit :=
  payable env;;
  modelExists derivativeModelId;;
  royalty ← gets (fun w => (derivativeRoyalties (storage w))⟦derivativeModelId⟧);
  require (active royalty) "DerivativeRoyalty: No derivative royalty set";;
  require (msg_value env =? salePrice) "DerivativeRoyalty: Incorrect payment amount";;
  x ← lift (checked_mul salePrice (royaltyBps royalty));
  let royaltyAmount := x / 10000 in
  remainingAmount ← lift (checked_sub salePrice royaltyAmount);
  c ← gets (fun w => (claimableRoyalties (storage w))⟦originalCreator royalty⟧);
  c' ← lift (checked_add c royaltyAmount);
  store "claimableRoyalties" (fun s => set_claimableRoyalties
    (<[originalCreator royalty := c']> (claimableRoyalties s)) s);;
  transfer (msg_sender env) remainingAmount;;
  paymentId ← gets (fun w => _paymentIdCounter (storage w));
  store "_paymentIdCounter" (set_paymentIdCounter (increment paymentId));;
  store "royaltyPayments" (fun s => set_royaltyPayments
    (<[paymentId :=
        {| from := msg_sender env;
           to := originalCreator royalty;
           amount := royaltyAmount;
           modelId := derivativeModelId;
           paymentType := "derivative";
           message := "";
           timestamp := block_timestamp env |}]> (royaltyPayments s)) s);;
  store "creatorPayments" (fun s => set_creatorPayments
    (<[originalCreator royalty := (creatorPayments s)⟦originalCreator royalty⟧ ++ [paymentId]]>
       (creatorPayments s)) s);;
  emit "DerivativeRoyaltyPaid".

(** *** Direct royalty payment functions *)

Definition payDirectRoyalty (env : Env) (creator : address) (message : string)
  : M World unit :=
  payable env;;
  require (negb (creator =? 0)) "DerivativeRoyalty: Invalid creator address";;
  require (0 <? msg_value env) "DerivativeRoyalty: Payment required";;
  require (negb (creator =? msg_sender env)) "DerivativeRoyalty: Cannot pay yourself";;
  c ← gets (fun w => (claimableRoyalties (storage w))⟦creator⟧);
  c' ← lift (checked_add c (msg_value env));
  store "claimableRoyalties" (fun s => set_claimableRoyalties
    (<[creator := c']> (claimableRoyalties s)) s);;
  paymentId ← gets (fun w => _paymentIdCounter (storage w));
  store "_paymentIdCounter" (set_paymentIdCounter (increment paymentId));;
  store "royaltyPayments" (fun s => set_royaltyPayments
    (<[paymentId :=
        {| from := msg_sender env;
           to := creator;
           amount := msg_value env;
           modelId := 0;
           paymentType := "direct";
           message := message;
           timestamp := block_timestamp env |}]> (royaltyPayments s)) s);;
  store "creatorPayments" (fun s => set_creatorPayments
    (<[creator := (creatorPayments s)⟦creator⟧ ++ [paymentId]]> (creatorPayments s)) s);;
  emit "DirectRoyaltyPaid".

Definition claimRoyalties (env : Env) : M World unit :=
  amount ← gets (fun w => (claimableRoyalties (storage w))⟦msg_sender env⟧);
  require (0 <? amount) "DerivativeRoyalty: No royalties to claim";;
  store "claimableRoyalties" (fun s => set_claimableRoyalties
    (<[msg_sender env := 0]> (claimableRoyalties s)) s);;
  transfer (msg_sender env) amount;;
  emit "RoyaltiesClaimed".

(** *** View functions *)

Definition getDerivativeRoyalty (derivativeModelId : uint256) : M World DerivativeRoyalty :=
  gets (fun w => (derivativeRoyalties (storage w))⟦derivativeModelId⟧).

Definition getClaimableRoyalties (creator : address) : M World uint256 :=
  gets (fun w => (claimableRoyalties (storage w))⟦creator⟧).

Definition getRoyaltyHistory (creator : address) : M World (list RoyaltyPayment) :=
  gets (fun w => map (fun paymentId => (royaltyPayments (storage w))⟦paymentId⟧)
                     (creatorPayments (storage w))⟦creator⟧).

(** *** Admin functions *)

Definition deactivateDerivativeRoyalty (env : Env) (derivativeModelId : uint256)
  : M World unit :=
  onlyOwner env;;
  store "derivativeRoyalties" (fun s => set_derivativeRoyalties
    (<[derivativeModelId := set_active false (derivativeRoyalties s)⟦derivativeModelId⟧]>
       (derivativeRoyalties s)) s).

(** The loop of [getTotalRoyaltiesEarned], over the remaining payment ids. *)
Fixpoint getTotalRoyaltiesEarned_loop (payments : gmap N RoyaltyPayment)
    (paymentIds : list uint256) (total : uint256) : result uint256 :=
  match paymentIds with
  | [] => Ok total
  | paymentId :: rest =>
      match checked_add total (amount payments⟦paymentId⟧) with
      | Ok total' => getTotalRoyaltiesEarned_loop payments rest total'
      | Revert e => Revert e
      end
  end.

Definition getTotalRoyaltiesEarned (creator : address) : M World uint256 :=
  paymentIds ← gets (fun w => (creatorPayments (storage w))⟦creator⟧);
  payments ← gets (fun w => royaltyPayments (storage w));
  lift (getTotalRoyaltiesEarned_loop payments paymentIds 0).

(** *** The inherited [Ownable] *)

Definition set_owner (x : address) (s : Storage) : Storage :=
  mkStorage (_paymentIdCounter s) (derivativeRoyalties s) (claimableRoyalties s)
            (royaltyPayments s) (creatorPayments s) x.

Definition transferOwnership (env : Env) (newOwner : address) : M World unit :=
  onlyOwner env;;
  (if newOwner =? 0 then revert (Error "OwnableInvalidOwner") else mret tt);;
  store "_owner" (set_owner newOwner);;
  emit "OwnershipTransferred".

Definition renounceOwnership (env : Env) : M World unit :=
  onlyOwner env;;
  store "_owner" (set_owner 0);;
  emit "OwnershipTransferred".

(** *** The state-changing interface of the contract *)

Inductive Call :=
| SetDerivativeRoyalty (derivativeModelId originalModelId royaltyBps : uint256)
| PayDerivativeRoyalty (derivativeModelId salePrice : uint256)
| PayDirectRoyalty (creator : address) (message : string)
| ClaimRoyalties
| DeactivateDerivativeRoyalty (derivativeModelId : uint256)
| TransferOwnership (newOwner : address)
| RenounceOwnership.

Definition exec (env : Env) (c : Call) : M World unit :=
  match c with
  | SetDerivativeRoyalty derivativeModelId originalModelId royaltyBps =>
      setDerivativeRoyalty env derivativeModelId originalModelId royaltyBps
  | PayDerivativeRoyalty derivativeModelId salePrice =>
      payDerivativeRoyalty env derivativeModelId salePrice
  | PayDirectRoyalty creator message => payDirectRoyalty env creator message
  | ClaimRoyalties => claimRoyalties env
  | DeactivateDerivativeRoyalty derivativeModelId =>
      deactivateDerivativeRoyalty env derivativeModelId
  | TransferOwnership newOwner => transferOwnership env newOwner
  | RenounceOwnership => renounceOwnership env
  end.

(** One step of the world the royalty registry lives in: a transaction on
    it (a reverted one changes nothing), or anything that happens to the
    [ModelRegistry] in between. *)
Inductive Action :=
| Tx (env : Env) (c : Call)
| Others (registry' : ModelRegistry.Storage).

Definition step (a : Action) (w : World) : World :=
  match a with
  | Tx env c =>
      match exec env c w with
      | Ok (_, w', _) => w'
      | Revert _ => w
      end
  | Others registry' => set_registry registry' w
  end.

Definition run (actions : list Action) (w : World) : World :=
  fold_left (fun w a => step a w) actions w.

End DerivativeRoyaltyRegistry.

(** ** The spec's names for the failures of the ledger *)

Definition Unavailable : error := Error "ModelToken: Model not available".
Definition InsufficientPayment : error := Error "ModelToken: Insufficient payment".
Definition NothingToClaim : error := Error "DerivativeRoyalty: No royalties to claim".
Definition AlreadyBurned : error := Error "ModelToken: Already burned".
Definition TokenDoesNotExist : error := Error "ModelToken: Token does not exist".

(** ** Reading a trace *)

(** Checks-effects-interactions on a trace: no storage write after the
    first outward transfer. *)
Definition is_transfer (e : event) : bool :=
  match e with Transfer _ _ => true | _ => false end.

Definition is_sstore (e : event) : bool :=
  match e with SStore _ => true | _ => false end.

Fixpoint writes_before_transfers (t : list event) : bool :=
  match t with
  | [] => true
  | e :: rest =>
      if is_transfer e then forallb (fun e' => negb (is_sstore e')) rest
      else writes_before_transfers rest
  end.

(** The outward transfers of a trace, in order, and their total. *)
Fixpoint transfers (t : list event) : list (address * uint256) :=
  match t with
  | [] => []
  | Transfer to amount :: rest => (to, amount) :: transfers rest
  | _ :: rest => transfers rest
  end.

Definition total (l : list (address * uint256)) : uint256 :=
  fold_right (fun p acc => snd p + acc) 0 l.

(* ================================================================= *)
(** ** Concrete worlds used by the examples *)

(** Two registered models, 0 by creator 11 and its derivative 1 by 12; the
    royalty registry is deployed at 300 by the administrator 1. *)
Definition two_models (marketplace : address) : ModelRegistry.Storage :=
  ModelRegistry.set_marketplace marketplace
    (ModelRegistry.set_models
       {[ 0 := ModelRegistry.mkModel 11 1000 1000 "QmModel" "QmMeta" true true 0;
          1 := ModelRegistry.mkModel 12 2000 2000 "QmDeriv" "QmMeta1" true true 0 ]}
       (ModelRegistry.constructor 1)).

Definition royalty_world (marketplace : address) : DerivativeRoyaltyRegistry.World :=
  DerivativeRoyaltyRegistry.mkWorld (two_models marketplace)
    (DerivativeRoyaltyRegistry.constructor 1) 300 0 (fun _ => true).

(** The same world with the royalty of derivative 1 configured: 10% to the
    creator of model 0. *)
Definition royalty_world_configured : DerivativeRoyaltyRegistry.World :=
  DerivativeRoyaltyRegistry.set_storage
    (DerivativeRoyaltyRegistry.set_derivativeRoyalties
       {[ 1 := DerivativeRoyaltyRegistry.mkDerivativeRoyalty 0 11 1000 true ]}
       (DerivativeRoyaltyRegistry.constructor 1))
    (royalty_world 300).

(** The scenario of the spec: model 0 registered by creator C1 (at 11),
    Commercial price 300 for ONE_YEAR, royalty 1000 bps to R (at 12), for
    sale.  The token contract is deployed at 100. *)
Definition ONE_YEAR : uint256 := 31536000.

Definition scenario_registry : ModelRegistry.Storage :=
  ModelRegistry.set_models
    {[ 0 := ModelRegistry.mkModel 11 1000 1000 "QmModel" "QmMeta" true true 0 ]}
    (ModelRegistry.set_modelIdCounter 1 (ModelRegistry.constructor 1)).

Definition scenario_marketplace : ModelMarketplace.Storage :=
  ModelMarketplace.set_forSale {[ 0 := true ]}
    (ModelMarketplace.set_royalties {[ 0 := ModelMarketplace.mkRoyaltyInfo 12 1000 ]}
       (ModelMarketplace.set_licenseConfigs
          {[ 0 := ModelMarketplace.mkLicenseConfig 0 0 300 0 0 0 ONE_YEAR 0 ]}
          (ModelMarketplace.constructor 1))).

(** The token contract as deployed: no license record yet. *)
Definition token_world_fresh : ModelToken.World :=
  ModelToken.mkWorld scenario_registry scenario_marketplace
    (ModelToken.constructor 1) 100 0 (fun _ => true).

(** A storage in which license record 0 is live (owned by 14, expiring at
    40000000, bought for the Commercial tier of model 0) and the next record id is 1. *)
Definition token_world_live : ModelToken.World :=
  ModelToken.set_storage
    (ModelToken.set_tokenIdCounter 1
       (ModelToken.set_owners {[ 0 := 14 ]}
          (ModelToken.set_balances {[ 14 := 1 ]}
             (ModelToken.set_userTokens {[ 14 := [0] ]}
                (ModelToken.set_purchaseSnapshots
                   {[ 0 := ModelToken.mkPurchaseSnapshot 0 2000 300
                             (ModelToken.mkLicenseSnapshot "commercial" 2000 40000000 ONE_YEAR)
                             [] "QmMeta" 0 false "" ]}
                   (ModelToken.constructor 1))))))
    token_world_fresh.

(** A stand-in for the hash function in the examples. *)
Definition const_hash (_ : list N) : uint256 := 7.

(* ================================================================= *)
(** ** The effects of a purchase, written out *)

Section PurchaseEffects.
Import ModelToken.

(** The world in which [purchaseModel] pays out: every write of the
    purchase is done and [msg.value] is part of the balance. *)
Definition purchase_effects (env : Env) (id : uint256) (lt : string)
    (vids : list uint256) (totalPrice royaltyBps duration expiresAt : uint256)
    (w : World) : World :=
  let tokenId := _tokenIdCounter (storage w) in
  let model := (ModelRegistry.models (registry w))⟦id⟧ in
  mkWorld (registry w)
    (ModelMarketplace.set_soldCounts
       (<[id := (ModelMarketplace.soldCounts (marketplace w))⟦id⟧ + 1]>
          (ModelMarketplace.soldCounts (marketplace w))) (marketplace w))
    (mkStorage
       (increment tokenId)
       (<[tokenId := mkPurchaseSnapshot id (block_timestamp env) totalPrice
                       (mkLicenseSnapshot lt (block_timestamp env) expiresAt duration)
                       vids (ModelRegistry.metadataIPFS model) royaltyBps false ""]>
          (purchaseSnapshots (storage w)))
       (<[id := (modelPurchaseCount (storage w))⟦id⟧ + 1]> (modelPurchaseCount (storage w)))
       (<[msg_sender env := (userTokens (storage w))⟦msg_sender env⟧ ++ [tokenId]]>
          (userTokens (storage w)))
       (<[tokenId := msg_sender env]> (_owners (storage w)))
       (<[msg_sender env := ((_balances (storage w))⟦msg_sender env⟧ + 1) mod 2 ^ 256]>
          (_balances (storage w)))
       (_tokenApprovals (storage w))
       (_operatorApprovals (storage w))
       (<[tokenId := ModelRegistry.metadataIPFS model]> (_tokenURIs (storage w)))
       (_owner (storage w)))
    (this w) (balance w + msg_value env) (receives w).

Definition purchase_writes : list event :=
  [SStore "_tokenIdCounter"; SStore "purchaseSnapshots"; SStore "_balances";
   SStore "_owners"; Emit "Transfer"; SStore "_tokenURIs"; Emit "MetadataUpdate";
   SStore "userTokens"; SStore "modelPurchaseCount"; SStore "soldCounts"].

(** Whether the marketplace lets the model be bought. *)
Definition available (w : World) (id : uint256) : bool :=
  let m := (ModelRegistry.models (registry w))⟦id⟧ in
  let maxSupply := (ModelMarketplace.maxSupplies (marketplace w))⟦id⟧ in
  let sold := (ModelMarketplace.soldCounts (marketplace w))⟦id⟧ in
  (ModelRegistry.exists_ m && ModelRegistry.active m)
  && (ModelMarketplace.forSale (marketplace w))⟦id⟧
  && negb ((0 <? maxSupply) && (maxSupply <=? sold)).

End PurchaseEffects.

(** The scenario with another Commercial price. *)
Definition token_world_priced (price : uint256) : ModelToken.World :=
  ModelToken.set_marketplace
    (ModelMarketplace.set_licenseConfigs
       {[ 0 := ModelMarketplace.mkLicenseConfig 0 0 price 0 0 0 ONE_YEAR 0 ]}
       scenario_marketplace)
    token_world_live.

(* ================================================================= *)
(** ** A retired license record *)

(** The record has been burned: its flag is set, it has no owner and no
    approved spender.  The last two conjuncts hold in every storage the
    contract itself produces: the id was issued (it is below the counter)
    and the null address has approved no operator. *)
Definition retired (tokenId : uint256) (w : ModelToken.World) : Prop :=
  ModelToken.burned (ModelToken.purchaseSnapshots (ModelToken.storage w))⟦tokenId⟧ = true /\
  (ModelToken._owners (ModelToken.storage w))⟦tokenId⟧ = 0 /\
  (ModelToken._tokenApprovals (ModelToken.storage w))⟦tokenId⟧ = 0 /\
  tokenId < ModelToken._tokenIdCounter (ModelToken.storage w) /\
  forall operator, (ModelToken._operatorApprovals (ModelToken.storage w))⟦(0, operator)⟧ = false.

(** The download key of a record. *)
Definition key_of (tokenId : uint256) (w : ModelToken.World) : string :=
  ModelToken.downloadKey (ModelToken.purchaseSnapshots (ModelToken.storage w))⟦tokenId⟧.

Section AdminRekeys.
Variable keccak256 : list N -> uint256.

(** Whether the action is a [setDownloadKey] on the record sent by the
    owner of the contract (the administrator) in world [w]. *)
Definition is_admin_rekey (tokenId : uint256) (a : ModelToken.Action)
    (w : ModelToken.World) : bool :=
  ModelToken.is_setDownloadKey tokenId a
  && match a with
     | ModelToken.Tx env _ => ModelToken._owner (ModelToken.storage w) =? msg_sender env
     | ModelToken.Others _ _ => false
     end.

(** Whether the administrator re-keys the record somewhere along the run. *)
Fixpoint admin_rekeys (tokenId : uint256) (actions : list ModelToken.Action)
    (w : ModelToken.World) : bool :=
  match actions with
  | [] => false
  | a :: rest =>
      is_admin_rekey tokenId a w
      || admin_rekeys tokenId rest (ModelToken.step keccak256 a w)
  end.

End AdminRekeys.
(* ================================================================= *)
(** ** Reading the results of the view functions and the ledgers *)

(** The number a string of decimal digits denotes, most significant digit
    first. *)
Fixpoint decimal_value (s : string) : N :=
  match s with
  | EmptyString => 0
  | String c rest =>
      (Ascii.N_of_ascii c - 48) * 10 ^ N.of_nat (String.length rest) + decimal_value rest
  end.

(** Whether every character of the string is one of ['0'] .. ['9']. *)
Fixpoint all_digits (s : string) : bool :=
  match s with
  | EmptyString => true
  | String c rest =>
      (48 <=? Ascii.N_of_ascii c) && (Ascii.N_of_ascii c <=? 57) && all_digits rest
  end.

(** The sum of a list of amounts. *)
Definition sum_list (l : list N) : N := fold_right N.add 0 l.

(** The payments recorded for a creator, oldest first: what
    [getRoyaltyHistory] returns. *)
Definition history (creator : address) (w : DerivativeRoyaltyRegistry.World)
  : list DerivativeRoyaltyRegistry.RoyaltyPayment :=
  map (fun paymentId =>
         (DerivativeRoyaltyRegistry.royaltyPayments
            (DerivativeRoyaltyRegistry.storage w))⟦paymentId⟧)
      (DerivativeRoyaltyRegistry.creatorPayments
         (DerivativeRoyaltyRegistry.storage w))⟦creator⟧.

(** Their amounts. *)
Definition earned_amounts (creator : address) (w : DerivativeRoyaltyRegistry.World)
  : list N :=
  map DerivativeRoyaltyRegistry.amount (history creator w).

(** Every payment id listed for a creator has been issued: it is below the
    payment counter. *)
Definition payment_ids_issued (w : DerivativeRoyaltyRegistry.World) : Prop :=
  forall creator paymentId,
    paymentId ∈ (DerivativeRoyaltyRegistry.creatorPayments
                   (DerivativeRoyaltyRegistry.storage w))⟦creator⟧ ->
    paymentId < DerivativeRoyaltyRegistry._paymentIdCounter
                  (DerivativeRoyaltyRegistry.storage w).

(** The sum of the values of a mapping. *)
Definition map_sum (m : gmap N N) : N := map_fold (fun _ v acc => v + acc) 0 m.

(** Everything the royalty registry owes: the sum of all claimable balances. *)
Definition total_claimable (w : DerivativeRoyaltyRegistry.World) : N :=
  map_sum (DerivativeRoyaltyRegistry.claimableRoyalties (DerivativeRoyaltyRegistry.storage w)).

(** The registry's ids are dense: the models that exist are those below the
    counter. *)
Definition dense (s : ModelRegistry.Storage) : Prop :=
  forall id, ModelRegistry.exists_ (ModelRegistry.models s)⟦id⟧ = true
             <-> id < ModelRegistry._modelIdCounter s.

(** The fields of a model that no function rewrites. *)
Definition same_core (m' m : ModelRegistry.Model) : Prop :=
  ModelRegistry.creator m' = ModelRegistry.creator m /\
  ModelRegistry.createdAt m' = ModelRegistry.createdAt m /\
  ModelRegistry.modelIPFS m' = ModelRegistry.modelIPFS m /\
  ModelRegistry.exists_ m' = ModelRegistry.exists_ m.

(** The per-creator index is exact: the list of a creator holds, without
    repetition, the ids of the registered models that creator registered. *)
Definition indexed_by_creator (s : ModelRegistry.Storage) : Prop :=
  forall a,
    NoDup (ModelRegistry.creatorModels s)⟦a⟧ /\
    forall id, id ∈ (ModelRegistry.creatorModels s)⟦a⟧
               <-> ModelRegistry.exists_ (ModelRegistry.models s)⟦id⟧ = true /\
                   ModelRegistry.creator (ModelRegistry.models s)⟦id⟧ = a.

(** The token contract has issued nothing: no token has an owner or an
    approved spender, the null address has approved no operator, no record
    is burned and the record counter is where the constructor left it. *)
Definition nothing_issued (w : ModelToken.World) : Prop :=
  (forall tokenId, (ModelToken._owners (ModelToken.storage w))⟦tokenId⟧ = 0) /\
  (forall tokenId, (ModelToken._tokenApprovals (ModelToken.storage w))⟦tokenId⟧ = 0) /\
  (forall operator,
     (ModelToken._operatorApprovals (ModelToken.storage w))⟦(0, operator)⟧ = false) /\
  ModelToken.purchaseSnapshots (ModelToken.storage w) = ∅ /\
  ModelToken.userTokens (ModelToken.storage w) = ∅ /\
  ModelToken._tokenIdCounter (ModelToken.storage w) = 0.

(** No royalty rate is above the cap. *)
Definition royalties_capped (s : ModelMarketplace.Storage) : Prop :=
  forall id,
    ModelMarketplace.bps (ModelMarketplace.royalties s)⟦id⟧ <= ModelMarketplace.MAX_ROYALTY_BPS.

(** Every variation of [s] is still there in [s'], at the same index and
    with the same name, price and metadata. *)
Definition variations_kept (s s' : ModelMarketplace.Storage) : Prop :=
  forall id i v,
    (ModelMarketplace.variations s)⟦id⟧ !! i = Some v ->
    exists v',
      (ModelMarketplace.variations s')⟦id⟧ !! i = Some v' /\
      ModelMarketplace.name v' = ModelMarketplace.name v /\
      ModelMarketplace.price v' = ModelMarketplace.price v /\
      ModelMarketplace.metadataIPFS v' = ModelMarketplace.metadataIPFS v.

(** The sum of the prices of the selected variations (an id out of range
    counts for nothing). *)
Definition variation_prices (vs : list ModelMarketplace.Variation) (ids : list uint256)
  : N :=
  sum_list (map (fun id => match vs !! N.to_nat id with
                           | Some v => ModelMarketplace.price v
                           | None => 0
                           end) ids).

(** Whether every selected variation exists and is active. *)
Definition selectable (vs : list ModelMarketplace.Variation) (ids : list uint256) : bool :=
  forallb (fun id => match vs !! N.to_nat id with
                     | Some v => ModelMarketplace.active v
                     | None => false
                     end) ids.

(* ================================================================= *)
(** * Reasoning about the monad *)

Section MonadLemmas.
Context {S : Type}.

Lemma bind_ok_inv {A B} (m : M S A) (k : A -> M S B) s b s2 t :
  (m ≫= k) s = Ok (b, s2, t) ->
  exists a s1 t1 t2, m s = Ok (a, s1, t1) /\ k a s1 = Ok (b, s2, t2) /\ t = t1 ++ t2.
Proof.
  unfold mbind, M_bind, bind.
  destruct (m s) as [[[a s1] t1]|e]; [|discriminate].
  destruct (k a s1) as [[[b' s2'] t2]|e] eqn:Hk; [|discriminate].
  intros [= -> -> <-]. eauto 10.
Qed.

Lemma bind_revert_inv {A B} (m : M S A) (k : A -> M S B) s e :
  (m ≫= k) s = Revert e ->
  m s = Revert e \/ exists a s1 t1, m s = Ok (a, s1, t1) /\ k a s1 = Revert e.
Proof.
  unfold mbind, M_bind, bind.
  destruct (m s) as [[[a s1] t1]|e']; [|intros [= ->]; by left].
  destruct (k a s1) as [[[b' s2'] t2]|e''] eqn:Hk; [discriminate|].
  intros [= ->]. right. eauto.
Qed.

Lemma bind_ok {A B} (m : M S A) (k : A -> M S B) s a s1 t1 :
  m s = Ok (a, s1, t1) ->
  (m ≫= k) s = match k a s1 with
               | Ok (b, s2, t2) => Ok (b, s2, t1 ++ t2)
               | Revert e => Revert e
               end.
Proof. unfold mbind, M_bind, bind. by intros ->. Qed.

Lemma bind_revert {A B} (m : M S A) (k : A -> M S B) s e :
  m s = Revert e -> (m ≫= k) s = Revert e.
Proof. unfold mbind, M_bind, bind. by intros ->. Qed.

Lemma require_ok_inv (b : bool) reason (s s' : S) u t :
  require b reason s = Ok (u, s', t) -> b = true /\ s' = s /\ t = [].
Proof. destruct b; cbn; [intros [= _ <- <-]; done | discriminate]. Qed.

Lemma require_revert_inv (b : bool) reason (s : S) e :
  require b reason s = Revert e -> b = false /\ e = Error reason.
Proof. destruct b; cbn; [discriminate | intros [= <-]; done]. Qed.

Lemma gets_ok_inv {A} (f : S -> A) (s s' : S) a t :
  gets f s = Ok (a, s', t) -> a = f s /\ s' = s /\ t = [].
Proof. unfold gets. by intros [= <- <- <-]. Qed.

Lemma sstore_ok_inv slot (f : S -> S) (s s' : S) u t :
  sstore slot f s = Ok (u, s', t) -> s' = f s /\ t = [SStore slot].
Proof. unfold sstore. by intros [= _ <- <-]. Qed.

Lemma emit_ok_inv name (s s' : S) u t :
  emit name s = Ok (u, s', t) -> s' = s /\ t = [Emit name].
Proof. unfold emit. by intros [= _ <- <-]. Qed.

Lemma mret_ok_inv {A} (x a : A) (s s' : S) t :
  mret (M := M S) x s = Ok (a, s', t) -> a = x /\ s' = s /\ t = [].
Proof. unfold mret, M_ret, ret. by intros [= <- <- <-]. Qed.

Lemma lift_ok_inv {A} (r : result A) (s s' : S) a t :
  lift r s = Ok (a, s', t) -> r = Ok a /\ s' = s /\ t = [].
Proof. unfold lift. destruct r; [by intros [= <- <- <-] | discriminate]. Qed.

Lemma view_ok_inv {S' A} (s0 : S') (m : M S' A) (s s' : S) a t :
  view s0 m s = Ok (a, s', t) ->
  (exists s0' t0, m s0 = Ok (a, s0', t0)) /\ s' = s /\ t = [].
Proof.
  unfold view. destruct (m s0) as [[[a' s0'] t0]|]; [|discriminate].
  intros [= <- <- <-]. eauto.
Qed.

End MonadLemmas.

Lemma checked_add_ok a b c : checked_add a b = Ok c -> c = a + b /\ a + b <= MAX_UINT256.
Proof.
  unfold checked_add. case_match eqn:Hle; [|discriminate].
  apply N.leb_le in Hle. by intros [= <-].
Qed.

Lemma checked_sub_ok a b c : checked_sub a b = Ok c -> c = a - b /\ b <= a.
Proof.
  unfold checked_sub. case_match eqn:Hle; [|discriminate].
  apply N.leb_le in Hle. by intros [= <-].
Qed.

Lemma checked_mul_ok a b c : checked_mul a b = Ok c -> c = a * b /\ a * b <= MAX_UINT256.
Proof.
  unfold checked_mul. case_match eqn:Hle; [|discriminate].
  apply N.leb_le in Hle. by intros [= <-].
Qed.

Lemma mapping_get_insert `{Countable K} {V} `{Zero V} (m : gmap K V) k v :
  (<[k := v]> m)⟦k⟧ = v.
Proof. unfold mapping_get. by rewrite lookup_insert_eq. Qed.

Lemma mapping_get_insert_ne `{Countable K} {V} `{Zero V} (m : gmap K V) k k' v :
  k ≠ k' -> (<[k := v]> m)⟦k'⟧ = m⟦k'⟧.
Proof. intros. unfold mapping_get. by rewrite lookup_insert_ne. Qed.

(** Inversion of a successful run, one primitive at a time. *)
Ltac minv1 :=
  match goal with
  | H : (_ ≫= _) _ = Ok _ |- _ =>
      apply bind_ok_inv in H; destruct H as (? & ? & ? & ? & ? & H & ->)
  | H : require _ _ _ = Ok _ |- _ =>
      apply require_ok_inv in H; destruct H as (H & -> & ->)
  | H : gets _ _ = Ok _ |- _ =>
      apply gets_ok_inv in H; destruct H as (-> & -> & ->)
  | H : sstore _ _ _ = Ok _ |- _ =>
      apply sstore_ok_inv in H; destruct H as (-> & ->)
  | H : emit _ _ = Ok _ |- _ =>
      apply emit_ok_inv in H; destruct H as (-> & ->)
  | H : mret _ _ = Ok _ |- _ =>
      apply mret_ok_inv in H; destruct H as (H & -> & ->);
      first [subst | clear H]
  | H : lift _ _ = Ok _ |- _ =>
      apply lift_ok_inv in H; destruct H as (H & -> & ->)
  | H : view _ _ _ = Ok _ |- _ =>
      apply view_ok_inv in H; destruct H as ((? & ? & H) & -> & ->)
  end.
Ltac minv := repeat minv1.

(* ================================================================= *)
(** * ModelRegistry: what the creator calls change *)

Section RegistryFrame.
Import ModelRegistry.

Lemma updateMetadata_eq env id meta s :
  updateMetadata env id meta s =
    let m := (models s)⟦id⟧ in
    if exists_ m then
      if creator m =? msg_sender env then
        if nonempty meta then
          Ok (tt,
              set_models (<[id := set_updatedAt (block_timestamp env)
                                    (set_metadataIPFS meta m)]> (models s)) s,
              [SStore "models"; SStore "models"; Emit "ModelUpdated"])
        else Revert (Error "ModelRegistry: Metadata IPFS required")
      else Revert (Error "ModelRegistry: Not model creator")
    else Revert (Error "ModelRegistry: Model does not exist").
Proof.
  unfold updateMetadata, modelExists, onlyCreator, mbind, M_bind, bind, gets,
    require, sstore, emit, ret, revert; cbn.
  destruct (exists_ _); [|done].
  destruct (_ =? _); [|done]; cbn.
  destruct (nonempty meta); [|done]; cbn.
  rewrite mapping_get_insert.
  unfold set_models; cbn. by rewrite insert_insert_eq.
Qed.

Lemma toggleModelActive_eq env id s :
  toggleModelActive env id s =
    let m := (models s)⟦id⟧ in
    if exists_ m then
      if creator m =? msg_sender env then
        Ok (tt, set_models (<[id := set_active (negb (active m)) m]> (models s)) s,
            [SStore "models"; Emit "ModelStatusChanged"])
      else Revert (Error "ModelRegistry: Not model creator")
    else Revert (Error "ModelRegistry: Model does not exist").
Proof.
  unfold toggleModelActive, modelExists, onlyCreator, mbind, M_bind, bind, gets,
    require, sstore, emit, ret, revert; cbn.
  destruct (exists_ _); [|done].
  by destruct (_ =? _).
Qed.

(** One creator transaction keeps the immutable core of every model. *)
Lemma step_core tx s id :
  let m := (models s)⟦id⟧ in
  let m' := (models (step tx s))⟦id⟧ in
  creator m' = creator m /\ createdAt m' = createdAt m /\
  modelIPFS m' = modelIPFS m /\ exists_ m' = exists_ m.
Proof.
  destruct tx as [env [id' meta|id']]; unfold step; cbn.
  - rewrite updateMetadata_eq; cbn.
    repeat case_match; simplify_eq; try done; cbn.
    destruct (decide (id' = id)) as [->|Hne].
    + by rewrite mapping_get_insert.
    + by rewrite mapping_get_insert_ne.
  - rewrite toggleModelActive_eq; cbn.
    repeat case_match; simplify_eq; try done; cbn.
    destruct (decide (id' = id)) as [->|Hne].
    + by rewrite mapping_get_insert.
    + by rewrite mapping_get_insert_ne.
Qed.

Lemma run_core txs : forall s id,
  let m := (models s)⟦id⟧ in
  let m' := (models (run txs s))⟦id⟧ in
  creator m' = creator m /\ createdAt m' = createdAt m /\
  modelIPFS m' = modelIPFS m /\ exists_ m' = exists_ m.
Proof.
  induction txs as [|tx txs IH]; intros s id; [done|].
  change (run (tx :: txs) s) with (run txs (step tx s)).
  destruct (IH (step tx s) id) as (H1 & H2 & H3 & H4).
  destruct (step_core tx s id) as (G1 & G2 & G3 & G4).
  cbv zeta. by rewrite H1, H2, H3, H4.
Qed.

End RegistryFrame.

(** C7.  [updateMetadata] changes, of the whole registry, only the metadata
    reference and the last-update timestamp of the one model;
    [toggleModelActive] changes only its active flag; and the creator and
    the creation timestamp of every model are the same after any sequence of
    [updateMetadata] and [toggleModelActive] transactions by any callers. *)
Theorem creator_and_createdAt_invariant :
  (forall env id meta s,
     ModelRegistry.updateMetadata env id meta s =
       let m := (ModelRegistry.models s)⟦id⟧ in
       if ModelRegistry.exists_ m then
         if ModelRegistry.creator m =? msg_sender env then
           if nonempty meta then
             Ok (tt,
                 ModelRegistry.set_models
                   (<[id := {| ModelRegistry.creator := ModelRegistry.creator m;
                               ModelRegistry.createdAt := ModelRegistry.createdAt m;
                               ModelRegistry.updatedAt := block_timestamp env;
                               ModelRegistry.modelIPFS := ModelRegistry.modelIPFS m;
                               ModelRegistry.metadataIPFS := meta;
                               ModelRegistry.exists_ := ModelRegistry.exists_ m;
                               ModelRegistry.active := ModelRegistry.active m;
                               ModelRegistry.derivativeCount :=
                                 ModelRegistry.derivativeCount m |}]>
                      (ModelRegistry.models s)) s,
                 [SStore "models"; SStore "models"; Emit "ModelUpdated"])
           else Revert (Error "ModelRegistry: Metadata IPFS required")
         else Revert (Error "ModelRegistry: Not model creator")
       else Revert (Error "ModelRegistry: Model does not exist")) /\
  (forall env id s,
     ModelRegistry.toggleModelActive env id s =
       let m := (ModelRegistry.models s)⟦id⟧ in
       if ModelRegistry.exists_ m then
         if ModelRegistry.creator m =? msg_sender env then
           Ok (tt,
               ModelRegistry.set_models
                 (<[id := {| ModelRegistry.creator := ModelRegistry.creator m;
                             ModelRegistry.createdAt := ModelRegistry.createdAt m;
                             ModelRegistry.updatedAt := ModelRegistry.updatedAt m;
                             ModelRegistry.modelIPFS := ModelRegistry.modelIPFS m;
                             ModelRegistry.metadataIPFS := ModelRegistry.metadataIPFS m;
                             ModelRegistry.exists_ := ModelRegistry.exists_ m;
                             ModelRegistry.active := negb (ModelRegistry.active m);
                             ModelRegistry.derivativeCount :=
                               ModelRegistry.derivativeCount m |}]>
                    (ModelRegistry.models s)) s,
               [SStore "models"; Emit "ModelStatusChanged"])
         else Revert (Error "ModelRegistry: Not model creator")
       else Revert (Error "ModelRegistry: Model does not exist")) /\
  (forall txs s id,
     ModelRegistry.creator (ModelRegistry.models (ModelRegistry.run txs s))⟦id⟧
       = ModelRegistry.creator (ModelRegistry.models s)⟦id⟧ /\
     ModelRegistry.createdAt (ModelRegistry.models (ModelRegistry.run txs s))⟦id⟧
       = ModelRegistry.createdAt (ModelRegistry.models s)⟦id⟧).
Proof.
  split; [|split].
  - intros. by rewrite updateMetadata_eq.
  - intros. by rewrite toggleModelActive_eq.
  - intros txs s id. destruct (run_core txs s id) as (? & ? & _). done.
Qed.

(** The sequence of the claim on a registered model: the creator updates
    the metadata and toggles the model, a stranger tries both. *)
Example creator_and_createdAt_run :
  let s0 := ModelRegistry.constructor 1 in
  let s1 := match ModelRegistry.registerModel (mkEnv 11 0 1000) "QmModel" "QmMeta" s0 with
            | Ok (_, s, _) => s | Revert _ => s0 end in
  let s2 := ModelRegistry.run
              [(mkEnv 11 0 2000, ModelRegistry.UpdateMetadata 0 "QmMeta2");
               (mkEnv 66 0 2500, ModelRegistry.UpdateMetadata 0 "QmEvil");
               (mkEnv 11 0 3000, ModelRegistry.ToggleModelActive 0);
               (mkEnv 66 0 3500, ModelRegistry.ToggleModelActive 0)] s1 in
  (ModelRegistry.models s1)⟦0⟧
    = ModelRegistry.mkModel 11 1000 1000 "QmModel" "QmMeta" true true 0 /\
  (ModelRegistry.models s2)⟦0⟧
    = ModelRegistry.mkModel 11 1000 2000 "QmModel" "QmMeta2" true false 0.
Proof. vm_compute. done. Qed.

(* ================================================================= *)
(** * ModelMarketplace: the sold counter *)

Lemma incrementSoldCount_eq env id s :
  ModelMarketplace.incrementSoldCount env id s =
    let sold := (ModelMarketplace.soldCounts s)⟦id⟧ in
    if sold + 1 <=? MAX_UINT256 then
      Ok (tt,
          ModelMarketplace.set_soldCounts
            (<[id := sold + 1]> (ModelMarketplace.soldCounts s)) s,
          [SStore "soldCounts"])
    else Revert Panic.
Proof.
  unfold ModelMarketplace.incrementSoldCount, mbind, M_bind, bind, gets, lift,
    checked_add, sstore; cbn.
  by destruct (_ <=? _).
Qed.

(** C4 (the code departs from the claim).  [incrementSoldCount] does not
    look at its caller: for every [msg.sender] it increments the sold count
    (short of the overflow of a full [uint256]).  Below, the token contract
    is at address 100 and the stranger at 66 raises the count of model 0
    from 0 to 1, which closes the sale of a model capped at one copy. *)
Theorem incrementSoldCount_any_caller :
  (forall env id s,
     ModelMarketplace.incrementSoldCount env id s =
       let sold := (ModelMarketplace.soldCounts s)⟦id⟧ in
       if sold + 1 <=? MAX_UINT256 then
         Ok (tt,
             ModelMarketplace.set_soldCounts
               (<[id := sold + 1]> (ModelMarketplace.soldCounts s)) s,
             [SStore "soldCounts"])
       else Revert Panic) /\
  (let registry :=
     ModelRegistry.set_models
       {[ 0 := ModelRegistry.mkModel 11 1000 1000 "QmModel" "QmMeta" true true 0 ]}
       (ModelRegistry.constructor 1) in
   let s :=
     ModelMarketplace.set_forSale {[ 0 := true ]}
       (ModelMarketplace.set_maxSupplies {[ 0 := 1 ]} (ModelMarketplace.constructor 1)) in
   let stranger := mkEnv 66 0 5000 in
   exists s',
     ModelMarketplace.incrementSoldCount stranger 0 s = Ok (tt, s', [SStore "soldCounts"]) /\
     (ModelMarketplace.soldCounts s)⟦0⟧ = 0 /\
     (ModelMarketplace.soldCounts s')⟦0⟧ = 1 /\
     ModelMarketplace.canPurchase registry 0 s = Ok (true, s, []) /\
     ModelMarketplace.canPurchase registry 0 s' = Ok (false, s', [])).
Proof.
  split; [apply incrementSoldCount_eq|].
  eexists. split; [vm_compute; reflexivity|]. by vm_compute.
Qed.

(* ================================================================= *)
(** * DerivativeRoyaltyRegistry: tips and claims *)

Section RoyaltyLedger.
Import DerivativeRoyaltyRegistry.

Lemma claimRoyalties_eq env w :
  claimRoyalties env w =
    let amount := (claimableRoyalties (storage w))⟦msg_sender env⟧ in
    if amount =? 0 then Revert NothingToClaim
    else if (amount <=? balance w) && receives w (msg_sender env) then
      Ok (tt,
          set_balance (balance w - amount)
            (set_storage (set_claimableRoyalties
               (<[msg_sender env := 0]> (claimableRoyalties (storage w))) (storage w)) w),
          [SStore "claimableRoyalties"; Transfer (msg_sender env) amount;
           Emit "RoyaltiesClaimed"])
    else Revert TransferFailed.
Proof.
  unfold claimRoyalties, store, transfer, mbind, M_bind, bind, gets, require,
    sstore, emit, ret, revert, NothingToClaim; cbn.
  destruct (N.eqb_spec ((claimableRoyalties (storage w))⟦msg_sender env⟧) 0) as [->|Hne];
    [done|].
  assert ((0 <? (claimableRoyalties (storage w))⟦msg_sender env⟧) = true) as ->
    by (apply N.ltb_lt; lia).
  cbn. by destruct (_ && _).
Qed.

Lemma payDirectRoyalty_eq env creator message w :
  payDirectRoyalty env creator message w =
    let c := (claimableRoyalties (storage w))⟦creator⟧ in
    let paymentId := _paymentIdCounter (storage w) in
    if creator =? 0 then Revert (Error "DerivativeRoyalty: Invalid creator address")
    else if msg_value env =? 0 then Revert (Error "DerivativeRoyalty: Payment required")
    else if creator =? msg_sender env
         then Revert (Error "DerivativeRoyalty: Cannot pay yourself")
    else if c + msg_value env <=? MAX_UINT256 then
      Ok (tt,
          set_storage
            (mkStorage (increment paymentId)
               (derivativeRoyalties (storage w))
               (<[creator := c + msg_value env]> (claimableRoyalties (storage w)))
               (<[paymentId := mkRoyaltyPayment (msg_sender env) creator (msg_value env) 0
                                 "direct" message (block_timestamp env)]>
                  (royaltyPayments (storage w)))
               (<[creator := (creatorPayments (storage w))⟦creator⟧ ++ [paymentId]]>
                  (creatorPayments (storage w)))
               (_owner (storage w)))
            (set_balance (balance w + msg_value env) w),
          [SStore "claimableRoyalties"; SStore "_paymentIdCounter";
           SStore "royaltyPayments"; SStore "creatorPayments"; Emit "DirectRoyaltyPaid"])
    else Revert Panic.
Proof.
  unfold payDirectRoyalty, payable, store, mbind, M_bind, bind, gets, require,
    sstore, emit, ret, revert, lift, checked_add; cbn.
  destruct (creator =? 0); [done|]; cbn.
  destruct (N.eqb_spec (msg_value env) 0) as [->|Hne]; [done|].
  assert ((0 <? msg_value env) = true) as -> by (apply N.ltb_lt; lia). cbn.
  destruct (creator =? msg_sender env); [done|]; cbn.
  by destruct (_ <=? _).
Qed.


(** A tip followed by two claims, on any world. *)
Lemma tip_then_claim payer creator message X now now' now'' w :
  creator <> 0 -> creator <> payer -> 0 < X -> X <= MAX_UINT256 ->
  (claimableRoyalties (storage w))⟦creator⟧ = 0 ->
  receives w creator = true ->
  exists w1 t1 w2,
    payDirectRoyalty (mkEnv payer X now) creator message w = Ok (tt, w1, t1) /\
    (claimableRoyalties (storage w1))⟦creator⟧ = X /\
    claimRoyalties (mkEnv creator 0 now') w1
      = Ok (tt, w2, [SStore "claimableRoyalties"; Transfer creator X;
                     Emit "RoyaltiesClaimed"]) /\
    (claimableRoyalties (storage w2))⟦creator⟧ = 0 /\
    balance w2 = balance w /\
    claimRoyalties (mkEnv creator 0 now'') w2 = Revert NothingToClaim.
Proof.
  intros Hc Hp HX Hmax Hzero Hrecv.
  eexists _, _, _. split; [|split; [|split; [|split; [|split]]]].
  - rewrite payDirectRoyalty_eq; cbv zeta; cbn [msg_sender msg_value block_timestamp].
    rewrite (proj2 (N.eqb_neq creator 0) Hc), (proj2 (N.eqb_neq creator payer) Hp).
    rewrite (proj2 (N.eqb_neq X 0)) by lia.
    rewrite Hzero, N.add_0_l, (proj2 (N.leb_le X MAX_UINT256) Hmax). reflexivity.
  - cbn. by rewrite mapping_get_insert.
  - rewrite claimRoyalties_eq; cbv zeta; cbn [msg_sender msg_value block_timestamp].
    cbn [storage set_storage set_balance balance receives claimableRoyalties].
    rewrite mapping_get_insert, Hrecv.
    rewrite (proj2 (N.eqb_neq X 0)) by lia.
    rewrite (proj2 (N.leb_le X (balance w + X))) by lia. reflexivity.
  - cbn. by rewrite mapping_get_insert.
  - cbn. lia.
  - rewrite claimRoyalties_eq; cbv zeta; cbn [msg_sender msg_value block_timestamp].
    cbn [storage set_storage set_balance set_claimableRoyalties claimableRoyalties].
    by rewrite mapping_get_insert.
Qed.

End RoyaltyLedger.

(** C6.  [claimRoyalties] fails with [NothingToClaim] when the caller's
    claimable balance is zero; otherwise it first writes zero to the
    caller's balance and then transfers the whole previous balance (the
    call aborts as a whole when the transfer does not go through).  After
    a tip of [X] to a creator with no prior balance, the creator's claim
    transfers exactly [X] and leaves balance 0, and a repeated claim fails
    with [NothingToClaim]. *)
Theorem claimRoyalties_zeroes_then_transfers :
  (forall env w,
     DerivativeRoyaltyRegistry.claimRoyalties env w =
       let amount := (DerivativeRoyaltyRegistry.claimableRoyalties
                        (DerivativeRoyaltyRegistry.storage w))⟦msg_sender env⟧ in
       if amount =? 0 then Revert NothingToClaim
       else if (amount <=? DerivativeRoyaltyRegistry.balance w)
               && DerivativeRoyaltyRegistry.receives w (msg_sender env) then
         Ok (tt,
             DerivativeRoyaltyRegistry.set_balance
               (DerivativeRoyaltyRegistry.balance w - amount)
               (DerivativeRoyaltyRegistry.set_storage
                  (DerivativeRoyaltyRegistry.set_claimableRoyalties
                     (<[msg_sender env := 0]>
                        (DerivativeRoyaltyRegistry.claimableRoyalties
                           (DerivativeRoyaltyRegistry.storage w)))
                     (DerivativeRoyaltyRegistry.storage w)) w),
             [SStore "claimableRoyalties"; Transfer (msg_sender env) amount;
              Emit "RoyaltiesClaimed"])
       else Revert TransferFailed) /\
  (forall payer creator message X now now' now'' w,
     creator <> 0 -> creator <> payer -> 0 < X -> X <= MAX_UINT256 ->
     (DerivativeRoyaltyRegistry.claimableRoyalties
        (DerivativeRoyaltyRegistry.storage w))⟦creator⟧ = 0 ->
     DerivativeRoyaltyRegistry.receives w creator = true ->
     exists w1 t1 w2,
       DerivativeRoyaltyRegistry.payDirectRoyalty (mkEnv payer X now) creator message w
         = Ok (tt, w1, t1) /\
       (DerivativeRoyaltyRegistry.claimableRoyalties
          (DerivativeRoyaltyRegistry.storage w1))⟦creator⟧ = X /\
       DerivativeRoyaltyRegistry.claimRoyalties (mkEnv creator 0 now') w1
         = Ok (tt, w2, [SStore "claimableRoyalties"; Transfer creator X;
                        Emit "RoyaltiesClaimed"]) /\
       (DerivativeRoyaltyRegistry.claimableRoyalties
          (DerivativeRoyaltyRegistry.storage w2))⟦creator⟧ = 0 /\
       DerivativeRoyaltyRegistry.balance w2 = DerivativeRoyaltyRegistry.balance w /\
       DerivativeRoyaltyRegistry.claimRoyalties (mkEnv creator 0 now'') w2
         = Revert NothingToClaim).
Proof.
  split.
  - apply claimRoyalties_eq.
  - apply tip_then_claim.
Qed.

(** The scenario of the spec: P (at 21) tips 50 to creator C (at 11). *)
Lemma claimRoyalties_tip_50 :
  let w := DerivativeRoyaltyRegistry.mkWorld (ModelRegistry.constructor 1)
             (DerivativeRoyaltyRegistry.constructor 1) 300 0 (fun _ => true) in
  exists w1 t1 w2,
    DerivativeRoyaltyRegistry.payDirectRoyalty (mkEnv 21 50 1000) 11 "great work" w
      = Ok (tt, w1, t1) /\
    (DerivativeRoyaltyRegistry.claimableRoyalties
       (DerivativeRoyaltyRegistry.storage w1))⟦11⟧ = 50 /\
    DerivativeRoyaltyRegistry.claimRoyalties (mkEnv 11 0 1001) w1
      = Ok (tt, w2, [SStore "claimableRoyalties"; Transfer 11 50;
                     Emit "RoyaltiesClaimed"]) /\
    (DerivativeRoyaltyRegistry.claimableRoyalties
       (DerivativeRoyaltyRegistry.storage w2))⟦11⟧ = 0 /\
    DerivativeRoyaltyRegistry.balance w2 = DerivativeRoyaltyRegistry.balance w /\
    DerivativeRoyaltyRegistry.claimRoyalties (mkEnv 11 0 1002) w2
      = Revert NothingToClaim.
Proof.
  intros w.
  apply (proj2 claimRoyalties_zeroes_then_transfers 21 11 "great work" 50 1000 1001 1002 w);
    [lia | lia | lia | by vm_compute | reflexivity | reflexivity].
Defined.

(* ================================================================= *)
(** * DerivativeRoyaltyRegistry: derivative royalties *)

Section DerivativeRoyalties.
Import DerivativeRoyaltyRegistry.

Lemma setDerivativeRoyalty_eq env d o bps w :
  setDerivativeRoyalty env d o bps w =
    let md := (ModelRegistry.models (registry w))⟦d⟧ in
    let mo := (ModelRegistry.models (registry w))⟦o⟧ in
    if negb (ModelRegistry.exists_ md)
    then Revert (Error "DerivativeRoyalty: Model does not exist")
    else if negb (ModelRegistry.exists_ mo)
    then Revert (Error "DerivativeRoyalty: Model does not exist")
    else if negb (bps <=? MAX_DERIVATIVE_ROYALTY_BPS)
    then Revert (Error "DerivativeRoyalty: Royalty too high")
    else if ModelRegistry.creator mo =? 0
    then Revert (Error "DerivativeRoyalty: Invalid original creator")
    else if negb (this w =? ModelRegistry.marketplace (registry w))
    then Revert (Error "ModelRegistry: Only marketplace can call")
    else if negb (ModelRegistry.derivativeCount mo + 1 <=? MAX_UINT256)
    then Revert Panic
    else
      Ok (tt,
          set_registry
            (ModelRegistry.set_models
               (<[o := ModelRegistry.set_derivativeCount
                         (ModelRegistry.derivativeCount mo + 1) mo]>
                  (ModelRegistry.models (registry w))) (registry w))
            (set_storage
               (set_derivativeRoyalties
                  (<[d := mkDerivativeRoyalty o (ModelRegistry.creator mo) bps true]>
                     (derivativeRoyalties (storage w))) (storage w)) w),
          [SStore "derivativeRoyalties"; SStore "models"; Emit "DerivativeRoyaltySet"]).
Proof.
  cbv zeta.
  destruct (ModelRegistry.exists_ (ModelRegistry.models (registry w))⟦d⟧) eqn:Ed;
  destruct (ModelRegistry.exists_ (ModelRegistry.models (registry w))⟦o⟧) eqn:Eo;
  destruct (bps <=? MAX_DERIVATIVE_ROYALTY_BPS) eqn:Eb;
  destruct (ModelRegistry.creator (ModelRegistry.models (registry w))⟦o⟧ =? 0) eqn:Ec;
  destruct (this w =? ModelRegistry.marketplace (registry w)) eqn:Et;
  destruct (ModelRegistry.derivativeCount (ModelRegistry.models (registry w))⟦o⟧ + 1
            <=? MAX_UINT256) eqn:Em;
  unfold setDerivativeRoyalty, modelExists, registry_view, registry_call, call, view,
    store, ModelRegistry.models_, ModelRegistry.incrementDerivativeCount,
    ModelRegistry.modelExists, ModelRegistry.onlyMarketplace,
    mbind, M_bind, bind, gets, require, sstore, emit, ret, revert, lift, checked_add;
  cbn; rewrite ?Ed; cbn; rewrite ?Eo; cbn; rewrite ?Eb; cbn; rewrite ?Ec; cbn;
  rewrite ?Eo; cbn; rewrite ?Et; cbn; rewrite ?Em; reflexivity.
Qed.

Lemma deactivateDerivativeRoyalty_eq env d w :
  deactivateDerivativeRoyalty env d w =
    if _owner (storage w) =? msg_sender env then
      Ok (tt,
          set_storage
            (set_derivativeRoyalties
               (<[d := set_active false (derivativeRoyalties (storage w))⟦d⟧]>
                  (derivativeRoyalties (storage w))) (storage w)) w,
          [SStore "derivativeRoyalties"])
    else Revert (Error "OwnableUnauthorizedAccount").
Proof.
  unfold deactivateDerivativeRoyalty, onlyOwner, store,
    mbind, M_bind, bind, gets, require, sstore, ret, revert; cbn.
  by destruct (_ =? _).
Qed.

(** The conditions under which [setDerivativeRoyalty] goes through; none
    of them mentions the caller or the configuration already stored. *)
Lemma setDerivativeRoyalty_ok env d o bps w :
  ModelRegistry.exists_ (ModelRegistry.models (registry w))⟦d⟧ = true ->
  ModelRegistry.exists_ (ModelRegistry.models (registry w))⟦o⟧ = true ->
  bps <= MAX_DERIVATIVE_ROYALTY_BPS ->
  ModelRegistry.creator (ModelRegistry.models (registry w))⟦o⟧ <> 0 ->
  this w = ModelRegistry.marketplace (registry w) ->
  ModelRegistry.derivativeCount (ModelRegistry.models (registry w))⟦o⟧ < MAX_UINT256 ->
  exists w' t,
    setDerivativeRoyalty env d o bps w = Ok (tt, w', t) /\
    (derivativeRoyalties (storage w'))⟦d⟧
      = mkDerivativeRoyalty o
          (ModelRegistry.creator (ModelRegistry.models (registry w))⟦o⟧) bps true.
Proof.
  intros Hd Ho Hbps Hc Hm Hcnt.
  rewrite setDerivativeRoyalty_eq; cbv zeta.
  rewrite Hd, Ho, (proj2 (N.leb_le _ _) Hbps), (proj2 (N.eqb_neq _ _) Hc).
  rewrite (proj2 (N.eqb_eq _ _) Hm).
  rewrite (proj2 (N.leb_le _ MAX_UINT256)) by lia.
  cbn [negb]. eexists _, _. split; [reflexivity|].
  cbn. by rewrite mapping_get_insert.
Qed.


(** After the administrator has switched a derivative royalty off, the same
    conditions let any caller write it again, switched on. *)
Lemma setDerivativeRoyalty_after_deactivate admin env d o bps w wd td :
  deactivateDerivativeRoyalty admin d w = Ok (tt, wd, td) ->
  ModelRegistry.exists_ (ModelRegistry.models (registry w))⟦d⟧ = true ->
  ModelRegistry.exists_ (ModelRegistry.models (registry w))⟦o⟧ = true ->
  bps <= MAX_DERIVATIVE_ROYALTY_BPS ->
  ModelRegistry.creator (ModelRegistry.models (registry w))⟦o⟧ <> 0 ->
  this w = ModelRegistry.marketplace (registry w) ->
  ModelRegistry.derivativeCount (ModelRegistry.models (registry w))⟦o⟧ < MAX_UINT256 ->
  active (derivativeRoyalties (storage wd))⟦d⟧ = false /\
  exists w' t,
    setDerivativeRoyalty env d o bps wd = Ok (tt, w', t) /\
    (derivativeRoyalties (storage w'))⟦d⟧
      = mkDerivativeRoyalty o
          (ModelRegistry.creator (ModelRegistry.models (registry w))⟦o⟧) bps true.
Proof.
  rewrite deactivateDerivativeRoyalty_eq.
  destruct (_ =? _); [|discriminate]. intros [= <- <-] Hd Ho Hbps Hc Hm Hcnt.
  split; [cbn; by rewrite mapping_get_insert|].
  match goal with |- context [setDerivativeRoyalty _ _ _ _ ?wd] =>
    exact (setDerivativeRoyalty_ok env d o bps wd Hd Ho Hbps Hc Hm Hcnt) end.
Qed.

End DerivativeRoyalties.

(** C10, as the code has it.  [setDerivativeRoyalty] goes through for
    every caller when both models exist, the rate is at most 2000, the
    original's creator is not the null address, the registry takes the
    royalty registry for its marketplace (its [onlyMarketplace] guard on
    [incrementDerivativeCount]) and the derivative counter is not full.  It
    then overwrites whatever configuration the derivative had, with the
    original's creator as payee and the active flag set; in particular this
    holds right after the administrator has deactivated that royalty. *)
Theorem setDerivativeRoyalty_any_caller_overwrites :
  forall env d o bps w,
    ModelRegistry.exists_
      (ModelRegistry.models (DerivativeRoyaltyRegistry.registry w))⟦d⟧ = true ->
    ModelRegistry.exists_
      (ModelRegistry.models (DerivativeRoyaltyRegistry.registry w))⟦o⟧ = true ->
    bps <= DerivativeRoyaltyRegistry.MAX_DERIVATIVE_ROYALTY_BPS ->
    ModelRegistry.creator
      (ModelRegistry.models (DerivativeRoyaltyRegistry.registry w))⟦o⟧ <> 0 ->
    DerivativeRoyaltyRegistry.this w
      = ModelRegistry.marketplace (DerivativeRoyaltyRegistry.registry w) ->
    ModelRegistry.derivativeCount
      (ModelRegistry.models (DerivativeRoyaltyRegistry.registry w))⟦o⟧ < MAX_UINT256 ->
    let payee := ModelRegistry.creator
                   (ModelRegistry.models (DerivativeRoyaltyRegistry.registry w))⟦o⟧ in
    (exists w' t,
       DerivativeRoyaltyRegistry.setDerivativeRoyalty env d o bps w = Ok (tt, w', t) /\
       (DerivativeRoyaltyRegistry.derivativeRoyalties
          (DerivativeRoyaltyRegistry.storage w'))⟦d⟧
         = DerivativeRoyaltyRegistry.mkDerivativeRoyalty o payee bps true) /\
    (forall admin wd td,
       DerivativeRoyaltyRegistry.deactivateDerivativeRoyalty admin d w = Ok (tt, wd, td) ->
       DerivativeRoyaltyRegistry.active
         (DerivativeRoyaltyRegistry.derivativeRoyalties
            (DerivativeRoyaltyRegistry.storage wd))⟦d⟧ = false /\
       exists w' t,
         DerivativeRoyaltyRegistry.setDerivativeRoyalty env d o bps wd = Ok (tt, w', t) /\
         (DerivativeRoyaltyRegistry.derivativeRoyalties
            (DerivativeRoyaltyRegistry.storage w'))⟦d⟧
           = DerivativeRoyaltyRegistry.mkDerivativeRoyalty o payee bps true).
Proof.
  intros env d o bps w Hd Ho Hbps Hc Hm Hcnt payee. split.
  - by apply setDerivativeRoyalty_ok.
  - intros admin wd td Hdeact.
    by apply (setDerivativeRoyalty_after_deactivate admin env d o bps w wd td).
Qed.

(** A stranger (66) configures the royalty of derivative 1, and does so
    again after the administrator has deactivated it. *)
Lemma setDerivativeRoyalty_stranger :
  (exists w' t,
     DerivativeRoyaltyRegistry.setDerivativeRoyalty (mkEnv 66 0 5000) 1 0 1500
       (royalty_world 300) = Ok (tt, w', t) /\
     (DerivativeRoyaltyRegistry.derivativeRoyalties
        (DerivativeRoyaltyRegistry.storage w'))⟦1⟧
       = DerivativeRoyaltyRegistry.mkDerivativeRoyalty 0 11 1500 true) /\
  (forall admin wd td,
     DerivativeRoyaltyRegistry.deactivateDerivativeRoyalty admin 1 (royalty_world 300)
       = Ok (tt, wd, td) ->
     DerivativeRoyaltyRegistry.active
       (DerivativeRoyaltyRegistry.derivativeRoyalties
          (DerivativeRoyaltyRegistry.storage wd))⟦1⟧ = false /\
     exists w' t,
       DerivativeRoyaltyRegistry.setDerivativeRoyalty (mkEnv 66 0 5000) 1 0 1500 wd
         = Ok (tt, w', t) /\
       (DerivativeRoyaltyRegistry.derivativeRoyalties
          (DerivativeRoyaltyRegistry.storage w'))⟦1⟧
         = DerivativeRoyaltyRegistry.mkDerivativeRoyalty 0 11 1500 true).
Proof.
  apply (setDerivativeRoyalty_any_caller_overwrites (mkEnv 66 0 5000) 1 0 1500
           (royalty_world 300));
    [reflexivity | reflexivity | by vm_compute | by vm_compute | reflexivity
    | by vm_compute].
Defined.

(** The claim as stated fails: with the registry wired to the marketplace
    contract (at 200), both models exist and the rate is within the cap, yet
    the call is rejected by the registry. *)
Lemma setDerivativeRoyalty_rejected_by_registry :
  ModelRegistry.exists_
    (ModelRegistry.models (DerivativeRoyaltyRegistry.registry (royalty_world 200)))⟦1⟧
    = true /\
  ModelRegistry.exists_
    (ModelRegistry.models (DerivativeRoyaltyRegistry.registry (royalty_world 200)))⟦0⟧
    = true /\
  (1500 <=? DerivativeRoyaltyRegistry.MAX_DERIVATIVE_ROYALTY_BPS) = true /\
  DerivativeRoyaltyRegistry.setDerivativeRoyalty (mkEnv 12 0 5000) 1 0 1500
    (royalty_world 200)
    = Revert (Error "ModelRegistry: Only marketplace can call").
Proof. by vm_compute. Qed.

(* ================================================================= *)
(** * The order of writes and transfers *)

Lemma royalty_transfer_ok_inv to amount w u w' t :
  DerivativeRoyaltyRegistry.transfer to amount w = Ok (u, w', t) ->
  w' = DerivativeRoyaltyRegistry.set_balance (DerivativeRoyaltyRegistry.balance w - amount) w /\
  t = [Transfer to amount] /\
  amount <= DerivativeRoyaltyRegistry.balance w /\
  DerivativeRoyaltyRegistry.receives w to = true.
Proof.
  unfold DerivativeRoyaltyRegistry.transfer.
  destruct (_ <=? _) eqn:Hle; [|discriminate].
  destruct (DerivativeRoyaltyRegistry.receives w to) eqn:Hr; [|discriminate].
  intros [= <- <-]. apply N.leb_le in Hle. done.
Qed.

Lemma royalty_payable_ok_inv env w u w' t :
  DerivativeRoyaltyRegistry.payable env w = Ok (u, w', t) ->
  w' = DerivativeRoyaltyRegistry.set_balance
         (DerivativeRoyaltyRegistry.balance w + msg_value env) w /\ t = [].
Proof. unfold DerivativeRoyaltyRegistry.payable. by intros [= <- <-]. Qed.

Ltac royalty_inv :=
  repeat first
    [ minv1
    | match goal with
      | H : DerivativeRoyaltyRegistry.store _ _ _ = Ok _ |- _ =>
          unfold DerivativeRoyaltyRegistry.store in H
      | H : DerivativeRoyaltyRegistry.transfer _ _ _ = Ok _ |- _ =>
          apply royalty_transfer_ok_inv in H; destruct H as (-> & -> & ? & ?)
      | H : DerivativeRoyaltyRegistry.payable _ _ = Ok _ |- _ =>
          apply royalty_payable_ok_inv in H; destruct H as (-> & ->)
      | H : DerivativeRoyaltyRegistry.modelExists _ _ = Ok _ |- _ =>
          unfold DerivativeRoyaltyRegistry.modelExists,
            DerivativeRoyaltyRegistry.registry_view in H
      end ].

(** C8 (the code departs from the claim).  Every successful
    [payDerivativeRoyalty] credits the claimable balance, sends the
    remainder to the caller, and only then writes the payment counter, the
    audit record and the payee's history: its trace has three storage
    writes after the transfer. *)
Theorem payDerivativeRoyalty_writes_after_transfer :
  forall env d salePrice w w' t,
    DerivativeRoyaltyRegistry.payDerivativeRoyalty env d salePrice w = Ok (tt, w', t) ->
    (exists remainingAmount,
       t = [SStore "claimableRoyalties"; Transfer (msg_sender env) remainingAmount;
            SStore "_paymentIdCounter"; SStore "royaltyPayments";
            SStore "creatorPayments"; Emit "DerivativeRoyaltyPaid"]) /\
    writes_before_transfers t = false.
Proof.
  intros env d salePrice w w' t H.
  unfold DerivativeRoyaltyRegistry.payDerivativeRoyalty in H.
  royalty_inv. split; [eexists; reflexivity | reflexivity].
Qed.

(** A sale of derivative 1 at 1000 by its creator (12): 900 go back to the
    seller before the audit record is written. *)
Lemma payDerivativeRoyalty_sale_1000 :
  exists w',
    DerivativeRoyaltyRegistry.payDerivativeRoyalty (mkEnv 12 1000 5000) 1 1000
      royalty_world_configured
      = Ok (tt, w',
            [SStore "claimableRoyalties"; Transfer 12 900;
             SStore "_paymentIdCounter"; SStore "royaltyPayments";
             SStore "creatorPayments"; Emit "DerivativeRoyaltyPaid"]) /\
    writes_before_transfers
      [SStore "claimableRoyalties"; Transfer 12 900;
       SStore "_paymentIdCounter"; SStore "royaltyPayments";
       SStore "creatorPayments"; Emit "DerivativeRoyaltyPaid"] = false.
Proof.
  destruct (DerivativeRoyaltyRegistry.payDerivativeRoyalty (mkEnv 12 1000 5000) 1 1000
              royalty_world_configured) as [[[[] w'] t]|e] eqn:Hrun;
    [|by vm_compute in Hrun].
  pose proof (payDerivativeRoyalty_writes_after_transfer _ _ _ _ _ _ Hrun) as [_ Hcei].
  assert (t = [SStore "claimableRoyalties"; Transfer 12 900;
               SStore "_paymentIdCounter"; SStore "royaltyPayments";
               SStore "creatorPayments"; Emit "DerivativeRoyaltyPaid"]) as Ht
    by (vm_compute in Hrun; congruence).
  exists w'. rewrite <- Ht. split; [reflexivity | exact Hcei].
Defined.

(** [claimRoyalties] does follow the discipline. *)
Lemma claimRoyalties_writes_before_transfers env w w' t :
  DerivativeRoyaltyRegistry.claimRoyalties env w = Ok (tt, w', t) ->
  writes_before_transfers t = true.
Proof.
  rewrite claimRoyalties_eq; cbv zeta.
  repeat case_match; try discriminate. by intros [= <- <-].
Qed.

(* ================================================================= *)
(** * ModelToken: purchase *)

Example purchase_scenario_trace :
  match ModelToken.purchaseModel (mkEnv 13 300 5000) 0 "commercial" [] token_world_live with
  | Ok (_, w', t) => Some (t, ModelToken.balance w',
                           (ModelToken.purchaseSnapshots (ModelToken.storage w'))⟦1⟧)
  | Revert _ => None
  end
  = Some ([SStore "_tokenIdCounter"; SStore "purchaseSnapshots"; SStore "_balances";
           SStore "_owners"; Emit "Transfer"; SStore "_tokenURIs"; Emit "MetadataUpdate";
           SStore "userTokens"; SStore "modelPurchaseCount"; SStore "soldCounts";
           Transfer 11 300; Emit "ModelPurchased"],
          0,
          ModelToken.mkPurchaseSnapshot 0 5000 300
            (ModelToken.mkLicenseSnapshot "commercial" 5000 (5000 + ONE_YEAR) ONE_YEAR)
            [] "QmMeta" 30 false "").
Proof. vm_compute. reflexivity. Qed.

Section TokenPurchase.
Import ModelToken.

Lemma canPurchase_eq reg id s :
  ModelMarketplace.canPurchase reg id s =
    Ok (let m := (ModelRegistry.models reg)⟦id⟧ in
        let maxSupply := (ModelMarketplace.maxSupplies s)⟦id⟧ in
        let sold := (ModelMarketplace.soldCounts s)⟦id⟧ in
        (ModelRegistry.exists_ m && ModelRegistry.active m)
        && (ModelMarketplace.forSale s)⟦id⟧
        && negb ((0 <? maxSupply) && (maxSupply <=? sold)),
        s, []).
Proof.
  unfold ModelMarketplace.canPurchase, ModelRegistry.isModelActive, view,
    mbind, M_bind, bind, gets, mret, M_ret, ret; cbn.
  destruct (ModelRegistry.exists_ _ && ModelRegistry.active _); [|done]; cbn.
  destruct ((ModelMarketplace.forSale s)⟦id⟧); [|done]; cbn.
  by destruct ((0 <? _) && _).
Qed.

Lemma royaltyInfo_eq id salePrice s :
  ModelMarketplace.royaltyInfo id salePrice s =
    let royalty := (ModelMarketplace.royalties s)⟦id⟧ in
    if ModelMarketplace.recipient royalty =? 0 then Ok ((0, 0), s, [])
    else if salePrice * ModelMarketplace.bps royalty <=? MAX_UINT256
    then Ok ((ModelMarketplace.recipient royalty,
              salePrice * ModelMarketplace.bps royalty / 10000), s, [])
    else Revert Panic.
Proof.
  unfold ModelMarketplace.royaltyInfo, mbind, M_bind, bind, gets, mret, M_ret, ret,
    lift, checked_mul; cbn.
  destruct (_ =? 0); [done|]; cbn. by destruct (_ <=? _).
Qed.

(** View functions of the marketplace return the storage they were given
    and an empty trace. *)
Lemma getLicensePrice_pure id lt s a s' t :
  ModelMarketplace.getLicensePrice id lt s = Ok (a, s', t) -> s' = s /\ t = [].
Proof.
  unfold ModelMarketplace.getLicensePrice, mbind, M_bind, bind, gets, mret, M_ret,
    ret, revert; cbn.
  intros H. repeat case_match; simplify_eq; done.
Qed.

Lemma getTotalPrice_loop_pure vs vids : forall total s a s' t,
  ModelMarketplace.getTotalPrice_loop vs vids total s = Ok (a, s', t) -> s' = s /\ t = [].
Proof.
  induction vids as [|v vids IH]; intros total s a s' t; cbn.
  - by intros [= <- <- <-].
  - intros H. minv. destruct (vs !! N.to_nat v); [|discriminate].
    minv. apply IH in H as [-> ->]. done.
Qed.

Lemma getTotalPrice_pure id lt vids s a s' t :
  ModelMarketplace.getTotalPrice id lt vids s = Ok (a, s', t) -> s' = s /\ t = [].
Proof.
  unfold ModelMarketplace.getTotalPrice. intros H. minv.
  match goal with H : ModelMarketplace.getLicensePrice _ _ _ = _ |- _ =>
    apply getLicensePrice_pure in H as [-> ->] end.
  apply getTotalPrice_loop_pure in H as [-> ->]. done.
Qed.

Lemma _mint_eq to tokenId w :
  _mint to tokenId w =
    if to =? 0 then Revert (Error "ERC721InvalidReceiver")
    else if negb ((_owners (storage w))⟦tokenId⟧ =? 0)
    then Revert (Error "ERC721InvalidSender")
    else
      Ok (tt,
          set_storage
            (set_owners (<[tokenId := to]> (_owners (storage w)))
               (set_balances
                  (<[to := ((_balances (storage w))⟦to⟧ + 1) mod 2 ^ 256]>
                     (_balances (storage w))) (storage w))) w,
          [SStore "_balances"; SStore "_owners"; Emit "Transfer"]).
Proof.
  destruct (to =? 0) eqn:Eto; destruct ((_owners (storage w))⟦tokenId⟧ =? 0) eqn:Eo;
  unfold _mint, _update, ERC721_update, _ownerOf, store,
    mbind, M_bind, bind, gets, mret, M_ret, ret, revert, sstore, emit;
  cbn; rewrite ?Eto; cbn; rewrite ?Eo; cbn; rewrite ?Eo, ?Eto; cbn; rewrite ?Eo;
  reflexivity.
Qed.

Lemma _distributePayment_eq creator totalPrice royaltyRecipient royaltyBps w :
  _distributePayment creator totalPrice royaltyRecipient royaltyBps w =
    let royaltyAmount := totalPrice * royaltyBps / 10000 in
    let creatorAmount := totalPrice - royaltyAmount in
    if negb (totalPrice * royaltyBps <=? MAX_UINT256) then Revert Panic
    else if negb (royaltyAmount <=? totalPrice) then Revert Panic
    else if negb ((creatorAmount <=? balance w) && receives w creator)
    then Revert TransferFailed
    else if (0 <? royaltyAmount) && negb (royaltyRecipient =? 0) then
      if negb ((royaltyAmount <=? balance w - creatorAmount)
               && receives w royaltyRecipient)
      then Revert TransferFailed
      else Ok (tt, set_balance (balance w - creatorAmount - royaltyAmount) w,
               [Transfer creator creatorAmount; Transfer royaltyRecipient royaltyAmount])
    else Ok (tt, set_balance (balance w - creatorAmount) w,
             [Transfer creator creatorAmount]).
Proof.
  cbv zeta.
  destruct (totalPrice * royaltyBps <=? MAX_UINT256) eqn:E1;
  destruct (totalPrice * royaltyBps / 10000 <=? totalPrice) eqn:E2;
  destruct ((totalPrice - totalPrice * royaltyBps / 10000 <=? balance w)
            && receives w creator) eqn:E3;
  destruct ((0 <? totalPrice * royaltyBps / 10000) && negb (royaltyRecipient =? 0)) eqn:E4;
  destruct ((totalPrice * royaltyBps / 10000
             <=? balance w - (totalPrice - totalPrice * royaltyBps / 10000))
            && receives w royaltyRecipient) eqn:E5;
  unfold _distributePayment, transfer, mbind, M_bind, bind, mret, M_ret, ret, lift,
    checked_mul, checked_sub;
  cbn; rewrite ?E1; cbn; rewrite ?E2; cbn; rewrite ?E3; cbn; rewrite ?E4; cbn;
  rewrite ?E5; reflexivity.
Qed.





#[local] Arguments ModelMarketplace.canPurchase : simpl never.
#[local] Arguments ModelMarketplace.getTotalPrice : simpl never.
#[local] Arguments ModelMarketplace.royaltyInfo : simpl never.
#[local] Arguments ModelMarketplace.getLicenseDuration : simpl never.
#[local] Arguments ModelMarketplace.getLicensePrice : simpl never.
#[local] Arguments _mint : simpl never.
#[local] Arguments _distributePayment : simpl never.
#[local] Arguments increment : simpl never.
#[local] Arguments N.add : simpl never.
#[local] Arguments N.leb : simpl never.
#[local] Arguments N.ltb : simpl never.
#[local] Arguments N.eqb : simpl never.
#[local] Arguments N.mul : simpl never.
#[local] Arguments N.div : simpl never.
#[local] Arguments N.sub : simpl never.

Lemma purchaseModel_eq env id lt vids w :
  purchaseModel env id lt vids w =
    let tokenId := _tokenIdCounter (storage w) in
    let creator := ModelRegistry.creator (ModelRegistry.models (registry w))⟦id⟧ in
    if (_owners (storage w))⟦id⟧ =? 0 then Revert TokenDoesNotExist else
    match ModelMarketplace.canPurchase (registry w) id (marketplace w) with
    | Revert e => Revert e
    | Ok (ok, _, _) =>
    if negb ok then Revert Unavailable else
    match ModelMarketplace.getTotalPrice id lt vids (marketplace w) with
    | Revert e => Revert e
    | Ok (totalPrice, _, _) =>
    if negb (totalPrice <=? msg_value env) then Revert InsufficientPayment else
    match ModelMarketplace.royaltyInfo id totalPrice (marketplace w) with
    | Revert e => Revert e
    | Ok ((royaltyRecipient, royaltyBps), _, _) =>
    match ModelMarketplace.getLicenseDuration id lt (marketplace w) with
    | Revert e => Revert e
    | Ok (duration, _, _) =>
    match (if 0 <? duration then checked_add (block_timestamp env) duration else Ok 0) with
    | Revert e => Revert e
    | Ok expiresAt =>
    if msg_sender env =? 0 then Revert (Error "ERC721InvalidReceiver") else
    if negb ((_owners (storage w))⟦tokenId⟧ =? 0) then Revert (Error "ERC721InvalidSender") else
    if negb ((modelPurchaseCount (storage w))⟦id⟧ + 1 <=? MAX_UINT256) then Revert Panic else
    if negb ((ModelMarketplace.soldCounts (marketplace w))⟦id⟧ + 1 <=? MAX_UINT256)
    then Revert Panic else
    match _distributePayment creator totalPrice royaltyRecipient royaltyBps
            (purchase_effects env id lt vids totalPrice royaltyBps duration expiresAt w) with
    | Revert e => Revert e
    | Ok (_, w', t) => Ok (tt, w', purchase_writes ++ t ++ [Emit "ModelPurchased"])
    end end end end end end.
Proof.
  cbv zeta.
  unfold purchaseModel, tokenExists, _exists, _ownerOf, marketplace_canPurchase,
    marketplace_view, registry_view, marketplace_call, call, view, store, _setTokenURI,
    payable, ModelRegistry.models_, ModelMarketplace.incrementSoldCount,
    mbind, M_bind, bind, gets, require, sstore, emit, mret, M_ret, ret, revert, lift.
  cbn.
  destruct ((_owners (storage w))⟦id⟧ =? 0) eqn:E0; cbn; [done|].
  destruct (ModelMarketplace.canPurchase _ _ _) as [[[ok ?] ?]|?]; cbn; [|done].
  destruct ok; cbn; [|done].
  destruct (ModelMarketplace.getTotalPrice _ _ _ _) as [[[totalPrice ?] ?]|?]; cbn; [|done].
  destruct (totalPrice <=? msg_value env); cbn; [|done].
  destruct (ModelMarketplace.royaltyInfo _ _ _) as [[[[R A] ?] ?]|?]; cbn; [|done].
  destruct (ModelMarketplace.getLicenseDuration _ _ _) as [[[duration ?] ?]|?]; cbn; [|done].
  destruct (0 <? duration); [destruct (checked_add _ _) as [expiresAt|]; [|done]|];
    cbn; rewrite _mint_eq; cbn.
  all: destruct (msg_sender env =? 0); cbn; [done|].
  all: destruct ((_owners (storage w))⟦_tokenIdCounter (storage w)⟧ =? 0); cbn; [|done].
  all: unfold checked_add.
  all: destruct ((modelPurchaseCount (storage w))⟦id⟧ + 1 <=? MAX_UINT256); cbn; [|done].
  all: destruct ((ModelMarketplace.soldCounts (marketplace w))⟦id⟧ + 1 <=? MAX_UINT256);
    cbn; [|done].
  all: unfold purchase_effects, set_storage, set_balance, set_marketplace; cbn.
  all: by destruct (_distributePayment _ _ _ _ _) as [[[[] ?] ?]|].
Qed.


(** [renewLicense], guard by guard; [renewed b] is the world after a
    renewal that leaves [b] in the contract. *)
Lemma renewLicense_eq env tokenId w :
  renewLicense env tokenId w =
    let snapshot := (purchaseSnapshots (storage w))⟦tokenId⟧ in
    let owner := (_owners (storage w))⟦tokenId⟧ in
    let creator := ModelRegistry.creator (ModelRegistry.models (registry w))⟦modelId snapshot⟧ in
    let renewed b :=
      mkWorld (registry w) (marketplace w)
        (set_purchaseSnapshots
           (<[tokenId := set_expiresAt
                           (expiresAt (license snapshot) + duration (license snapshot))
                           snapshot]> (purchaseSnapshots (storage w))) (storage w))
        (this w) b (receives w) in
    if owner =? 0 then Revert TokenDoesNotExist else
    if negb (owner =? msg_sender env) then Revert (Error "ModelToken: Not token owner") else
    if negb (0 <? expiresAt (license snapshot))
    then Revert (Error "ModelToken: Cannot renew perpetual license") else
    if burned snapshot then Revert (Error "ModelToken: Token burned") else
    match ModelMarketplace.getLicensePrice (modelId snapshot) (licenseType (license snapshot))
            (marketplace w) with
    | Revert e => Revert e
    | Ok (renewalPrice, _, _) =>
    if negb (renewalPrice <=? msg_value env)
    then Revert (Error "ModelToken: Insufficient renewal payment") else
    if negb (expiresAt (license snapshot) + duration (license snapshot) <=? MAX_UINT256)
    then Revert Panic else
    if negb (renewalPrice * royaltyBpsAtPurchase snapshot <=? MAX_UINT256)
    then Revert Panic else
    let royaltyAmount := renewalPrice * royaltyBpsAtPurchase snapshot / 10000 in
    let creatorAmount := renewalPrice - royaltyAmount in
    let funds := balance w + msg_value env in
    if negb (royaltyAmount <=? renewalPrice) then Revert Panic else
    if negb ((creatorAmount <=? funds) && receives w creator) then Revert TransferFailed else
    if 0 <? royaltyAmount then
      match ModelMarketplace.royaltyInfo (modelId snapshot) renewalPrice (marketplace w) with
      | Revert e => Revert e
      | Ok ((royaltyRecipient, _), _, _) =>
          if negb (royaltyRecipient =? 0) then
            if negb ((royaltyAmount <=? funds - creatorAmount)
                     && receives w royaltyRecipient)
            then Revert TransferFailed
            else Ok (tt, renewed (funds - creatorAmount - royaltyAmount),
                     [SStore "purchaseSnapshots"; Transfer creator creatorAmount;
                      Transfer royaltyRecipient royaltyAmount; Emit "LicenseRenewed"])
          else Ok (tt, renewed (funds - creatorAmount),
                   [SStore "purchaseSnapshots"; Transfer creator creatorAmount;
                    Emit "LicenseRenewed"])
      end
    else Ok (tt, renewed (funds - creatorAmount),
             [SStore "purchaseSnapshots"; Transfer creator creatorAmount;
              Emit "LicenseRenewed"])
    end.
Proof.
  cbv zeta.
  unfold renewLicense, tokenExists, onlyTokenOwner, ownerOf, _exists, _ownerOf,
    marketplace_view, registry_view, view, store, payable, transfer,
    ModelRegistry.models_, checked_add, checked_mul, checked_sub,
    mbind, M_bind, bind, gets, require, sstore, emit, mret, M_ret, ret, revert, lift.
  cbn.
  destruct ((_owners (storage w))⟦tokenId⟧ =? 0) eqn:E0; cbn; [done|].
  rewrite E0; cbn.
  destruct ((_owners (storage w))⟦tokenId⟧ =? msg_sender env); cbn; [|done].
  destruct (0 <? expiresAt _); cbn; [|done].
  destruct (burned _); cbn; [done|].
  destruct (ModelMarketplace.getLicensePrice _ _ _) as [[[renewalPrice ?] ?]|?]; cbn; [|done].
  destruct (renewalPrice <=? msg_value env); cbn; [|done].
  destruct (_ + _ <=? MAX_UINT256); cbn; [|done].
  destruct (_ * _ <=? MAX_UINT256); cbn; [|done].
  destruct (_ / 10000 <=? renewalPrice); cbn; [|done].
  destruct ((_ <=? _) && _); cbn; [|done].
  destruct (0 <? _); cbn; [|done].
  destruct (ModelMarketplace.royaltyInfo _ _ _) as [[[[R A] ?] ?]|?]; cbn; [|done].
  destruct (R =? 0); cbn; [done|].
  by destruct ((_ <=? _) && _).
Qed.

End TokenPurchase.

(* ================================================================= *)
(** * ModelToken: renewal *)

(** C5.  A successful [renewLicense] on a record that is neither perpetual
    nor burned replaces the expiry by the old expiry plus the duration
    stored in the record at purchase, and changes nothing else in the
    record.  The new expiry is the same whatever the registry and the
    marketplace hold at the time of the renewal (in particular the asset's
    current duration) and whenever the renewal is made: it never depends on
    [block.timestamp]. *)
Theorem renewLicense_additive :
  forall env tokenId w w' t,
    ModelToken.renewLicense env tokenId w = Ok (tt, w', t) ->
    let old := (ModelToken.purchaseSnapshots (ModelToken.storage w))⟦tokenId⟧ in
    let new := (ModelToken.purchaseSnapshots (ModelToken.storage w'))⟦tokenId⟧ in
    0 < ModelToken.expiresAt (ModelToken.license old) /\
    ModelToken.burned old = false /\
    ModelToken.expiresAt (ModelToken.license new)
      = ModelToken.expiresAt (ModelToken.license old)
        + ModelToken.duration (ModelToken.license old) /\
    new = ModelToken.set_expiresAt
            (ModelToken.expiresAt (ModelToken.license old)
             + ModelToken.duration (ModelToken.license old)) old /\
    (0 < ModelToken.duration (ModelToken.license old) ->
     ModelToken.expiresAt (ModelToken.license old)
       < ModelToken.expiresAt (ModelToken.license new)) /\
    (forall env' registry' marketplace' w'' t',
       ModelToken.renewLicense env' tokenId
         (ModelToken.set_registry registry' (ModelToken.set_marketplace marketplace' w))
         = Ok (tt, w'', t') ->
       ModelToken.expiresAt
         (ModelToken.license
            (ModelToken.purchaseSnapshots (ModelToken.storage w''))⟦tokenId⟧)
         = ModelToken.expiresAt (ModelToken.license new)).
Proof.
  assert (forall env tokenId w w' t,
    ModelToken.renewLicense env tokenId w = Ok (tt, w', t) ->
    let old := (ModelToken.purchaseSnapshots (ModelToken.storage w))⟦tokenId⟧ in
    (0 <? ModelToken.expiresAt (ModelToken.license old)) = true /\
    ModelToken.burned old = false /\
    (ModelToken.purchaseSnapshots (ModelToken.storage w'))⟦tokenId⟧
      = ModelToken.set_expiresAt
          (ModelToken.expiresAt (ModelToken.license old)
           + ModelToken.duration (ModelToken.license old)) old) as Hinv.
  { intros env tokenId w w' t. rewrite renewLicense_eq; cbv zeta.
    destruct (_ =? 0); [done|]. destruct (_ =? msg_sender env); [|done].
    destruct (0 <? _); [|done]. destruct (ModelToken.burned _); [done|].
    cbn [negb]. intros H.
    repeat case_match; try discriminate; simplify_eq; cbn;
      rewrite mapping_get_insert; done. }
  intros env tokenId w w' t H old new.
  destruct (Hinv _ _ _ _ _ H) as (Hexp & Hb & Hnew).
  fold old in Hexp, Hb, Hnew. fold new in Hnew.
  apply N.ltb_lt in Hexp.
  split; [done|]. split; [done|]. split; [by rewrite Hnew|].
  split; [done|]. split; [rewrite Hnew; cbn; lia|].
  intros env' registry' marketplace' w'' t' H'.
  destruct (Hinv _ _ _ _ _ H') as (_ & _ & Hnew'). cbn in Hnew'.
  fold old in Hnew'. by rewrite Hnew', Hnew.
Qed.

(** The owner (14) of record 0 renews it at time 5000, long before its
    expiry 40000000: the new expiry is 40000000 + ONE_YEAR, not 5000 + ONE_YEAR;
    the same holds after the creator has changed the Commercial duration
    to one day. *)
Lemma renewLicense_record_0 :
  exists w' t,
    ModelToken.renewLicense (mkEnv 14 300 5000) 0 token_world_live = Ok (tt, w', t) /\
    ModelToken.expiresAt
      (ModelToken.license (ModelToken.purchaseSnapshots (ModelToken.storage w'))⟦0⟧)
      = 40000000 + ONE_YEAR /\
    (forall w'' t',
       ModelToken.renewLicense (mkEnv 14 300 9000) 0
         (ModelToken.set_registry scenario_registry
            (ModelToken.set_marketplace
               (ModelMarketplace.set_licenseConfigs
                  {[ 0 := ModelMarketplace.mkLicenseConfig 0 0 300 0 0 0 86400 0 ]}
                  scenario_marketplace) token_world_live))
         = Ok (tt, w'', t') ->
       ModelToken.expiresAt
         (ModelToken.license (ModelToken.purchaseSnapshots (ModelToken.storage w''))⟦0⟧)
         = 40000000 + ONE_YEAR).
Proof.
  destruct (ModelToken.renewLicense (mkEnv 14 300 5000) 0 token_world_live)
    as [[[[] w'] t]|e] eqn:Hrun; [|by vm_compute in Hrun].
  destruct (renewLicense_additive _ _ _ _ _ Hrun) as (_ & _ & Hnew & _ & _ & Hany).
  exists w', t. split; [reflexivity|]. split; [exact Hnew|].
  intros w'' t' H'. rewrite (Hany _ _ _ _ _ H'). exact Hnew.
Defined.

(* ================================================================= *)
(** * ModelToken: what a payment pays out *)

Lemma transfers_app t1 t2 : transfers (t1 ++ t2) = transfers t1 ++ transfers t2.
Proof.
  induction t1 as [|[slot|to amount|name] t1 IH]; cbn; [done| | |]; by rewrite ?IH.
Qed.

(** A successful purchase, read back from its result. *)
Lemma purchaseModel_ok_inv env id lt vids w w' t :
  ModelToken.purchaseModel env id lt vids w = Ok (tt, w', t) ->
  exists totalPrice royaltyRecipient royaltyBps duration expiresAt td,
    (ModelToken._owners (ModelToken.storage w))⟦id⟧ <> 0 /\
    ModelMarketplace.getTotalPrice id lt vids (ModelToken.marketplace w)
      = Ok (totalPrice, ModelToken.marketplace w, []) /\
    totalPrice <= msg_value env /\
    ModelMarketplace.royaltyInfo id totalPrice (ModelToken.marketplace w)
      = Ok ((royaltyRecipient, royaltyBps), ModelToken.marketplace w, []) /\
    msg_sender env <> 0 /\
    ModelToken._distributePayment
      (ModelRegistry.creator (ModelRegistry.models (ModelToken.registry w))⟦id⟧)
      totalPrice royaltyRecipient royaltyBps
      (purchase_effects env id lt vids totalPrice royaltyBps duration expiresAt w)
      = Ok (tt, w', td) /\
    t = purchase_writes ++ td ++ [Emit "ModelPurchased"].
Proof.
  rewrite purchaseModel_eq; cbv zeta.
  destruct (_ =? 0) eqn:E0; [done|].
  destruct (ModelMarketplace.canPurchase _ _ _) as [[[[] ?] ?]|]; [|done..]; cbn [negb].
  destruct (ModelMarketplace.getTotalPrice _ _ _ _) as [[[totalPrice s1] t1]|] eqn:Etp;
    [|done].
  destruct (getTotalPrice_pure _ _ _ _ _ _ _ Etp) as [-> ->].
  destruct (totalPrice <=? msg_value env) eqn:Ele; [|done]; cbn [negb].
  destruct (ModelMarketplace.royaltyInfo _ _ _) as [[[[R A] s2] t2]|] eqn:Er; [|done].
  assert (s2 = ModelToken.marketplace w /\ t2 = []) as [-> ->].
  { rewrite royaltyInfo_eq in Er; cbv zeta in Er.
    repeat case_match; simplify_eq; done. }
  destruct (ModelMarketplace.getLicenseDuration _ _ _) as [[[duration ?] ?]|]; [|done].
  destruct (if 0 <? duration then _ else _) as [expiresAt|]; [|done].
  destruct (msg_sender env =? 0) eqn:Es; [done|].
  destruct (negb _); [done|]. destruct (negb _); [done|]. destruct (negb _); [done|].
  destruct (ModelToken._distributePayment _ _ _ _ _) as [[[[] w1] td]|] eqn:Ed; [|done].
  intros [= <- <-].
  exists totalPrice, R, A, duration, expiresAt, td.
  apply N.eqb_neq in E0, Es. apply N.leb_le in Ele. done.
Qed.

(** What [_distributePayment] sends when it goes through. *)
Lemma _distributePayment_ok_inv creator totalPrice royaltyRecipient royaltyBps w w' t :
  ModelToken._distributePayment creator totalPrice royaltyRecipient royaltyBps w
    = Ok (tt, w', t) ->
  let royaltyAmount := totalPrice * royaltyBps / 10000 in
  royaltyAmount <= totalPrice /\
  ModelToken.balance w' = ModelToken.balance w - total (transfers t) /\
  total (transfers t) <= ModelToken.balance w /\
  ((0 < royaltyAmount /\ royaltyRecipient <> 0 /\
    t = [Transfer creator (totalPrice - royaltyAmount);
         Transfer royaltyRecipient royaltyAmount])
   \/ ((royaltyAmount = 0 \/ royaltyRecipient = 0) /\
       t = [Transfer creator (totalPrice - royaltyAmount)])).
Proof.
  rewrite _distributePayment_eq; cbv zeta.
  generalize (totalPrice * royaltyBps / 10000); intros ra.
  destruct (_ <=? MAX_UINT256); [|done]; cbn [negb].
  destruct (_ <=? totalPrice) eqn:E2; [|done]; cbn [negb]. apply N.leb_le in E2.
  destruct ((_ <=? ModelToken.balance w) && ModelToken.receives w creator) eqn:E3;
    [|done]; cbn [negb].
  apply andb_true_iff in E3 as [E3 _]. apply N.leb_le in E3.
  destruct ((0 <? _) && negb _) eqn:E4.
  - destruct ((_ <=? _) && ModelToken.receives w royaltyRecipient) eqn:E5;
      [|done]; cbn [negb].
    apply andb_true_iff in E4 as [E4 E4']. apply N.ltb_lt in E4.
    apply negb_true_iff, N.eqb_neq in E4'.
    apply andb_true_iff in E5 as [E5 _]. apply N.leb_le in E5.
    intros [= <- <-]. unfold total; cbn. split; [done|]. split; [lia|]. split; [lia|].
    by left.
  - intros [= <- <-]. unfold total; cbn. split; [done|]. split; [lia|]. split; [lia|].
    right.
    split; [|done].
    apply andb_false_iff in E4 as [E4|E4].
    + left. apply N.ltb_ge in E4. lia.
    + right. by apply negb_false_iff, N.eqb_eq in E4.
Qed.

Lemma royaltyInfo_ok_inv id salePrice s R A s' t :
  ModelMarketplace.royaltyInfo id salePrice s = Ok ((R, A), s', t) ->
  R = ModelMarketplace.recipient (ModelMarketplace.royalties s)⟦id⟧ /\
  (R = 0 -> A = 0) /\
  (R <> 0 -> A = salePrice * ModelMarketplace.bps (ModelMarketplace.royalties s)⟦id⟧ / 10000).
Proof.
  rewrite royaltyInfo_eq; cbv zeta.
  destruct (_ =? 0) eqn:E.
  - apply N.eqb_eq in E. intros [= <- <- _ _]. done.
  - apply N.eqb_neq in E. destruct (_ <=? _); [|done]. intros [= <- <- _ _]. done.
Qed.

Lemma purchase_pays_total_price env id lt vids w w' t P :
  ModelToken.purchaseModel env id lt vids w = Ok (tt, w', t) ->
  ModelMarketplace.getTotalPrice id lt vids (ModelToken.marketplace w)
    = Ok (P, ModelToken.marketplace w, []) ->
  total (transfers t) = P /\
  ModelToken.balance w' = ModelToken.balance w + msg_value env - P /\
  P <= msg_value env /\
  Forall (fun p =>
            p.1 = ModelRegistry.creator (ModelRegistry.models (ModelToken.registry w))⟦id⟧
            \/ p.1 = ModelMarketplace.recipient
                       (ModelMarketplace.royalties (ModelToken.marketplace w))⟦id⟧)
         (transfers t).
Proof.
  intros H HP.
  destruct (purchaseModel_ok_inv _ _ _ _ _ _ _ H)
    as (P' & R & A & D & exp & td & _ & HP' & Hle & HR & _ & Hd & ->).
  rewrite HP in HP'. injection HP' as <-.
  destruct (royaltyInfo_ok_inv _ _ _ _ _ _ _ HR) as (HR1 & HR0 & _).
  destruct (_distributePayment_ok_inv _ _ _ _ _ _ _ Hd) as (Hra & Hbal & Hfunds & Hcases).
  cbn in Hbal, Hfunds.
  assert (R = 0 -> P * A / 10000 = 0) as HR0'
    by (intros Hz; by rewrite (HR0 Hz), N.mul_0_r).
  revert Hra Hbal Hfunds Hcases HR0'. generalize (P * A / 10000).
  intros ra Hra Hbal Hfunds Hcases HR0'.
  rewrite !transfers_app, app_nil_r.
  change (transfers purchase_writes) with (@nil (address * uint256)).
  cbn [app].
  assert (total (transfers td) = P) as Htot.
  { destruct Hcases as [(? & ? & ->)|([Hz|Hz] & ->)]; unfold total; cbn.
    - lia.
    - lia.
    - specialize (HR0' Hz). lia. }
  split; [done|]. split; [lia|]. split; [done|].
  destruct Hcases as [(? & ? & ->)|(_ & ->)]; cbn; repeat first [apply Forall_nil | apply Forall_cons; split]; cbn; auto.
Qed.

Lemma renew_pays_renewal_price env tokenId w w' t rp :
  ModelToken.renewLicense env tokenId w = Ok (tt, w', t) ->
  let snapshot := (ModelToken.purchaseSnapshots (ModelToken.storage w))⟦tokenId⟧ in
  let royalty := (ModelMarketplace.royalties (ModelToken.marketplace w))⟦ModelToken.modelId snapshot⟧ in
  ModelMarketplace.getLicensePrice (ModelToken.modelId snapshot)
    (ModelToken.licenseType (ModelToken.license snapshot)) (ModelToken.marketplace w)
    = Ok (rp, ModelToken.marketplace w, []) ->
  total (transfers t) <= rp /\
  (ModelMarketplace.recipient royalty <> 0 \/ ModelToken.royaltyBpsAtPurchase snapshot = 0 ->
   total (transfers t) = rp) /\
  ModelToken.balance w' = ModelToken.balance w + msg_value env - total (transfers t) /\
  rp <= msg_value env /\
  Forall (fun p =>
            p.1 = ModelRegistry.creator
                    (ModelRegistry.models (ModelToken.registry w))⟦ModelToken.modelId snapshot⟧
            \/ p.1 = ModelMarketplace.recipient royalty)
         (transfers t).
Proof.
  intros H snapshot royalty Hrp. revert H.
  rewrite renewLicense_eq; cbv zeta. fold snapshot. rewrite Hrp.
  destruct (_ =? 0); [done|]. destruct (negb (_ =? msg_sender env)); [done|].
  destruct (negb (0 <? _)); [done|]. destruct (ModelToken.burned _); [done|].
  destruct (rp <=? msg_value env) eqn:Ele; [|done]; cbn [negb]. apply N.leb_le in Ele.
  destruct (negb (_ + _ <=? MAX_UINT256)); [done|].
  destruct (negb (_ * _ <=? MAX_UINT256)); [done|].
  assert (ModelToken.royaltyBpsAtPurchase snapshot = 0 ->
          rp * ModelToken.royaltyBpsAtPurchase snapshot / 10000 = 0) as Hzero
    by (intros ->; by rewrite N.mul_0_r).
  revert Hzero. generalize (rp * ModelToken.royaltyBpsAtPurchase snapshot / 10000).
  intros ra Hzero.
  destruct (ra <=? rp) eqn:Era; [|done]; cbn [negb]. apply N.leb_le in Era.
  destruct ((_ <=? _) && _) eqn:E3; [|done]; cbn [negb].
  apply andb_true_iff in E3 as [E3 _]. apply N.leb_le in E3.
  destruct (0 <? ra) eqn:Epos.
  - apply N.ltb_lt in Epos.
    destruct (ModelMarketplace.royaltyInfo _ _ _) as [[[[R A] ?] ?]|] eqn:HR; [|done].
    destruct (royaltyInfo_ok_inv _ _ _ _ _ _ _ HR) as (HR1 & _ & _). fold royalty in HR1.
    destruct (R =? 0) eqn:ER; cbn [negb].
    + apply N.eqb_eq in ER. intros [= <- <-]. unfold total; cbn.
      split; [lia|]. split; [intros [?|?]; [congruence|specialize (Hzero ltac:(done)); lia]|].
      split; [lia|]. split; [done|]. repeat first [apply Forall_nil | apply Forall_cons; split]; cbn; auto.
    + destruct ((_ <=? _) && _) eqn:E5; [|done]; cbn [negb].
      apply andb_true_iff in E5 as [E5 _]. apply N.leb_le in E5.
      intros [= <- <-]. unfold total; cbn.
      split; [lia|]. split; [intros _; lia|]. split; [lia|]. split; [done|].
      repeat first [apply Forall_nil | apply Forall_cons; split]; cbn; auto.
  - apply N.ltb_ge in Epos. intros [= <- <-]. unfold total; cbn.
    split; [lia|]. split; [intros _; lia|]. split; [lia|]. split; [done|].
    repeat first [apply Forall_nil | apply Forall_cons; split]; cbn; auto.
Qed.

(** C9.  When the amount sent with [purchaseModel] or [renewLicense]
    exceeds the computed price, what is paid out is the computed price, to
    the model's creator and to the royalty recipient only; nothing goes back
    to the payer as change, and the excess stays in the balance of the token
    contract.  (A renewal pays out the whole renewal price when the model
    has a royalty recipient or the record carries no royalty; in a storage
    where neither holds, the royalty share stays in the contract too.) *)
Theorem excess_payment_is_kept :
  (forall env id lt vids w w' t P,
     ModelToken.purchaseModel env id lt vids w = Ok (tt, w', t) ->
     ModelMarketplace.getTotalPrice id lt vids (ModelToken.marketplace w)
       = Ok (P, ModelToken.marketplace w, []) ->
     P < msg_value env ->
     total (transfers t) = P /\
     ModelToken.balance w' = ModelToken.balance w + (msg_value env - P) /\
     ModelToken.balance w < ModelToken.balance w' /\
     Forall (fun p =>
               p.1 = ModelRegistry.creator
                       (ModelRegistry.models (ModelToken.registry w))⟦id⟧
               \/ p.1 = ModelMarketplace.recipient
                          (ModelMarketplace.royalties (ModelToken.marketplace w))⟦id⟧)
            (transfers t)) /\
  (forall env tokenId w w' t rp,
     let snapshot := (ModelToken.purchaseSnapshots (ModelToken.storage w))⟦tokenId⟧ in
     let royalty := (ModelMarketplace.royalties (ModelToken.marketplace w))⟦ModelToken.modelId snapshot⟧ in
     ModelToken.renewLicense env tokenId w = Ok (tt, w', t) ->
     ModelMarketplace.getLicensePrice (ModelToken.modelId snapshot)
       (ModelToken.licenseType (ModelToken.license snapshot)) (ModelToken.marketplace w)
       = Ok (rp, ModelToken.marketplace w, []) ->
     rp < msg_value env ->
     total (transfers t) <= rp /\
     (ModelMarketplace.recipient royalty <> 0
      \/ ModelToken.royaltyBpsAtPurchase snapshot = 0 -> total (transfers t) = rp) /\
     ModelToken.balance w'
       = ModelToken.balance w + rp - total (transfers t) + (msg_value env - rp) /\
     ModelToken.balance w < ModelToken.balance w' /\
     Forall (fun p =>
               p.1 = ModelRegistry.creator
                       (ModelRegistry.models (ModelToken.registry w))⟦ModelToken.modelId snapshot⟧
               \/ p.1 = ModelMarketplace.recipient royalty)
            (transfers t)).
Proof.
  split.
  - intros env id lt vids w w' t P H HP Hlt.
    destruct (purchase_pays_total_price _ _ _ _ _ _ _ _ H HP) as (Ht & Hb & _ & Hto).
    split; [done|]. split; [lia|]. split; [lia|]. done.
  - intros env tokenId w w' t rp snapshot royalty H Hrp Hlt.
    destruct (renew_pays_renewal_price _ _ _ _ _ _ H Hrp) as (Ht & Heq & Hb & _ & Hto).
    split; [done|]. split; [done|]. split; [lia|]. split; [lia|]. done.
Qed.

(** The buyer (13) sends 350 for the Commercial tier priced 300, and the
    owner (14) of record 0 sends 350 for a renewal priced 300: in both
    cases 300 are paid out and 50 stay in the contract. *)
Lemma excess_payment_350 :
  (exists w' t,
     ModelToken.purchaseModel (mkEnv 13 350 5000) 0 "commercial" [] token_world_live
       = Ok (tt, w', t) /\
     total (transfers t) = 300 /\
     ModelToken.balance w' = ModelToken.balance token_world_live + (350 - 300)) /\
  (exists w' t,
     ModelToken.renewLicense (mkEnv 14 350 5000) 0 token_world_live = Ok (tt, w', t) /\
     total (transfers t) = 300 /\
     ModelToken.balance w'
       = ModelToken.balance token_world_live + 300 - total (transfers t) + (350 - 300)).
Proof.
  split.
  - destruct (ModelToken.purchaseModel (mkEnv 13 350 5000) 0 "commercial" []
                token_world_live) as [[[[] w'] t]|e] eqn:Hrun; [|by vm_compute in Hrun].
    destruct (proj1 excess_payment_is_kept (mkEnv 13 350 5000) 0 "commercial" []
                token_world_live w' t 300 Hrun)
      as (Ht & Hb & _); [by vm_compute | by vm_compute |].
    exists w', t. done.
  - destruct (ModelToken.renewLicense (mkEnv 14 350 5000) 0 token_world_live)
      as [[[[] w'] t]|e] eqn:Hrun; [|by vm_compute in Hrun].
    destruct (proj2 excess_payment_is_kept (mkEnv 14 350 5000) 0 token_world_live w' t 300
                Hrun)
      as (_ & Ht & Hb & _); [by vm_compute | by vm_compute |].
    exists w', t. split; [done|]. split; [|done].
    apply Ht. left. by vm_compute.
Defined.

(* ================================================================= *)
(** * ModelToken: the outcomes of a purchase *)

Section PurchaseOutcomes.
Import ModelToken.

Lemma getLicensePrice_revert id lt s e :
  ModelMarketplace.getLicensePrice id lt s = Revert e ->
  e = Error "Marketplace: Invalid license type".
Proof.
  unfold ModelMarketplace.getLicensePrice, mbind, M_bind, bind, gets, mret, M_ret,
    ret, revert; cbn.
  intros H. repeat case_match; simplify_eq; done.
Qed.

Lemma getLicenseDuration_total id lt s :
  (exists D, ModelMarketplace.getLicenseDuration id lt s = Ok (D, s, []))
  \/ ModelMarketplace.getLicenseDuration id lt s
     = Revert (Error "Marketplace: Invalid license type").
Proof.
  unfold ModelMarketplace.getLicenseDuration, mbind, M_bind, bind, gets, mret, M_ret,
    ret, revert; cbn.
  repeat case_match; eauto.
Qed.

(** A tier that has a price has a duration. *)
Lemma getLicenseDuration_of_price id lt s P s' t :
  ModelMarketplace.getLicensePrice id lt s = Ok (P, s', t) ->
  exists D, ModelMarketplace.getLicenseDuration id lt s = Ok (D, s, []).
Proof.
  unfold ModelMarketplace.getLicensePrice, ModelMarketplace.getLicenseDuration,
    mbind, M_bind, bind, gets, mret, M_ret, ret, revert; cbn.
  intros H. repeat case_match; simplify_eq; eauto.
Qed.

Lemma getTotalPrice_loop_revert vs vids : forall total s e,
  ModelMarketplace.getTotalPrice_loop vs vids total s = Revert e ->
  e = Error "Marketplace: Invalid variation ID"
  \/ e = Error "Marketplace: Variation not active" \/ e = Panic.
Proof.
  induction vids as [|v vids IH]; intros total s e; cbn; [discriminate|].
  unfold mbind, M_bind, bind, require, lift, checked_add, ret, revert; cbn.
  destruct (v <? _); cbn; [|intros [= <-]; auto].
  destruct (vs !! N.to_nat v) as [x|]; cbn; [|intros [= <-]; auto].
  destruct (ModelMarketplace.active x); cbn; [|intros [= <-]; auto].
  destruct (_ <=? MAX_UINT256); cbn; [|intros [= <-]; auto].
  specialize (IH (total + ModelMarketplace.price x) s e).
  destruct (ModelMarketplace.getTotalPrice_loop _ _ _ _) as [[[? ?] ?]|e'];
    [discriminate|]. intros [= <-]. auto.
Qed.

Lemma getTotalPrice_revert id lt vids s e :
  ModelMarketplace.getTotalPrice id lt vids s = Revert e ->
  e = Error "Marketplace: Invalid license type"
  \/ e = Error "Marketplace: Invalid variation ID"
  \/ e = Error "Marketplace: Variation not active" \/ e = Panic.
Proof.
  unfold ModelMarketplace.getTotalPrice. intros H.
  apply bind_revert_inv in H as [H|(P & s1 & t1 & HP & H)].
  - left. by apply getLicensePrice_revert in H.
  - apply bind_revert_inv in H as [H|(vs & s2 & t2 & Hvs & H)]; [discriminate|].
    right. by apply getTotalPrice_loop_revert in H.
Qed.

Lemma getTotalPrice_has_duration id lt vids s P s' t :
  ModelMarketplace.getTotalPrice id lt vids s = Ok (P, s', t) ->
  exists D, ModelMarketplace.getLicenseDuration id lt s = Ok (D, s, []).
Proof.
  unfold ModelMarketplace.getTotalPrice. intros H.
  apply bind_ok_inv in H as (P0 & s1 & t1 & t2 & HP & _ & _).
  by apply getLicenseDuration_of_price in HP.
Qed.

Lemma _distributePayment_revert creator totalPrice royaltyRecipient royaltyBps w e :
  _distributePayment creator totalPrice royaltyRecipient royaltyBps w = Revert e ->
  e = Panic \/ e = TransferFailed.
Proof.
  rewrite _distributePayment_eq; cbv zeta.
  intros H. repeat case_match; simplify_eq; auto.
Qed.


Lemma _distributePayment_frame creator totalPrice royaltyRecipient royaltyBps w w' t :
  _distributePayment creator totalPrice royaltyRecipient royaltyBps w = Ok (tt, w', t) ->
  exists b, w' = set_balance b w.
Proof.
  rewrite _distributePayment_eq; cbv zeta.
  intros H. repeat case_match; simplify_eq; eauto.
Qed.

(** After the payment check, a purchase fails only on an arithmetic
    overflow, in the mint, or in a transfer. *)
Ltac purchase_tail id lt w :=
  rewrite royaltyInfo_eq; cbv zeta;
  (destruct (_ =? 0); [|destruct (_ <=? _); [|discriminate]]);
  (destruct (getLicenseDuration_total id lt (marketplace w)) as [[?D HD]|HD];
   rewrite HD; [|discriminate]);
  (match goal with
   | |- context [0 <? ?D] =>
       destruct (0 <? D); [unfold checked_add; destruct (_ <=? _); [|discriminate]|]
   end);
  repeat (destruct (_ =? 0); cbn [negb]; try discriminate);
  repeat (destruct (negb _); try discriminate);
  (match goal with
   | |- context [_distributePayment ?a ?b ?c ?d ?x] =>
       let Hd := fresh "Hd" in
       destruct (_distributePayment a b c d x) as [[[[] ?] ?]|?] eqn:Hd;
       [discriminate|];
       destruct (_distributePayment_revert _ _ _ _ _ _ Hd) as [-> | ->]; discriminate
   end).

Lemma purchase_unavailable_iff env id lt vids w :
  (_owners (storage w))⟦id⟧ <> 0 ->
  purchaseModel env id lt vids w = Revert Unavailable <-> available w id = false.
Proof.
  intros Hguard. rewrite purchaseModel_eq, canPurchase_eq; cbv zeta.
  fold (available w id).
  rewrite (proj2 (N.eqb_neq _ _) Hguard).
  destruct (available w id); cbn [negb]; [|done].
  split; [|done]. intros H. exfalso. revert H.
  destruct (ModelMarketplace.getTotalPrice _ _ _ _) as [[[P ?] ?]|e] eqn:HP.
  2:{ destruct (getTotalPrice_revert _ _ _ _ _ HP) as [-> | [-> | [-> | ->]]]; discriminate. }
  destruct (negb _); [discriminate|].
  purchase_tail id lt w.
Qed.

Lemma purchase_insufficient_iff env id lt vids w :
  (_owners (storage w))⟦id⟧ <> 0 ->
  purchaseModel env id lt vids w = Revert InsufficientPayment <->
  available w id = true /\
  exists P, ModelMarketplace.getTotalPrice id lt vids (marketplace w)
              = Ok (P, marketplace w, []) /\ msg_value env < P.
Proof.
  intros Hguard. rewrite purchaseModel_eq, canPurchase_eq; cbv zeta.
  fold (available w id).
  rewrite (proj2 (N.eqb_neq _ _) Hguard).
  destruct (available w id); cbn [negb]; [|split; [discriminate|by intros [? _]]].
  destruct (ModelMarketplace.getTotalPrice _ _ _ _) as [[[P s1] t1]|e] eqn:HP.
  2:{ split; [|by intros (_ & ? & ? & _)].
      destruct (getTotalPrice_revert _ _ _ _ _ HP) as [-> | [-> | [-> | ->]]]; discriminate. }
  destruct (getTotalPrice_pure _ _ _ _ _ _ _ HP) as [-> ->].
  destruct (P <=? msg_value env) eqn:Ele; cbn [negb].
  - apply N.leb_le in Ele. split; [|intros (_ & P' & [= <-] & ?); lia].
    intros H. exfalso. revert H. purchase_tail id lt w.
  - apply N.leb_gt in Ele. split; [|done]. intros _. split; [done|]. by exists P.
Qed.

Lemma purchase_price_error env id lt vids w e :
  (_owners (storage w))⟦id⟧ <> 0 -> available w id = true ->
  ModelMarketplace.getTotalPrice id lt vids (marketplace w) = Revert e ->
  purchaseModel env id lt vids w = Revert e.
Proof.
  intros Hguard Hav HP. rewrite purchaseModel_eq, canPurchase_eq; cbv zeta.
  fold (available w id).
  by rewrite (proj2 (N.eqb_neq _ _) Hguard), Hav, HP.
Qed.

(** The record a successful purchase creates. *)
Lemma purchase_creates_record env id lt vids w w' t :
  purchaseModel env id lt vids w = Ok (tt, w', t) ->
  let tokenId := _tokenIdCounter (storage w) in
  let record := (purchaseSnapshots (storage w'))⟦tokenId⟧ in
  _tokenIdCounter (storage w') = increment tokenId /\
  (_owners (storage w))⟦tokenId⟧ = 0 /\
  (_owners (storage w'))⟦tokenId⟧ = msg_sender env /\
  modelId record = id /\ licenseType (license record) = lt /\
  variationIds record = vids /\ purchasedAt record = block_timestamp env /\
  burned record = false /\ downloadKey record = "" /\
  exists P, ModelMarketplace.getTotalPrice id lt vids (marketplace w)
              = Ok (P, marketplace w, []) /\ pricePaid record = P.
Proof.
  rewrite purchaseModel_eq; cbv zeta.
  destruct (_ =? 0); [done|].
  destruct (ModelMarketplace.canPurchase _ _ _) as [[[[] ?] ?]|]; [|done..]; cbn [negb].
  destruct (ModelMarketplace.getTotalPrice _ _ _ _) as [[[P s1] t1]|] eqn:HP; [|done].
  destruct (getTotalPrice_pure _ _ _ _ _ _ _ HP) as [-> ->].
  destruct (negb _); [done|].
  destruct (ModelMarketplace.royaltyInfo _ _ _) as [[[[R A] ?] ?]|]; [|done].
  destruct (ModelMarketplace.getLicenseDuration _ _ _) as [[[D ?] ?]|]; [|done].
  destruct (if 0 <? D then _ else _) as [exp|]; [|done].
  destruct (msg_sender env =? 0); [done|].
  destruct (_ =? 0) eqn:Efree; cbn [negb]; [|done]. apply N.eqb_eq in Efree.
  destruct (negb _); [done|]. destruct (negb _); [done|].
  destruct (_distributePayment _ _ _ _ _) as [[[[] w1] td]|] eqn:Hd; [|done].
  intros [= <- <-].
  destruct (_distributePayment_frame _ _ _ _ _ _ _ Hd) as [b ->].
  cbn. rewrite !mapping_get_insert. cbn. eauto 12.
Qed.

(** Conditions under which the purchase goes through. *)
Lemma purchase_succeeds env id lt vids w P R A D :
  (_owners (storage w))⟦id⟧ <> 0 ->
  available w id = true ->
  ModelMarketplace.getTotalPrice id lt vids (marketplace w) = Ok (P, marketplace w, []) ->
  P <= msg_value env ->
  ModelMarketplace.royaltyInfo id P (marketplace w) = Ok ((R, A), marketplace w, []) ->
  ModelMarketplace.getLicenseDuration id lt (marketplace w) = Ok (D, marketplace w, []) ->
  block_timestamp env + D <= MAX_UINT256 ->
  msg_sender env <> 0 ->
  (_owners (storage w))⟦_tokenIdCounter (storage w)⟧ = 0 ->
  (modelPurchaseCount (storage w))⟦id⟧ < MAX_UINT256 ->
  (ModelMarketplace.soldCounts (marketplace w))⟦id⟧ < MAX_UINT256 ->
  P * A <= MAX_UINT256 ->
  P * A / 10000 <= P ->
  receives w (ModelRegistry.creator (ModelRegistry.models (registry w))⟦id⟧) = true ->
  receives w R = true ->
  exists w' t, purchaseModel env id lt vids w = Ok (tt, w', t).
Proof.
  intros Hguard Hav HP Hle HR HD Hexp Hs Hfree Hn Hsold Hmul Hsub Hrc HrR.
  rewrite purchaseModel_eq, canPurchase_eq; cbv zeta. fold (available w id).
  rewrite (proj2 (N.eqb_neq _ _) Hguard), Hav, HP, HR, HD; cbn [negb].
  rewrite (proj2 (N.leb_le _ _) Hle); cbn [negb].
  assert ((if 0 <? D then checked_add (block_timestamp env) D else Ok 0)
          = Ok (if 0 <? D then block_timestamp env + D else 0)) as ->.
  { destruct (0 <? D); [|done]. unfold checked_add.
    by rewrite (proj2 (N.leb_le _ _) Hexp). }
  rewrite (proj2 (N.eqb_neq _ _) Hs), Hfree; cbn [N.eqb negb].
  rewrite (proj2 (N.leb_le ((modelPurchaseCount (storage w))⟦id⟧ + 1) MAX_UINT256)) by lia.
  rewrite (proj2 (N.leb_le ((ModelMarketplace.soldCounts (marketplace w))⟦id⟧ + 1)
                           MAX_UINT256)) by lia.
  cbn [negb].
  rewrite _distributePayment_eq; cbv zeta.
  rewrite (proj2 (N.leb_le _ _) Hmul), (proj2 (N.leb_le _ _) Hsub); cbn [negb].
  cbn [purchase_effects balance receives]. rewrite Hrc, HrR.
  revert Hsub. generalize (P * A / 10000). intros ra Hsub.
  rewrite (proj2 (N.leb_le (P - ra) (balance w + msg_value env))) by lia.
  rewrite (proj2 (N.leb_le ra (balance w + msg_value env - (P - ra)))) by lia.
  cbn [andb negb]. destruct (_ && _); eauto.
Qed.

End PurchaseOutcomes.

(** X25.  [purchaseModel] past its entry guard, in any storage.  For a call
    that passes the guard [tokenExists(modelId)] (a live license record
    whose id equals the model id; the contract as deployed never holds
    one, see below): the purchase fails with [Unavailable] exactly when [canPurchase] is
    false; an error of [getTotalPrice] (unknown tier, variation out of range
    or inactive, overflow) is the error of the purchase; it fails with
    [InsufficientPayment] exactly when the model is available,
    [getTotalPrice] returns a price and the amount sent is below it; a
    successful purchase creates the record whose id is the current counter,
    owned by the caller; and the purchase does succeed when, besides, no
    arithmetic overflows, the caller is not the null address, the next
    record id is unused and the payouts are accepted. *)
Theorem purchaseModel_outcomes :
  forall env id lt vids w,
    (ModelToken._owners (ModelToken.storage w))⟦id⟧ <> 0 ->
    let price := ModelMarketplace.getTotalPrice id lt vids (ModelToken.marketplace w) in
    let result := ModelToken.purchaseModel env id lt vids w in
    let tokenId := ModelToken._tokenIdCounter (ModelToken.storage w) in
    ModelMarketplace.canPurchase (ModelToken.registry w) id (ModelToken.marketplace w)
      = Ok (available w id, ModelToken.marketplace w, []) /\
    (result = Revert Unavailable <-> available w id = false) /\
    (forall e, available w id = true -> price = Revert e -> result = Revert e) /\
    (result = Revert InsufficientPayment <->
     available w id = true /\
     exists P, price = Ok (P, ModelToken.marketplace w, []) /\ msg_value env < P) /\
    (forall w' t,
       result = Ok (tt, w', t) ->
       let record := (ModelToken.purchaseSnapshots (ModelToken.storage w'))⟦tokenId⟧ in
       available w id = true /\
       (exists P, price = Ok (P, ModelToken.marketplace w, []) /\ P <= msg_value env /\
                  ModelToken.pricePaid record = P) /\
       (ModelToken._owners (ModelToken.storage w))⟦tokenId⟧ = 0 /\
       (ModelToken._owners (ModelToken.storage w'))⟦tokenId⟧ = msg_sender env /\
       ModelToken._tokenIdCounter (ModelToken.storage w') = increment tokenId /\
       ModelToken.modelId record = id /\
       ModelToken.licenseType (ModelToken.license record) = lt /\
       ModelToken.variationIds record = vids /\
       ModelToken.burned record = false) /\
    (forall P R A D,
       available w id = true ->
       price = Ok (P, ModelToken.marketplace w, []) ->
       P <= msg_value env ->
       ModelMarketplace.royaltyInfo id P (ModelToken.marketplace w)
         = Ok ((R, A), ModelToken.marketplace w, []) ->
       ModelMarketplace.getLicenseDuration id lt (ModelToken.marketplace w)
         = Ok (D, ModelToken.marketplace w, []) ->
       block_timestamp env + D <= MAX_UINT256 ->
       msg_sender env <> 0 ->
       (ModelToken._owners (ModelToken.storage w))⟦tokenId⟧ = 0 ->
       (ModelToken.modelPurchaseCount (ModelToken.storage w))⟦id⟧ < MAX_UINT256 ->
       (ModelMarketplace.soldCounts (ModelToken.marketplace w))⟦id⟧ < MAX_UINT256 ->
       P * A <= MAX_UINT256 ->
       P * A / 10000 <= P ->
       ModelToken.receives w
         (ModelRegistry.creator (ModelRegistry.models (ModelToken.registry w))⟦id⟧) = true ->
       ModelToken.receives w R = true ->
       exists w' t, result = Ok (tt, w', t)).
Proof.
  intros env id lt vids w Hguard price result tokenId.
  split; [apply canPurchase_eq|].
  split; [by apply purchase_unavailable_iff|].
  split; [intros e Hav He; by apply purchase_price_error|].
  split; [by apply purchase_insufficient_iff|].
  split.
  - intros w' t Hok record.
    destruct (purchase_creates_record _ _ _ _ _ _ _ Hok)
      as (Hc & Hfree & Hown & Hid & Hlt & Hv & _ & Hb & _ & P & HP & Hpaid).
    destruct (purchase_pays_total_price _ _ _ _ _ _ _ _ Hok HP) as (_ & _ & Hle & _).
    split.
    + destruct (available w id) eqn:Hav; [done|].
      apply (purchase_unavailable_iff env id lt vids w Hguard) in Hav.
      unfold result in Hok. congruence.
    + split; [by exists P|]. done.
  - intros P R A D. by apply purchase_succeeds.
Qed.

(** A purchase that goes through: buyer 13 pays 300 for the Commercial tier
    of model 0 in the storage where record 0 is live. *)
Lemma purchaseModel_commercial_300 :
  exists w' t,
    ModelToken.purchaseModel (mkEnv 13 300 5000) 0 "commercial" [] token_world_live
      = Ok (tt, w', t).
Proof.
  apply (proj2 (proj2 (proj2 (proj2 (proj2
           (purchaseModel_outcomes (mkEnv 13 300 5000) 0 "commercial" [] token_world_live
              ltac:(by vm_compute))))))
           300 12 30 ONE_YEAR);
    first [by vm_compute | reflexivity].
Defined.

(** Further outcomes past the guard.  With record 0 live, model 0
    available and 1000 sent: an unknown tier makes the purchase fail with the
    marketplace's error, and a creator that does not accept transfers makes
    it fail in the payout; and when the model is not for sale and nothing is
    sent, the failure is [Unavailable] although the amount is below the
    price. *)
Lemma purchaseModel_other_outcomes :
  ModelMarketplace.canPurchase scenario_registry 0 scenario_marketplace
    = Ok (true, scenario_marketplace, []) /\
  ModelToken.purchaseModel (mkEnv 13 1000 5000) 0 "gold" [] token_world_live
    = Revert (Error "Marketplace: Invalid license type") /\
  ModelMarketplace.getTotalPrice 0 "commercial" [] scenario_marketplace
    = Ok (300, scenario_marketplace, []) /\
  ModelToken.purchaseModel (mkEnv 13 1000 5000) 0 "commercial" []
    (ModelToken.mkWorld scenario_registry scenario_marketplace
       (ModelToken.storage token_world_live) 100 0 (fun a => negb (a =? 11)))
    = Revert TransferFailed /\
  ModelToken.purchaseModel (mkEnv 13 0 5000) 0 "commercial" []
    (ModelToken.set_marketplace
       (ModelMarketplace.set_forSale ∅ scenario_marketplace) token_world_live)
    = Revert Unavailable.
Proof. by vm_compute. Qed.

(** On the contract as deployed no record exists, and the entry guard
    [tokenExists(modelId)] rejects the purchase of the scenario. *)
Example purchase_on_fresh_deployment :
  ModelToken.purchaseModel (mkEnv 13 300 5000) 0 "commercial" [] token_world_fresh
    = Revert TokenDoesNotExist.
Proof. by vm_compute. Qed.

(** What a successful purchase of a model with a royalty recipient pays:
    the value [royaltyInfo] returns is the royalty amount, and
    [_distributePayment] applies it to the price once more as if it were the
    rate. *)
Lemma purchase_distribution env id lt vids w w' t P :
  ModelToken.purchaseModel env id lt vids w = Ok (tt, w', t) ->
  ModelMarketplace.getTotalPrice id lt vids (ModelToken.marketplace w)
    = Ok (P, ModelToken.marketplace w, []) ->
  let royalty := (ModelMarketplace.royalties (ModelToken.marketplace w))⟦id⟧ in
  let creator := ModelRegistry.creator (ModelRegistry.models (ModelToken.registry w))⟦id⟧ in
  ModelMarketplace.recipient royalty <> 0 ->
  let amount := P * ModelMarketplace.bps royalty / 10000 in
  let paid := P * amount / 10000 in
  transfers t
    = (creator, P - paid)
      :: (if 0 <? paid then [(ModelMarketplace.recipient royalty, paid)] else []).
Proof.
  intros H HP royalty creator HR amount paid.
  destruct (purchaseModel_ok_inv _ _ _ _ _ _ _ H)
    as (P' & R & A & D & exp & td & _ & HP' & _ & HRI & _ & Hd & ->).
  rewrite HP in HP'. injection HP' as <-.
  destruct (royaltyInfo_ok_inv _ _ _ _ _ _ _ HRI) as (HR1 & _ & HA).
  fold royalty in HR1, HA. subst R. specialize (HA HR). subst A.
  destruct (_distributePayment_ok_inv _ _ _ _ _ _ _ Hd) as (_ & _ & _ & Hcases).
  fold amount paid in Hcases.
  rewrite !transfers_app, app_nil_r.
  change (transfers purchase_writes) with (@nil (address * uint256)). cbn [app].
  destruct Hcases as [(Hpos & _ & ->)|([Hz|Hz] & ->)]; cbn.
  - by rewrite (proj2 (N.ltb_lt _ _) Hpos).
  - by rewrite Hz.
  - done.
Qed.

(** C1 (the code departs from the claim).  In the scenario of the spec
    (price 300, royalty 1000 bps to R at 12, creator C1 at 11) the purchase
    pays 300 to the creator and nothing to R, and the record stores 30 as
    its royalty rate; at price 20000 R is paid 4000 instead of 2000; at a
    price of 10^18 the purchase aborts on an arithmetic underflow. *)
Theorem purchase_pays_royalty_of_royalty :
  ModelMarketplace.royaltyInfo 0 300 scenario_marketplace
    = Ok ((12, 30), scenario_marketplace, []) /\
  (exists w',
     ModelToken.purchaseModel (mkEnv 13 300 5000) 0 "commercial" [] token_world_live
       = Ok (tt, w', purchase_writes ++ [Transfer 11 300; Emit "ModelPurchased"]) /\
     ModelToken.royaltyBpsAtPurchase
       (ModelToken.purchaseSnapshots (ModelToken.storage w'))⟦1⟧ = 30) /\
  (exists w',
     ModelToken.purchaseModel (mkEnv 13 20000 5000) 0 "commercial" []
       (token_world_priced 20000)
       = Ok (tt, w', purchase_writes
                      ++ [Transfer 11 16000; Transfer 12 4000; Emit "ModelPurchased"])) /\
  ModelToken.purchaseModel (mkEnv 13 (10 ^ 18) 5000) 0 "commercial" []
    (token_world_priced (10 ^ 18)) = Revert Panic.
Proof.
  split; [by vm_compute|].
  split; [eexists; split; [by vm_compute | by vm_compute]|].
  split; [eexists; by vm_compute | by vm_compute].
Qed.

(** [purchaseModel] and [renewLicense] write before they transfer. *)
Lemma purchaseModel_writes_before_transfers env id lt vids w w' t :
  ModelToken.purchaseModel env id lt vids w = Ok (tt, w', t) ->
  writes_before_transfers t = true.
Proof.
  intros H.
  destruct (purchaseModel_ok_inv _ _ _ _ _ _ _ H)
    as (P' & R & A & D & exp & td & _ & _ & _ & _ & _ & Hd & ->).
  destruct (_distributePayment_ok_inv _ _ _ _ _ _ _ Hd) as (_ & _ & _ & Hcases).
  by destruct Hcases as [(_ & _ & ->)|(_ & ->)].
Qed.

Lemma renewLicense_writes_before_transfers env tokenId w w' t :
  ModelToken.renewLicense env tokenId w = Ok (tt, w', t) ->
  writes_before_transfers t = true.
Proof.
  rewrite renewLicense_eq; cbv zeta.
  intros H. repeat case_match; simplify_eq; done.
Qed.

(* ================================================================= *)
(** * ModelToken: burn for download *)

Section Burn.
Import ModelToken.
Variable keccak256 : list N -> uint256.

Lemma burnForDownload_eq env tokenId w :
  burnForDownload keccak256 env tokenId w =
    let snapshot := (purchaseSnapshots (storage w))⟦tokenId⟧ in
    let owner := (_owners (storage w))⟦tokenId⟧ in
    let key := "key_" +:+ _toString tokenId +:+ "_" +:+ _toString (block_timestamp env)
               +:+ "_" +:+ _toString (keccak256 [tokenId; block_timestamp env;
                                                 msg_sender env]) in
    if owner =? 0 then Revert TokenDoesNotExist else
    if negb (owner =? msg_sender env) then Revert (Error "ModelToken: Not token owner") else
    if burned snapshot then Revert AlreadyBurned else
    if negb (if expiresAt (license snapshot) =? 0 then true
             else block_timestamp env <=? expiresAt (license snapshot))
    then Revert (Error "ModelToken: License expired") else
    Ok (tt,
        set_storage
          (set_owners (<[tokenId := 0]> (_owners (storage w)))
             (set_balances
                (<[owner := ((_balances (storage w))⟦owner⟧ + (2 ^ 256 - 1)) mod 2 ^ 256]>
                   (_balances (storage w)))
                (set_tokenApprovals (<[tokenId := 0]> (_tokenApprovals (storage w)))
                   (set_purchaseSnapshots
                      (<[tokenId := set_downloadKey key (set_burned true snapshot)]>
                         (purchaseSnapshots (storage w))) (storage w))))) w,
        [SStore "purchaseSnapshots"; SStore "purchaseSnapshots"; SStore "_tokenApprovals";
         SStore "_balances"; SStore "_owners"; Emit "Transfer"; Emit "TokenBurned"]).
Proof.
  cbv zeta.
  unfold burnForDownload, tokenExists, onlyTokenOwner, ownerOf, _exists, _ownerOf,
    isLicenseValid, _generateDownloadKey, _burn, _update, ERC721_update, store,
    mbind, M_bind, bind, gets, require, sstore, emit, mret, M_ret, ret, revert.
  cbn.
  destruct ((_owners (storage w))⟦tokenId⟧ =? 0) eqn:E0; cbn; [done|].
  rewrite E0; cbn.
  destruct ((_owners (storage w))⟦tokenId⟧ =? msg_sender env); cbn; [|done].
  destruct (burned _); cbn; [done|].
  destruct (expiresAt _ =? 0); cbn.
  2: destruct (block_timestamp env <=? _); cbn; [|done].
  all: rewrite !mapping_get_insert, !insert_insert_eq, E0; cbn; rewrite E0; cbn.
  all: rewrite ?E0; reflexivity.
Qed.


Lemma setDownloadKey_eq env tokenId key w :
  setDownloadKey env tokenId key w =
    let snapshot := (purchaseSnapshots (storage w))⟦tokenId⟧ in
    if negb (_owner (storage w) =? msg_sender env)
    then Revert (Error "OwnableUnauthorizedAccount")
    else if negb (burned snapshot) then Revert (Error "ModelToken: Token not burned")
    else Ok (tt,
             set_storage
               (set_purchaseSnapshots
                  (<[tokenId := set_downloadKey key snapshot]> (purchaseSnapshots (storage w)))
                  (storage w)) w,
             [SStore "purchaseSnapshots"]).
Proof.
  unfold setDownloadKey, onlyOwner, store,
    mbind, M_bind, bind, gets, require, sstore, ret, revert; cbn.
  destruct (_ =? _); cbn; [|done]. by destruct (burned _).
Qed.

Ltac token_inv :=
  repeat first
    [ minv1
    | match goal with
      | H : store _ _ _ = Ok _ |- _ => unfold store in H
      | H : revert _ _ = Ok _ |- _ => discriminate H
      | H : (if ?c then _ else _) _ = Ok _ |- _ => destruct c eqn:?
      | H : _ownerOf _ _ = Ok _ |- _ => unfold _ownerOf in H
      | H : ownerOf _ _ = Ok _ |- _ => unfold ownerOf in H
      | H : isApprovedForAll _ _ _ = Ok _ |- _ => unfold isApprovedForAll in H
      | H : _getApproved _ _ = Ok _ |- _ => unfold _getApproved in H
      | H : _isAuthorized _ _ _ _ = Ok _ |- _ => unfold _isAuthorized in H
      | H : _checkAuthorized _ _ _ _ = Ok _ |- _ => unfold _checkAuthorized in H
      | H : onlyOwner _ _ = Ok _ |- _ => unfold onlyOwner in H
      | H : ERC721_update _ _ _ _ = Ok _ |- _ => unfold ERC721_update in H
      | H : _update _ _ _ _ = Ok _ |- _ => unfold _update in H
      end ].

(** A transfer moves an existing token only. *)
Lemma transferFrom_ok_inv env from to tokenId' w w' t :
  transferFrom env from to tokenId' w = Ok (tt, w', t) ->
  msg_sender env <> 0 ->
  let owner := (_owners (storage w))⟦tokenId'⟧ in
  ((owner =? msg_sender env)
   || (_operatorApprovals (storage w))⟦(owner, msg_sender env)⟧
   || ((_tokenApprovals (storage w))⟦tokenId'⟧ =? msg_sender env)) = true /\
  purchaseSnapshots (storage w') = purchaseSnapshots (storage w) /\
  _tokenIdCounter (storage w') = _tokenIdCounter (storage w) /\
  _operatorApprovals (storage w') = _operatorApprovals (storage w) /\
  (forall id, id <> tokenId' ->
     (_owners (storage w'))⟦id⟧ = (_owners (storage w))⟦id⟧ /\
     (_tokenApprovals (storage w'))⟦id⟧ = (_tokenApprovals (storage w))⟦id⟧).
Proof.
  intros H Hs. unfold transferFrom in H. token_inv; try discriminate.
  all: cbn in *.
  all: try match goal with
           | H : negb (msg_sender _ =? 0) = false |- _ =>
               apply negb_false_iff, N.eqb_eq in H; congruence
           end.
  all: split;
    [match goal with
     | H : true = negb (msg_sender _ =? 0) && _ |- _ =>
         symmetry in H; apply andb_true_iff in H as [_ H]; exact H
     end|].
  all: split; [done|]; split; [done|]; split; [done|].
  all: intros id Hne; by rewrite ?mapping_get_insert_ne.
Qed.


Lemma increment_small c : c < MAX_UINT256 -> increment c = c + 1.
Proof.
  unfold increment, MAX_UINT256. intros H. apply N.mod_small. lia.
Qed.

Lemma purchase_storage env id lt vids w w' t :
  purchaseModel env id lt vids w = Ok (tt, w', t) ->
  (_owners (storage w))⟦id⟧ <> 0 /\
  exists P A D exp b, w' = set_balance b (purchase_effects env id lt vids P A D exp w).
Proof.
  intros H.
  destruct (purchaseModel_ok_inv _ _ _ _ _ _ _ H)
    as (P & R & A & D & exp & td & Hg & _ & _ & _ & _ & Hd & _).
  destruct (_distributePayment_frame _ _ _ _ _ _ _ Hd) as [b ->]. eauto 10.
Qed.

Lemma renew_storage env tokenId' w w' t :
  renewLicense env tokenId' w = Ok (tt, w', t) ->
  (_owners (storage w))⟦tokenId'⟧ <> 0 /\
  exists x b,
    w' = mkWorld (registry w) (marketplace w)
           (set_purchaseSnapshots
              (<[tokenId' := set_expiresAt x (purchaseSnapshots (storage w))⟦tokenId'⟧]>
                 (purchaseSnapshots (storage w))) (storage w))
           (this w) b (receives w).
Proof.
  rewrite renewLicense_eq; cbv zeta.
  destruct (_ =? 0) eqn:E0; [done|]. apply N.eqb_neq in E0.
  intros H. split; [done|].
  repeat case_match; simplify_eq; eauto.
Qed.

(** Every transaction of the token contract leaves a retired record
    retired, and only [setDownloadKey] on that record changes its key. *)
Lemma exec_keeps_retired env c tokenId w w' t :
  retired tokenId w -> msg_sender env <> 0 ->
  _tokenIdCounter (storage w) < MAX_UINT256 ->
  exec keccak256 env c w = Ok (tt, w', t) ->
  retired tokenId w' /\
  _tokenIdCounter (storage w') <= _tokenIdCounter (storage w) + 1 /\
  (is_setDownloadKey tokenId (Tx env c) = false -> key_of tokenId w' = key_of tokenId w).
Proof.
  intros (Hb & Ho & Ha & Hc & Hop) Hs Hmax H.
  unfold retired, key_of.
  destruct c as [id lt vids|t'|t' k|t'|from to t'|to t'|operator approved|newOwner|];
    cbn [exec is_setDownloadKey] in *.
  - destruct (purchase_storage _ _ _ _ _ _ _ H) as (_ & P & A & D & exp & b & ->).
    cbn. rewrite increment_small by done.
    assert (_tokenIdCounter (storage w) <> tokenId) by lia.
    rewrite !mapping_get_insert_ne by done.
    repeat split; try done; try lia.
  - rewrite burnForDownload_eq in H; cbv zeta in H.
    destruct (_ =? 0) eqn:E0; [done|]. apply N.eqb_neq in E0.
    assert (t' <> tokenId) by congruence.
    repeat case_match; simplify_eq; cbn;
      rewrite !mapping_get_insert_ne by done; repeat split; try done; try lia.
  - rewrite setDownloadKey_eq in H; cbv zeta in H.
    repeat case_match; simplify_eq; cbn;
      (destruct (N.eqb_spec t' tokenId) as [->|Hne];
       [rewrite !mapping_get_insert; cbn | rewrite !mapping_get_insert_ne by done]);
      repeat split; try done; try lia.
  - destruct (renew_storage _ _ _ _ _ H) as (E0 & x & b & ->).
    assert (t' <> tokenId) by congruence. cbn.
    rewrite !mapping_get_insert_ne by done. repeat split; try done; try lia.
  - destruct (transferFrom_ok_inv _ _ _ _ _ _ _ H Hs) as (Hauth & Hsn & Hcnt & Hopp & Hfr).
    assert (t' <> tokenId) as Hne.
    { intros ->. rewrite Ho, Hop, Ha in Hauth.
      destruct (N.eqb_spec 0 (msg_sender env)); [congruence|]. discriminate. }
    destruct (Hfr tokenId ltac:(congruence)) as [-> ->].
    rewrite Hsn, Hcnt, Hopp. repeat split; try done; try lia.
  - unfold approve in H. token_inv; try discriminate.
    all: cbn in *.
    all: match goal with
         | E : ((_owners _)⟦_⟧ =? 0) = false |- _ => apply N.eqb_neq in E
         end.
    all: assert (t' <> tokenId) by congruence.
    all: rewrite ?mapping_get_insert_ne by done; repeat split; try done; try lia.
  - unfold setApprovalForAll in H. token_inv; try discriminate.
    all: cbn; repeat split; try done; try lia.
    all: intros x; rewrite mapping_get_insert_ne; [done|]; intros [= ? ?]; congruence.
  - unfold transferOwnership in H. token_inv; try discriminate.
    all: cbn; repeat split; try done; try lia.
  - unfold renounceOwnership in H. token_inv; try discriminate.
    all: cbn; repeat split; try done; try lia.
Qed.


Lemma step_keeps_retired a tokenId w :
  retired tokenId w -> _tokenIdCounter (storage w) < MAX_UINT256 ->
  retired tokenId (step keccak256 a w) /\
  _tokenIdCounter (storage (step keccak256 a w)) <= _tokenIdCounter (storage w) + 1 /\
  (is_admin_rekey tokenId a w = false ->
   key_of tokenId (step keccak256 a w) = key_of tokenId w).
Proof.
  intros Hr Hmax. destruct a as [env c|registry' marketplace']; cbn [step].
  - destruct (N.eqb_spec (msg_sender env) 0) as [|Hs]; [split; [done|split; [lia|done]]|].
    destruct (exec keccak256 env c w) as [[[[] w'] t]|e] eqn:Hexec;
      [|split; [done|split; [lia|done]]].
    destruct (exec_keeps_retired _ _ _ _ _ _ Hr Hs Hmax Hexec) as (Hr' & Hc' & Hk).
    split; [done|]. split; [done|].
    unfold is_admin_rekey. intros Hadm.
    destruct (is_setDownloadKey tokenId (Tx env c)) eqn:Eset; [|by apply Hk].
    cbn [andb] in Hadm. destruct c; try discriminate. cbn [exec] in Hexec.
    rewrite setDownloadKey_eq, Hadm in Hexec. discriminate.
  - split; [exact Hr|]. split; [cbn; lia|done].
Qed.

Lemma run_keeps_retired tokenId actions : forall w,
  retired tokenId w ->
  _tokenIdCounter (storage w) + N.of_nat (length actions) <= MAX_UINT256 ->
  retired tokenId (run keccak256 actions w) /\
  (admin_rekeys keccak256 tokenId actions w = false ->
   key_of tokenId (run keccak256 actions w) = key_of tokenId w).
Proof.
  induction actions as [|a actions IH]; intros w Hr Hlen; [done|].
  change (run keccak256 (a :: actions) w) with (run keccak256 actions (step keccak256 a w)).
  cbn [length admin_rekeys] in *.
  destruct (step_keeps_retired a tokenId w Hr ltac:(lia)) as (Hr' & Hc' & Hk).
  destruct (IH _ Hr' ltac:(lia)) as (Hr'' & Hk').
  split; [done|]. intros Hadm. apply orb_false_iff in Hadm as [H1 H2].
  by rewrite Hk', Hk.
Qed.

(** What a successful burn leaves. *)
Lemma burn_retires env tokenId w w1 t :
  burnForDownload keccak256 env tokenId w = Ok (tt, w1, t) ->
  tokenId < _tokenIdCounter (storage w) ->
  (forall operator, (_operatorApprovals (storage w))⟦(0, operator)⟧ = false) ->
  retired tokenId w1 /\
  _tokenIdCounter (storage w1) = _tokenIdCounter (storage w) /\
  key_of tokenId w1
    = "key_" +:+ _toString tokenId +:+ "_" +:+ _toString (block_timestamp env)
      +:+ "_" +:+ _toString (keccak256 [tokenId; block_timestamp env; msg_sender env]).
Proof.
  rewrite burnForDownload_eq; cbv zeta. intros H Hc Hop.
  unfold retired, key_of.
  repeat case_match; simplify_eq; cbn; rewrite !mapping_get_insert; done.
Qed.

(** What can still be done with a retired record. *)
Lemma retired_is_terminal tokenId w :
  retired tokenId w ->
  (forall env, burnForDownload keccak256 env tokenId w = Revert TokenDoesNotExist) /\
  (forall env, renewLicense env tokenId w = Revert TokenDoesNotExist) /\
  (forall env from to, msg_sender env <> 0 ->
     exists e, transferFrom env from to tokenId w = Revert e) /\
  (forall env key,
     setDownloadKey env tokenId key w =
       if _owner (storage w) =? msg_sender env then
         Ok (tt,
             set_storage
               (set_purchaseSnapshots
                  (<[tokenId := set_downloadKey key (purchaseSnapshots (storage w))⟦tokenId⟧]>
                     (purchaseSnapshots (storage w))) (storage w)) w,
             [SStore "purchaseSnapshots"])
       else Revert (Error "OwnableUnauthorizedAccount")).
Proof.
  intros (Hb & Ho & Ha & Hc & Hop).
  split; [intros env; rewrite burnForDownload_eq; cbv zeta; by rewrite Ho|].
  split; [intros env; rewrite renewLicense_eq; cbv zeta; by rewrite Ho|].
  split.
  - intros env from to Hs.
    destruct (transferFrom env from to tokenId w) as [[[[] w'] t]|e] eqn:H; [|eauto].
    destruct (transferFrom_ok_inv _ _ _ _ _ _ _ H Hs) as (Hauth & _).
    rewrite Ho, Hop, Ha in Hauth.
    destruct (N.eqb_spec 0 (msg_sender env)); [congruence|]. discriminate.
  - intros env key. rewrite setDownloadKey_eq; cbv zeta. rewrite Hb.
    by destruct (_ =? _).
Qed.

End Burn.

(** X26.  A burned record in any storage.  Once [burnForDownload] has
    succeeded on an issued record (the contract as deployed never holds
    one, see below), then after any further transactions on the token by any
    callers (and anything the other contracts do), as long as the record
    counter does not wrap around: the record is still burned and has no
    owner; a second [burnForDownload] fails, at the entry guard, with
    "Token does not exist" (the "Already burned" check is not reached); no
    [transferFrom] of it succeeds; and its download key is the one the burn
    generated unless the owner of the contract has called [setDownloadKey]
    on it, which only the owner can do and which overwrites the key. *)
Theorem burned_record_is_terminal :
  forall keccak256 env tokenId w w1 t actions,
    ModelToken.burnForDownload keccak256 env tokenId w = Ok (tt, w1, t) ->
    tokenId < ModelToken._tokenIdCounter (ModelToken.storage w) ->
    (forall operator,
       (ModelToken._operatorApprovals (ModelToken.storage w))⟦(0, operator)⟧ = false) ->
    ModelToken._tokenIdCounter (ModelToken.storage w) + N.of_nat (length actions)
      <= MAX_UINT256 ->
    let w2 := ModelToken.run keccak256 actions w1 in
    key_of tokenId w1
      = "key_" +:+ ModelToken._toString tokenId
        +:+ "_" +:+ ModelToken._toString (block_timestamp env)
        +:+ "_" +:+ ModelToken._toString
                      (keccak256 [tokenId; block_timestamp env; msg_sender env]) /\
    ModelToken.burned
      (ModelToken.purchaseSnapshots (ModelToken.storage w2))⟦tokenId⟧ = true /\
    (ModelToken._owners (ModelToken.storage w2))⟦tokenId⟧ = 0 /\
    (forall env',
       ModelToken.burnForDownload keccak256 env' tokenId w2 = Revert TokenDoesNotExist) /\
    (forall env' from to,
       msg_sender env' <> 0 ->
       exists e, ModelToken.transferFrom env' from to tokenId w2 = Revert e) /\
    (admin_rekeys keccak256 tokenId actions w1 = false ->
     key_of tokenId w2 = key_of tokenId w1) /\
    (forall env' key,
       ModelToken._owner (ModelToken.storage w2) <> msg_sender env' ->
       ModelToken.setDownloadKey env' tokenId key w2
         = Revert (Error "OwnableUnauthorizedAccount")) /\
    (forall env' key,
       ModelToken._owner (ModelToken.storage w2) = msg_sender env' ->
       exists w3 t3,
         ModelToken.setDownloadKey env' tokenId key w2 = Ok (tt, w3, t3) /\
         key_of tokenId w3 = key).
Proof.
  intros keccak256 env tokenId w w1 t actions Hburn Hissued Hop Hlen w2.
  destruct (burn_retires keccak256 _ _ _ _ _ Hburn Hissued Hop) as (Hr1 & Hc1 & Hkey).
  destruct (run_keeps_retired keccak256 tokenId actions w1 Hr1 ltac:(lia)) as (Hr2 & Hk2).
  fold w2 in Hr2, Hk2.
  destruct (retired_is_terminal keccak256 tokenId w2 Hr2) as (Hb & _ & Htr & Hset).
  destruct Hr2 as (Hburned & Howner & _).
  split; [done|]. split; [done|]. split; [done|]. split; [done|]. split; [done|].
  split; [done|]. split.
  - intros env' key Hne. rewrite Hset. by rewrite (proj2 (N.eqb_neq _ _) Hne).
  - intros env' key Heq. rewrite Hset, (proj2 (N.eqb_eq _ _) Heq).
    eexists _, _. split; [done|]. unfold key_of; cbn. by rewrite mapping_get_insert.
Qed.

(** The owner (14) of record 0 burns it at time 5000.  Afterwards a
    stranger tries to set the key, the former owner tries to burn and to
    transfer it again, somebody tries a purchase and the marketplace moves
    on: the record stays burned and keeps its key. *)
Lemma burned_record_0 :
  exists w1 t,
    ModelToken.burnForDownload const_hash (mkEnv 14 0 5000) 0 token_world_live
      = Ok (tt, w1, t) /\
    let w2 := ModelToken.run const_hash
                [ModelToken.Tx (mkEnv 66 0 6000) (ModelToken.SetDownloadKey 0 "stolen");
                 ModelToken.Tx (mkEnv 14 0 6100) (ModelToken.BurnForDownload 0);
                 ModelToken.Tx (mkEnv 14 0 6200) (ModelToken.TransferFrom 14 15 0);
                 ModelToken.Tx (mkEnv 13 300 6300)
                   (ModelToken.PurchaseModel 0 "commercial" []);
                 ModelToken.Others scenario_registry scenario_marketplace] w1 in
    key_of 0 w1 = "key_0_5000_7" /\
    ModelToken.burned (ModelToken.purchaseSnapshots (ModelToken.storage w2))⟦0⟧ = true /\
    (ModelToken._owners (ModelToken.storage w2))⟦0⟧ = 0 /\
    key_of 0 w2 = key_of 0 w1.
Proof.
  destruct (ModelToken.burnForDownload const_hash (mkEnv 14 0 5000) 0 token_world_live)
    as [[[[] w1] t]|e] eqn:Hburn; [|by vm_compute in Hburn].
  exists w1, t. split; [reflexivity|].
  pose proof (burned_record_is_terminal const_hash (mkEnv 14 0 5000) 0 token_world_live
                w1 t
                [ModelToken.Tx (mkEnv 66 0 6000) (ModelToken.SetDownloadKey 0 "stolen");
                 ModelToken.Tx (mkEnv 14 0 6100) (ModelToken.BurnForDownload 0);
                 ModelToken.Tx (mkEnv 14 0 6200) (ModelToken.TransferFrom 14 15 0);
                 ModelToken.Tx (mkEnv 13 300 6300)
                   (ModelToken.PurchaseModel 0 "commercial" []);
                 ModelToken.Others scenario_registry scenario_marketplace]
                Hburn) as Hterminal.
  destruct Hterminal as (Hkey & Hburned & Howner & _ & _ & Hkept & _).
  - by vm_compute.
  - intros operator. unfold mapping_get. cbn. by rewrite lookup_empty.
  - by vm_compute.
  - cbv zeta. split; [exact Hkey|]. split; [exact Hburned|]. split; [exact Howner|].
    apply Hkept.
    assert (w1 = match ModelToken.burnForDownload const_hash (mkEnv 14 0 5000) 0
                         token_world_live with Ok (_, w, _) => w | Revert _ => w1 end)
      as -> by (by rewrite Hburn).
    by vm_compute.
Defined.

(** In the storage with record 0 live: after the burn the administrator
    (1) replaces the download key, and the second burn is rejected as
    "Token does not exist", not as "Already burned". *)
Lemma download_key_overwritten_by_admin :
  exists w1 t1 w2 t2,
    ModelToken.burnForDownload const_hash (mkEnv 14 0 5000) 0 token_world_live
      = Ok (tt, w1, t1) /\
    key_of 0 w1 = "key_0_5000_7" /\
    ModelToken.burnForDownload const_hash (mkEnv 14 0 5001) 0 w1
      = Revert TokenDoesNotExist /\
    ModelToken.setDownloadKey (mkEnv 1 0 6000) 0 "replaced" w1 = Ok (tt, w2, t2) /\
    key_of 0 w2 = "replaced".
Proof.
  eexists _, _, _, _. split; [by vm_compute|].
  split; [by vm_compute|]. split; [by vm_compute|]. split; by vm_compute.
Qed.

(* ================================================================= *)
(** * ModelToken: a deployment that has issued nothing *)

(** Inversion of a successful call of an inherited ERC721 function. *)
Ltac erc721_inv :=
  repeat first
    [ minv1
    | match goal with
      | H : ModelToken.store _ _ _ = Ok _ |- _ => unfold ModelToken.store in H
      | H : revert _ _ = Ok _ |- _ => discriminate H
      | H : (if ?c then _ else _) _ = Ok _ |- _ => destruct c eqn:?
      | H : ModelToken._ownerOf _ _ = Ok _ |- _ => unfold ModelToken._ownerOf in H
      | H : ModelToken.ownerOf _ _ = Ok _ |- _ => unfold ModelToken.ownerOf in H
      | H : ModelToken.isApprovedForAll _ _ _ = Ok _ |- _ => unfold ModelToken.isApprovedForAll in H
      | H : ModelToken._getApproved _ _ = Ok _ |- _ => unfold ModelToken._getApproved in H
      | H : ModelToken._isAuthorized _ _ _ _ = Ok _ |- _ => unfold ModelToken._isAuthorized in H
      | H : ModelToken._checkAuthorized _ _ _ _ = Ok _ |- _ => unfold ModelToken._checkAuthorized in H
      | H : ModelToken.onlyOwner _ _ = Ok _ |- _ => unfold ModelToken.onlyOwner in H
      | H : ModelToken.ERC721_update _ _ _ _ = Ok _ |- _ => unfold ModelToken.ERC721_update in H
      | H : ModelToken._update _ _ _ _ = Ok _ |- _ => unfold ModelToken._update in H
      end ].

Section NothingIssued.
Import ModelToken.
Variable keccak256 : list N -> uint256.

(** No transaction changes a contract that has issued nothing, except
    for operator approvals and the ownership of the contract. *)
Lemma exec_nothing_issued env c w w' t :
  nothing_issued w -> msg_sender env <> 0 ->
  exec keccak256 env c w = Ok (tt, w', t) ->
  nothing_issued w' /\ balance w' = balance w.
Proof.
  intros (Ho & Ha & Hop & Hsn & Hut & Hc) Hs H.
  unfold nothing_issued.
  destruct c as [id lt vids|t'|t' k|t'|from to t'|to t'|operator approved|newOwner|];
    cbn [exec] in H.
  - rewrite purchaseModel_eq in H; cbv zeta in H. by rewrite Ho in H.
  - rewrite burnForDownload_eq in H; cbv zeta in H. by rewrite Ho in H.
  - rewrite setDownloadKey_eq in H; cbv zeta in H. rewrite Hsn in H.
    destruct (_ =? _); discriminate.
  - rewrite renewLicense_eq in H; cbv zeta in H. by rewrite Ho in H.
  - destruct (transferFrom_ok_inv _ _ _ _ _ _ _ H Hs) as (Hauth & _).
    rewrite Ho, Hop, Ha in Hauth.
    destruct (N.eqb_spec 0 (msg_sender env)); [congruence|discriminate].
  - unfold approve in H. erc721_inv; try discriminate.
    all: match goal with
         | E : ((_owners _)⟦_⟧ =? 0) = false |- _ => by rewrite Ho in E
         end.
  - unfold setApprovalForAll in H. erc721_inv; try discriminate.
    all: cbn; repeat split; try done.
    all: intros x; rewrite mapping_get_insert_ne; [done|]; intros [= ? ?]; congruence.
  - unfold transferOwnership in H. erc721_inv; try discriminate.
    all: cbn; repeat split; done.
  - unfold renounceOwnership in H. erc721_inv; try discriminate.
    all: cbn; repeat split; done.
Qed.

Lemma step_nothing_issued a w :
  nothing_issued w ->
  nothing_issued (step keccak256 a w) /\ balance (step keccak256 a w) = balance w.
Proof.
  intros Hn. destruct a as [env c|registry' marketplace']; cbn [step].
  - destruct (N.eqb_spec (msg_sender env) 0) as [|Hs]; [done|].
    destruct (exec keccak256 env c w) as [[[[] w'] t]|e] eqn:Hexec; [|done].
    by eapply exec_nothing_issued.
  - done.
Qed.

Lemma run_nothing_issued actions : forall w,
  nothing_issued w ->
  nothing_issued (run keccak256 actions w) /\ balance (run keccak256 actions w) = balance w.
Proof.
  induction actions as [|a actions IH]; intros w Hn; [done|].
  change (run keccak256 (a :: actions) w) with (run keccak256 actions (step keccak256 a w)).
  destruct (step_nothing_issued a w Hn) as [Hn' Hb].
  destruct (IH _ Hn') as [Hn'' Hb']. split; [done|congruence].
Qed.

End NothingIssued.

(** C2 (the code departs from the claim).  [purchaseModel] carries the
    modifier [tokenExists(modelId)], a check on a token id applied to a
    model id, and a token comes into existence only inside [purchaseModel]
    itself.  So on the contract as deployed, whatever the registry and the
    marketplace hold and after any sequence of transactions by any callers,
    every purchase fails with "Token does not exist": when the model can be
    purchased and the price is paid (where the claim has it succeed), when
    the payment is short (where the claim has [InsufficientPayment]), and
    when [canPurchase] is false (where the claim has [Unavailable]).  Below,
    model 0 is registered, priced at 300 for the Commercial tier and for
    sale, and buyer 13 tenders 300, then 299, then 300 for a model taken
    off sale. *)
Theorem purchaseModel_rejected_on_deployed_contract :
  (forall keccak256 deployer registry marketplace this balance receives actions
          env modelId licenseType variationIds,
     ModelToken.purchaseModel env modelId licenseType variationIds
       (ModelToken.run keccak256 actions
          (ModelToken.mkWorld registry marketplace (ModelToken.constructor deployer)
             this balance receives))
     = Revert TokenDoesNotExist) /\
  ModelMarketplace.canPurchase scenario_registry 0 scenario_marketplace
    = Ok (true, scenario_marketplace, []) /\
  ModelMarketplace.getTotalPrice 0 "commercial" [] scenario_marketplace
    = Ok (300, scenario_marketplace, []) /\
  ModelToken.purchaseModel (mkEnv 13 300 5000) 0 "commercial" [] token_world_fresh
    = Revert TokenDoesNotExist /\
  ModelToken.purchaseModel (mkEnv 13 299 5000) 0 "commercial" [] token_world_fresh
    = Revert TokenDoesNotExist /\
  ModelMarketplace.canPurchase scenario_registry 0
    (ModelMarketplace.set_forSale ∅ scenario_marketplace)
    = Ok (false, ModelMarketplace.set_forSale ∅ scenario_marketplace, []) /\
  ModelToken.purchaseModel (mkEnv 13 300 5000) 0 "commercial" []
    (ModelToken.set_marketplace (ModelMarketplace.set_forSale ∅ scenario_marketplace)
       token_world_fresh)
    = Revert TokenDoesNotExist.
Proof.
  split; [|by vm_compute].
  intros keccak256 deployer registry marketplace this balance receives actions
    env modelId licenseType variationIds.
  destruct (run_nothing_issued keccak256 actions
              (ModelToken.mkWorld registry marketplace (ModelToken.constructor deployer)
                 this balance receives)) as [(Ho & _) _]; [by repeat split|].
  rewrite purchaseModel_eq; cbv zeta. by rewrite Ho.
Qed.



(** X1.  A freshly deployed token contract never holds a license or a
    payment.  After any sequence of transactions by any callers, and
    whatever the registry and the marketplace hold: no token has an owner or
    an approved spender, no purchase record exists, the record counter is
    still 0, [getOwnedTokens] is empty for everybody, the balance of the
    contract is what it was at deployment, and every [renewLicense] fails
    with "Token does not exist". *)
Theorem fresh_deployment_never_issues :
  forall keccak256 deployer registry marketplace this balance receives actions,
    let w := ModelToken.run keccak256 actions
               (ModelToken.mkWorld registry marketplace (ModelToken.constructor deployer)
                  this balance receives) in
    nothing_issued w /\
    ModelToken.balance w = balance /\
    (forall env tokenId, ModelToken.renewLicense env tokenId w = Revert TokenDoesNotExist) /\
    (forall owner, ModelToken.getOwnedTokens owner w = Ok ([], w, [])).
Proof.
  intros keccak256 deployer registry marketplace this balance receives actions w.
  destruct (run_nothing_issued keccak256 actions
              (ModelToken.mkWorld registry marketplace (ModelToken.constructor deployer)
                 this balance receives)) as [Hn Hb]; [by repeat split|].
  fold w in Hn, Hb. split; [done|]. split; [done|].
  destruct Hn as (Ho & Ha & Hop & Hsn & Hut & Hc).
  split.
  - intros. rewrite renewLicense_eq; cbv zeta. by rewrite Ho.
  - intros. unfold ModelToken.getOwnedTokens, gets. by rewrite Hut.
Qed.


(* ================================================================= *)
(** * DerivativeRoyaltyRegistry: what the contract owes and what it holds *)

Section Solvency.
Import DerivativeRoyaltyRegistry.

Lemma sum_commutes (j1 j2 : N) (z1 z2 y : N) : z1 + (z2 + y) = z2 + (z1 + y).
Proof. lia. Qed.

(** Writing [v] at key [k] changes the sum of a mapping by [v] minus the
    old value. *)
Lemma map_sum_insert (m : gmap N N) k v :
  map_sum (<[k := v]> m) + m⟦k⟧ = map_sum m + v.
Proof.
  unfold map_sum, mapping_get. destruct (m !! k) as [x|] eqn:Hk; cbn.
  - rewrite <- (insert_delete_eq m k v).
    rewrite (map_fold_delete_L _ _ k x m) by (intros; lia || done).
    rewrite map_fold_insert_L by (intros; lia || apply lookup_delete_eq). lia.
  - rewrite map_fold_insert_L by (intros; lia || done). unfold zero, N_zero. lia.
Qed.

Lemma map_sum_ge (m : gmap N N) k :
  m⟦k⟧ <= map_sum m.
Proof.
  unfold map_sum, mapping_get. destruct (m !! k) as [x|] eqn:Hk; cbn.
  - rewrite (map_fold_delete_L _ _ k x m) by (intros; lia || done). lia.
  - unfold zero, N_zero. lia.
Qed.

(** Every successful call moves the balance of the contract and the sum
    of the claimable balances by the same amount. *)
Lemma exec_keeps_backing env c w w' t :
  exec env c w = Ok (tt, w', t) ->
  balance w' + total_claimable w = balance w + total_claimable w'.
Proof.
  unfold total_claimable. intros H.
  destruct c as [d o bps|d salePrice|creator message| |d|newOwner|]; cbn [exec] in H.
  - rewrite setDerivativeRoyalty_eq in H; cbv zeta in H.
    repeat case_match; simplify_eq. cbn. lia.
  - unfold payDerivativeRoyalty in H. royalty_inv. cbn.
    repeat match goal with
           | H : checked_add _ _ = Ok _ |- _ => apply checked_add_ok in H as [-> ?]
           | H : checked_sub _ _ = Ok _ |- _ => apply checked_sub_ok in H as [-> ?]
           | H : checked_mul _ _ = Ok _ |- _ => apply checked_mul_ok in H as [-> ?]
           | H : (_ =? _) = true |- _ => apply N.eqb_eq in H
           end.
    match goal with
    | |- context [<[?k := ?v]> ?m] => pose proof (map_sum_insert m k v) as Hsum
    end.
    cbn in *.
    match goal with
    | |- context [?a `div` 10000] => generalize dependent (a `div` 10000)
    end.
    intros. unfold address, uint256 in *. lia.
  - rewrite payDirectRoyalty_eq in H; cbv zeta in H.
    repeat case_match; simplify_eq. cbn.
    match goal with
    | |- context [<[?k := ?v]> ?m] => pose proof (map_sum_insert m k v) as Hsum
    end.
    unfold address, uint256 in *. lia.
  - rewrite claimRoyalties_eq in H; cbv zeta in H.
    repeat case_match; simplify_eq. cbn.
    match goal with
    | H : (_ <=? _) && _ = true |- _ => apply andb_true_iff in H as [H _]; apply N.leb_le in H
    end.
    pose proof (map_sum_insert (claimableRoyalties (storage w)) (msg_sender env) 0) as Hsum.
    unfold address, uint256 in *. lia.
  - rewrite deactivateDerivativeRoyalty_eq in H.
    repeat case_match; simplify_eq. cbn. lia.
  - unfold transferOwnership, onlyOwner in H. royalty_inv.
    destruct (newOwner =? 0); [discriminate|]. royalty_inv. cbn. lia.
  - unfold renounceOwnership, onlyOwner in H. royalty_inv. cbn. lia.
Qed.

Lemma step_keeps_backing a w :
  balance (step a w) + total_claimable w = balance w + total_claimable (step a w).
Proof.
  destruct a as [env c|registry']; cbn [step]; [|cbn; unfold total_claimable; cbn; lia].
  destruct (exec env c w) as [[[[] w'] t]|e] eqn:Hexec; [|lia].
  by eapply exec_keeps_backing.
Qed.

Lemma run_keeps_backing actions : forall w,
  balance (run actions w) + total_claimable w = balance w + total_claimable (run actions w).
Proof.
  induction actions as [|a actions IH]; intros w; [cbn; lia|].
  change (run (a :: actions) w) with (run actions (step a w)).
  pose proof (IH (step a w)). pose proof (step_keeps_backing a w). lia.
Qed.

End Solvency.

(** X2.  The royalty registry always holds what it owes.  Every
    successful call changes the balance of the contract and the sum of all
    claimable balances by the same amount, so after any sequence of
    transactions on a contract deployed with balance [b] the contract holds
    [b] more than the sum of the claimable balances; hence a claim never
    fails for lack of funds: it pays the whole claimable balance of the
    caller whenever that is not zero and the caller accepts the transfer. *)
Theorem royalty_registry_is_solvent :
  forall deployer registry this b receives actions,
    let w := DerivativeRoyaltyRegistry.run actions
               (DerivativeRoyaltyRegistry.mkWorld registry
                  (DerivativeRoyaltyRegistry.constructor deployer) this b receives) in
    DerivativeRoyaltyRegistry.balance w = b + total_claimable w /\
    (forall creator,
       (DerivativeRoyaltyRegistry.claimableRoyalties
          (DerivativeRoyaltyRegistry.storage w))⟦creator⟧
       <= DerivativeRoyaltyRegistry.balance w) /\
    (forall env,
       let amount := (DerivativeRoyaltyRegistry.claimableRoyalties
                        (DerivativeRoyaltyRegistry.storage w))⟦msg_sender env⟧ in
       DerivativeRoyaltyRegistry.claimRoyalties env w =
         if amount =? 0 then Revert NothingToClaim
         else if DerivativeRoyaltyRegistry.receives w (msg_sender env) then
           Ok (tt,
               DerivativeRoyaltyRegistry.set_balance
                 (DerivativeRoyaltyRegistry.balance w - amount)
                 (DerivativeRoyaltyRegistry.set_storage
                    (DerivativeRoyaltyRegistry.set_claimableRoyalties
                       (<[msg_sender env := 0]>
                          (DerivativeRoyaltyRegistry.claimableRoyalties
                             (DerivativeRoyaltyRegistry.storage w)))
                       (DerivativeRoyaltyRegistry.storage w)) w),
               [SStore "claimableRoyalties"; Transfer (msg_sender env) amount;
                Emit "RoyaltiesClaimed"])
         else Revert TransferFailed).
Proof.
  intros deployer registry this b receives actions w.
  pose proof (run_keeps_backing actions
                (DerivativeRoyaltyRegistry.mkWorld registry
                   (DerivativeRoyaltyRegistry.constructor deployer) this b receives)) as Hb.
  fold w in Hb.
  assert (DerivativeRoyaltyRegistry.balance w = b + total_claimable w) as Hbal.
  { revert Hb. unfold total_claimable at 1, map_sum. cbn. rewrite map_fold_empty. lia. }
  assert (forall creator,
            (DerivativeRoyaltyRegistry.claimableRoyalties
               (DerivativeRoyaltyRegistry.storage w))⟦creator⟧
            <= DerivativeRoyaltyRegistry.balance w) as Hle.
  { intros creator.
    pose proof (map_sum_ge (DerivativeRoyaltyRegistry.claimableRoyalties
                              (DerivativeRoyaltyRegistry.storage w)) creator) as Hge.
    fold (total_claimable w) in Hge. unfold address, uint256 in *. lia. }
  split; [done|]. split; [done|].
  intros env amount. rewrite claimRoyalties_eq; cbv zeta. fold amount.
  destruct (amount =? 0); [done|].
  rewrite (proj2 (N.leb_le amount _) (Hle (msg_sender env))). done.
Qed.


(* ================================================================= *)
(** * DerivativeRoyaltyRegistry: the payment history *)

Section History.
Import DerivativeRoyaltyRegistry.

Lemma sum_list_cons x l : sum_list (x :: l) = x + sum_list l.
Proof. reflexivity. Qed.

Lemma getTotalRoyaltiesEarned_loop_eq payments paymentIds : forall total,
  total <= MAX_UINT256 ->
  getTotalRoyaltiesEarned_loop payments paymentIds total =
    let sum := total + sum_list (map (fun id => amount payments⟦id⟧) paymentIds) in
    if sum <=? MAX_UINT256 then Ok sum else Revert Panic.
Proof.
  induction paymentIds as [|id ids IH]; intros total Hle; cbv zeta.
  - cbn -[N.leb]. rewrite N.add_0_r. by rewrite (proj2 (N.leb_le _ _) Hle).
  - cbn [getTotalRoyaltiesEarned_loop map]. rewrite sum_list_cons.
    unfold checked_add.
    destruct (N.leb_spec (total + amount payments⟦id⟧) MAX_UINT256) as [H|H].
    + rewrite IH by done. cbv zeta. by rewrite N.add_assoc.
    + destruct (N.leb_spec (total + (amount payments⟦id⟧
                 + sum_list (map (fun id => amount payments⟦id⟧) ids))) MAX_UINT256);
        [lia|done].
Qed.

Lemma getTotalRoyaltiesEarned_eq creator w :
  getTotalRoyaltiesEarned creator w =
    if sum_list (earned_amounts creator w) <=? MAX_UINT256
    then Ok (sum_list (earned_amounts creator w), w, [])
    else Revert Panic.
Proof.
  unfold getTotalRoyaltiesEarned, mbind, M_bind, bind, gets, lift. cbn -[N.leb].
  rewrite getTotalRoyaltiesEarned_loop_eq by (unfold MAX_UINT256; lia). cbv zeta.
  unfold earned_amounts, history. rewrite map_map, N.add_0_l.
  by destruct (_ <=? _).
Qed.

Lemma history_unchanged_at (rp : gmap N RoyaltyPayment) p r (l : list N) :
  (forall id, id ∈ l -> id < p) ->
  map (fun id => (<[p := r]> rp)⟦id⟧) l = map (fun id => rp⟦id⟧) l.
Proof.
  intros Hl. apply map_ext_in. intros id Hin.
  apply mapping_get_insert_ne. apply list_elem_of_In, Hl in Hin. lia.
Qed.

Lemma sum_list_app l1 l2 : sum_list (l1 ++ l2) = sum_list l1 + sum_list l2.
Proof.
  induction l1 as [|x l1 IH]; [done|].
  rewrite <- app_comm_cons, !sum_list_cons, IH. lia.
Qed.

(** What one successful call does to the histories and the claimable
    balances: a history only grows at its end, and a claimable balance
    grows by no more than the amounts of the new entries. *)
Lemma exec_history env c w w' t :
  exec env c w = Ok (tt, w', t) ->
  _paymentIdCounter (storage w) < MAX_UINT256 ->
  payment_ids_issued w ->
  payment_ids_issued w' /\
  _paymentIdCounter (storage w') <= _paymentIdCounter (storage w) + 1 /\
  forall creator, exists new,
    history creator w' = history creator w ++ new /\
    (claimableRoyalties (storage w'))⟦creator⟧
    <= (claimableRoyalties (storage w))⟦creator⟧ + sum_list (map amount new).
Proof.
  intros H Hmax Hids. unfold payment_ids_issued, history in *.
  destruct c as [d o bps|d salePrice|creator message| |d|newOwner|]; cbn [exec] in H.
  - rewrite setDerivativeRoyalty_eq in H; cbv zeta in H.
    repeat case_match; simplify_eq. cbn.
    split; [done|]. split; [lia|]. intros c. exists []. rewrite app_nil_r. cbn. split; [done|lia].
  - unfold payDerivativeRoyalty in H. royalty_inv. cbn.
    rewrite increment_small by done.
    repeat match goal with
           | H : checked_add _ _ = Ok _ |- _ => apply checked_add_ok in H as [-> ?]
           | H : checked_sub _ _ = Ok _ |- _ => apply checked_sub_ok in H as [-> ?]
           | H : checked_mul _ _ = Ok _ |- _ => apply checked_mul_ok in H as [-> ?]
           end.
    set (C := originalCreator (derivativeRoyalties (storage w))⟦d⟧) in *.
    split; [|split; [lia|]].
    + intros c id. destruct (N.eqb_spec C c) as [<-|Hne].
      * rewrite mapping_get_insert. intros [Hin| ->%list_elem_of_singleton]%elem_of_app; [|lia].
        apply Hids in Hin. lia.
      * rewrite mapping_get_insert_ne by done. intros Hin%Hids. lia.
    + intros c. destruct (N.eqb_spec C c) as [<-|Hne].
      * rewrite !mapping_get_insert. eexists [_]. rewrite map_app. cbn [map].
        rewrite mapping_get_insert. split.
        -- f_equal. apply history_unchanged_at. intros id Hin. by apply (Hids C).
        -- cbn -[N.div N.mul]. rewrite N.add_0_r. apply N.le_refl.
      * rewrite !mapping_get_insert_ne by done. exists []. rewrite app_nil_r. split.
        -- apply history_unchanged_at. intros id Hin. by apply (Hids c).
        -- cbn. lia.
  - rewrite payDirectRoyalty_eq in H; cbv zeta in H.
    repeat case_match; simplify_eq. cbn.
    rewrite increment_small by done.
    split; [|split; [lia|]].
    + intros c id. destruct (N.eqb_spec creator c) as [<-|Hne].
      * rewrite mapping_get_insert. intros [Hin| ->%list_elem_of_singleton]%elem_of_app; [|lia].
        apply Hids in Hin. lia.
      * rewrite mapping_get_insert_ne by done. intros Hin%Hids. lia.
    + intros c. destruct (N.eqb_spec creator c) as [<-|Hne].
      * rewrite !mapping_get_insert. eexists [_]. rewrite map_app. cbn [map].
        rewrite mapping_get_insert. split.
        -- f_equal. apply history_unchanged_at. intros id Hin. by apply (Hids creator).
        -- cbn. lia.
      * rewrite !mapping_get_insert_ne by done. exists []. rewrite app_nil_r. split.
        -- apply history_unchanged_at. intros id Hin. by apply (Hids c).
        -- cbn. lia.
  - rewrite claimRoyalties_eq in H; cbv zeta in H.
    repeat case_match; simplify_eq. cbn.
    split; [done|]. split; [lia|]. intros c. exists []. rewrite app_nil_r. cbn.
    split; [done|]. destruct (N.eqb_spec (msg_sender env) c) as [<-|Hne].
    + rewrite mapping_get_insert. lia.
    + rewrite mapping_get_insert_ne by done. lia.
  - rewrite deactivateDerivativeRoyalty_eq in H.
    repeat case_match; simplify_eq. cbn.
    split; [done|]. split; [lia|]. intros c. exists []. rewrite app_nil_r. cbn. split; [done|lia].
  - unfold transferOwnership, onlyOwner in H. royalty_inv.
    destruct (newOwner =? 0); [discriminate|]. royalty_inv. cbn.
    split; [done|]. split; [lia|]. intros c. exists []. rewrite app_nil_r. cbn. split; [done|lia].
  - unfold renounceOwnership, onlyOwner in H. royalty_inv. cbn.
    split; [done|]. split; [lia|]. intros c. exists []. rewrite app_nil_r. cbn. split; [done|lia].
Qed.

Lemma step_history a w :
  _paymentIdCounter (storage w) < MAX_UINT256 ->
  payment_ids_issued w ->
  payment_ids_issued (step a w) /\
  _paymentIdCounter (storage (step a w)) <= _paymentIdCounter (storage w) + 1 /\
  forall creator, exists new,
    history creator (step a w) = history creator w ++ new /\
    (claimableRoyalties (storage (step a w)))⟦creator⟧
    <= (claimableRoyalties (storage w))⟦creator⟧ + sum_list (map amount new).
Proof.
  intros Hmax Hids.
  assert (forall w0 : World, forall creator, exists new,
            history creator w0 = history creator w0 ++ new /\
            (claimableRoyalties (storage w0))⟦creator⟧
            <= (claimableRoyalties (storage w0))⟦creator⟧ + sum_list (map amount new)) as Hrefl.
  { intros w0 creator. exists []. rewrite app_nil_r. cbn. split; [done|lia]. }
  destruct a as [env c|registry']; cbn [step].
  - destruct (exec env c w) as [[[[] w'] t]|e] eqn:Hexec.
    + by eapply exec_history.
    + split; [done|]. split; [lia|]. apply Hrefl.
  - split; [done|]. split; [cbn; lia|]. apply (Hrefl w).
Qed.

Lemma run_history actions : forall w,
  _paymentIdCounter (storage w) + N.of_nat (length actions) <= MAX_UINT256 ->
  payment_ids_issued w ->
  payment_ids_issued (run actions w) /\
  _paymentIdCounter (storage (run actions w))
    <= _paymentIdCounter (storage w) + N.of_nat (length actions) /\
  forall creator, exists new,
    history creator (run actions w) = history creator w ++ new /\
    (claimableRoyalties (storage (run actions w)))⟦creator⟧
    <= (claimableRoyalties (storage w))⟦creator⟧ + sum_list (map amount new).
Proof.
  induction actions as [|a actions IH]; intros w Hlen Hids.
  - split; [done|]. split; [cbn; lia|]. intros creator. exists []. rewrite app_nil_r.
    cbn. split; [done|lia].
  - change (run (a :: actions) w) with (run actions (step a w)).
    cbn [length] in *.
    destruct (step_history a w ltac:(lia) Hids) as (Hids' & Hc' & Hh).
    destruct (IH (step a w) ltac:(lia) Hids') as (Hids'' & Hc'' & Hh').
    split; [done|]. split; [lia|]. intros creator.
    destruct (Hh creator) as (new1 & E1 & L1). destruct (Hh' creator) as (new2 & E2 & L2).
    exists (new1 ++ new2). rewrite E2, E1, <- app_assoc. split; [done|].
    rewrite map_app, sum_list_app. lia.
Qed.

End History.

(** X3.  [getRoyaltyHistory] returns the payments recorded for the
    creator, oldest first, and [getTotalRoyaltiesEarned] returns the sum of
    their amounts; it fails (with an arithmetic panic) exactly when that sum
    does not fit a [uint256].  Neither changes the storage. *)
Theorem getTotalRoyaltiesEarned_sums_history :
  forall creator w,
    DerivativeRoyaltyRegistry.getRoyaltyHistory creator w = Ok (history creator w, w, []) /\
    DerivativeRoyaltyRegistry.getTotalRoyaltiesEarned creator w =
      if sum_list (map DerivativeRoyaltyRegistry.amount (history creator w)) <=? MAX_UINT256
      then Ok (sum_list (map DerivativeRoyaltyRegistry.amount (history creator w)), w, [])
      else Revert Panic.
Proof.
  intros creator w. split; [reflexivity|]. apply getTotalRoyaltiesEarned_eq.
Qed.

(** X4.  The payment history is append-only and covers the ledger.  On a
    contract deployed with an empty ledger, after any transactions
    [actions] and any further transactions [more] (fewer than 2^256 in
    all): the history of every creator after [more] is the history before
    it followed by new entries, so a recorded payment is never altered or
    removed; and the claimable balance of a creator never exceeds the sum of
    the amounts recorded in that creator's history. *)
Theorem royalty_history_is_append_only :
  forall deployer registry this b receives actions more,
    N.of_nat (length actions + length more) <= MAX_UINT256 ->
    let w := DerivativeRoyaltyRegistry.run actions
               (DerivativeRoyaltyRegistry.mkWorld registry
                  (DerivativeRoyaltyRegistry.constructor deployer) this b receives) in
    let w' := DerivativeRoyaltyRegistry.run more w in
    forall creator,
      (exists new, history creator w' = history creator w ++ new) /\
      (DerivativeRoyaltyRegistry.claimableRoyalties
         (DerivativeRoyaltyRegistry.storage w))⟦creator⟧
      <= sum_list (earned_amounts creator w).
Proof.
  intros deployer registry this b receives actions more Hlen w w' creator.
  destruct (run_history actions
              (DerivativeRoyaltyRegistry.mkWorld registry
                 (DerivativeRoyaltyRegistry.constructor deployer) this b receives))
    as (Hids & Hc & Hh).
  { cbn. lia. }
  { intros c id. cbn. unfold mapping_get. rewrite lookup_empty. cbn.
    by intros ?%elem_of_nil. }
  fold w in Hids, Hc, Hh. cbn in Hc.
  destruct (run_history more w) as (_ & _ & Hh'); [lia|done|]. fold w' in Hh'.
  split.
  - destruct (Hh' creator) as (new & E & _). eauto.
  - destruct (Hh creator) as (new & E & L). unfold earned_amounts. rewrite E.
    change (history creator _ ++ new) with new.
    etrans; [exact L|]. apply N.le_refl.
Qed.

(** A tip of 50 to creator 11, then the creator's claim: the entry of the
    tip is still in the history after the claim. *)
Lemma royalty_history_tip_then_claim :
  let w := DerivativeRoyaltyRegistry.run
             [DerivativeRoyaltyRegistry.Tx (mkEnv 21 50 1000)
                (DerivativeRoyaltyRegistry.PayDirectRoyalty 11 "thanks")]
             (DerivativeRoyaltyRegistry.mkWorld (ModelRegistry.constructor 1)
                (DerivativeRoyaltyRegistry.constructor 1) 300 0 (fun _ => true)) in
  let w' := DerivativeRoyaltyRegistry.run
              [DerivativeRoyaltyRegistry.Tx (mkEnv 11 0 2000)
                 DerivativeRoyaltyRegistry.ClaimRoyalties] w in
  (exists new, history 11 w' = history 11 w ++ new) /\
  (DerivativeRoyaltyRegistry.claimableRoyalties
     (DerivativeRoyaltyRegistry.storage w))⟦11⟧
  <= sum_list (earned_amounts 11 w).
Proof.
  apply (royalty_history_is_append_only 1 (ModelRegistry.constructor 1) 300 0 (fun _ => true)
           [DerivativeRoyaltyRegistry.Tx (mkEnv 21 50 1000)
              (DerivativeRoyaltyRegistry.PayDirectRoyalty 11 "thanks")]
           [DerivativeRoyaltyRegistry.Tx (mkEnv 11 0 2000)
              DerivativeRoyaltyRegistry.ClaimRoyalties]).
  by vm_compute.
Defined.


(* ================================================================= *)
(** * ModelRegistry: the whole interface *)

Section RegistryInterface.
Import ModelRegistry.

Lemma registerModel_eq env a b s :
  registerModel env a b s =
    let modelId := _modelIdCounter s in
    if negb (nonempty a) then Revert (Error "ModelRegistry: Model IPFS required")
    else if negb (nonempty b) then Revert (Error "ModelRegistry: Metadata IPFS required")
    else
      Ok (modelId,
          mkStorage (increment modelId)
            (<[modelId := mkModel (msg_sender env) (block_timestamp env) (block_timestamp env)
                            a b true true 0]> (models s))
            (<[msg_sender env := (creatorModels s)⟦msg_sender env⟧ ++ [modelId]]>
               (creatorModels s))
            (modelDerivatives s) (marketplace s) (derivativeRoyaltyRegistry s) (_owner s),
          [SStore "_modelIdCounter"; SStore "models"; SStore "creatorModels";
           Emit "ModelRegistered"]).
Proof.
  unfold registerModel, mbind, M_bind, bind, gets, require, sstore, emit, ret, revert,
    mret, M_ret; cbn.
  destruct (nonempty a); [|done]; cbn. by destruct (nonempty b).
Qed.

Lemma registerDerivativeModel_eq env a b o s :
  registerDerivativeModel env a b o s =
    if negb (exists_ (models s)⟦o⟧) then Revert (Error "ModelRegistry: Model does not exist")
    else match registerModel env a b s with
    | Revert e => Revert e
    | Ok (modelId, s1, t1) =>
        let m := (models s1)⟦o⟧ in
        if negb (derivativeCount m + 1 <=? MAX_UINT256) then Revert Panic
        else
          Ok (modelId,
              set_models (<[o := set_derivativeCount (derivativeCount m + 1) m]> (models s1))
                (set_modelDerivatives
                   (<[o := (modelDerivatives s1)⟦o⟧ ++ [modelId]]> (modelDerivatives s1)) s1),
              t1 ++ [SStore "modelDerivatives"; SStore "models"])
    end.
Proof.
  unfold registerDerivativeModel, modelExists,
    mbind, M_bind, bind, gets, require, sstore, lift, checked_add, ret, revert, mret, M_ret.
  cbn -[registerModel].
  destruct (exists_ _); [|done]; cbn -[registerModel].
  destruct (registerModel env a b s) as [[[id s1] t1]|e]; [|done]; cbn.
  by destruct (_ <=? _).
Qed.

Lemma incrementDerivativeCount_eq env id s :
  incrementDerivativeCount env id s =
    let m := (models s)⟦id⟧ in
    if negb (exists_ m) then Revert (Error "ModelRegistry: Model does not exist")
    else if negb (msg_sender env =? marketplace s)
    then Revert (Error "ModelRegistry: Only marketplace can call")
    else if negb (derivativeCount m + 1 <=? MAX_UINT256) then Revert Panic
    else Ok (tt, set_models (<[id := set_derivativeCount (derivativeCount m + 1) m]> (models s)) s,
             [SStore "models"]).
Proof.
  unfold incrementDerivativeCount, modelExists, onlyMarketplace,
    mbind, M_bind, bind, gets, require, sstore, lift, checked_add, ret, revert; cbn.
  destruct (exists_ _); [|done]; cbn.
  destruct (_ =? _); [|done]; cbn.
  by destruct (_ <=? _).
Qed.

Lemma same_core_refl m : same_core m m.
Proof. done. Qed.

(** Rewriting one model without touching its core keeps the registry
    dense and the index exact. *)
Lemma core_update s s' k m' :
  models s' = <[k := m']> (models s) ->
  creatorModels s' = creatorModels s ->
  _modelIdCounter s' = _modelIdCounter s ->
  same_core m' (models s)⟦k⟧ ->
  dense s -> indexed_by_creator s ->
  dense s' /\ indexed_by_creator s' /\
  forall id, same_core (models s')⟦id⟧ (models s)⟦id⟧.
Proof.
  intros Hm Hcm Hc (C1 & C2 & C3 & C4) Hd Hi.
  assert (forall id, same_core (models s')⟦id⟧ (models s)⟦id⟧) as Hcore.
  { intros id. rewrite Hm. destruct (N.eqb_spec k id) as [<-|Hne].
    - by rewrite mapping_get_insert.
    - by rewrite mapping_get_insert_ne. }
  split; [|split; [|done]].
  - intros id. destruct (Hcore id) as (_ & _ & _ & ->). rewrite Hc. apply Hd.
  - intros a. rewrite Hcm. destruct (Hi a) as [Hnd Hin]. split; [done|].
    intros id. destruct (Hcore id) as (-> & _ & _ & ->). apply Hin.
Qed.

Lemma frame_update s s' :
  models s' = models s ->
  creatorModels s' = creatorModels s ->
  _modelIdCounter s' = _modelIdCounter s ->
  dense s -> indexed_by_creator s ->
  dense s' /\ indexed_by_creator s' /\
  forall id, same_core (models s')⟦id⟧ (models s)⟦id⟧.
Proof.
  intros Hm Hcm Hc Hd Hi. unfold dense, indexed_by_creator. rewrite Hm, Hcm, Hc. done.
Qed.

(** Registration keeps the registry dense and the index exact, and
    leaves every model registered before as it is. *)
Lemma registerModel_inv env a b s id s' t :
  registerModel env a b s = Ok (id, s', t) ->
  _modelIdCounter s < MAX_UINT256 ->
  dense s -> indexed_by_creator s ->
  id = _modelIdCounter s /\ _modelIdCounter s' = _modelIdCounter s + 1 /\
  dense s' /\ indexed_by_creator s' /\
  (forall id', id' <> id -> (models s')⟦id'⟧ = (models s)⟦id'⟧) /\
  (models s')⟦id⟧ = mkModel (msg_sender env) (block_timestamp env) (block_timestamp env)
                      a b true true 0 /\
  modelDerivatives s' = modelDerivatives s /\
  marketplace s' = marketplace s.
Proof.
  rewrite registerModel_eq; cbv zeta. intros H Hmax Hd Hi.
  repeat case_match; simplify_eq. cbn.
  rewrite increment_small by done.
  split; [done|]. split; [done|].
  assert (forall id', id' <> _modelIdCounter s ->
            (<[_modelIdCounter s := mkModel (msg_sender env) (block_timestamp env)
                 (block_timestamp env) a b true true 0]> (models s))⟦id'⟧ = (models s)⟦id'⟧)
    as Hother by (intros; by rewrite mapping_get_insert_ne).
  split; [|split; [|split; [done|split; [by rewrite mapping_get_insert|done]]]].
  - intros id. cbn. destruct (N.eqb_spec id (_modelIdCounter s)) as [->|Hne].
    + rewrite mapping_get_insert. cbn. split; [lia|done].
    + rewrite Hother by done. rewrite (Hd id). lia.
  - intros c. cbn. destruct (Hi c) as [Hnd Hin].
    assert (_modelIdCounter s ∉ (creatorModels s)⟦c⟧) as Hfresh.
    { intros [Hex _]%Hin. apply Hd in Hex. lia. }
    destruct (N.eqb_spec (msg_sender env) c) as [<-|Hne].
    + rewrite mapping_get_insert. split.
      * apply NoDup_app. split; [done|]. split; [|apply NoDup_singleton].
        intros x Hx ->%list_elem_of_singleton. done.
      * intros id. rewrite elem_of_app, list_elem_of_singleton.
        destruct (N.eqb_spec id (_modelIdCounter s)) as [->|Hne].
        -- rewrite mapping_get_insert. cbn. tauto.
        -- rewrite Hother by done. rewrite Hin. tauto.
    + rewrite mapping_get_insert_ne by done. split; [done|].
      intros id. destruct (N.eqb_spec id (_modelIdCounter s)) as [->|Hne'].
      * rewrite mapping_get_insert. cbn. split; [done|]. intros [_ ?]. done.
      * rewrite Hother by done. apply Hin.
Qed.

Lemma exec_any_inv env c s s' t :
  exec_any env c s = Ok (tt, s', t) ->
  _modelIdCounter s < MAX_UINT256 ->
  dense s -> indexed_by_creator s ->
  dense s' /\ indexed_by_creator s' /\
  _modelIdCounter s' <= _modelIdCounter s + 1 /\
  forall id, exists_ (models s)⟦id⟧ = true -> same_core (models s')⟦id⟧ (models s)⟦id⟧.
Proof.
  intros H Hmax Hd Hi.
  destruct c as [a b|a b o|[id meta|id]|id|mp|rr|newOwner|]; cbn [exec_any exec] in H.
  - apply bind_ok_inv in H as (id & s1 & t1 & t2 & H & Hret & ->).
    apply mret_ok_inv in Hret as (_ & -> & ->).
    destruct (registerModel_inv _ _ _ _ _ _ _ H Hmax Hd Hi)
      as (-> & Hc & Hd' & Hi' & Hother & _).
    split; [done|]. split; [done|]. split; [lia|].
    intros id Hex. rewrite Hother; [done|]. apply Hd in Hex. lia.
  - apply bind_ok_inv in H as (id & s2 & t1 & t2 & H & Hret & ->).
    apply mret_ok_inv in Hret as (_ & -> & ->).
    rewrite registerDerivativeModel_eq in H.
    destruct (exists_ (models s)⟦o⟧) eqn:Hex; [|done]. cbn [negb] in H.
    destruct (registerModel env a b s) as [[[id' s1] t1']|e] eqn:Hreg; [|done].
    cbv zeta in H. destruct (_ <=? _); [|done]. cbn [negb] in H. simplify_eq.
    destruct (registerModel_inv _ _ _ _ _ _ _ Hreg Hmax Hd Hi)
      as (-> & Hc & Hd' & Hi' & Hother & _).
    destruct (core_update s1
                (set_models
                   (<[o := set_derivativeCount (derivativeCount (models s1)⟦o⟧ + 1)
                             (models s1)⟦o⟧]> (models s1))
                   (set_modelDerivatives
                      (<[o := (modelDerivatives s1)⟦o⟧ ++ [_modelIdCounter s]]>
                         (modelDerivatives s1)) s1))
                o (set_derivativeCount (derivativeCount (models s1)⟦o⟧ + 1) (models s1)⟦o⟧)
                eq_refl eq_refl eq_refl ltac:(done) Hd' Hi') as (Hd'' & Hi'' & Hcore).
    split; [exact Hd''|]. split; [exact Hi''|]. split; [cbn; lia|].
    intros id Hid. destruct (Hcore id) as (E1 & E2 & E3 & E4).
    assert (id <> _modelIdCounter s) as Hne by (apply Hd in Hid; intros ->; lia).
    rewrite (Hother id Hne) in E1, E2, E3, E4.
    unfold same_core. done.
  - rewrite updateMetadata_eq in H; cbv zeta in H.
    repeat case_match; simplify_eq.
    match goal with
    | |- dense (set_models (<[?k := ?m']> _) _) /\ _ =>
        destruct (core_update s (set_models (<[k := m']> (models s)) s) k m'
                    eq_refl eq_refl eq_refl ltac:(done) Hd Hi) as (Hd' & Hi' & Hcore)
    end.
    split; [exact Hd'|]. split; [exact Hi'|]. split; [cbn; lia|]. intros; apply Hcore.
  - rewrite toggleModelActive_eq in H; cbv zeta in H.
    repeat case_match; simplify_eq.
    match goal with
    | |- dense (set_models (<[?k := ?m']> _) _) /\ _ =>
        destruct (core_update s (set_models (<[k := m']> (models s)) s) k m'
                    eq_refl eq_refl eq_refl ltac:(done) Hd Hi) as (Hd' & Hi' & Hcore)
    end.
    split; [exact Hd'|]. split; [exact Hi'|]. split; [cbn; lia|]. intros; apply Hcore.
  - rewrite incrementDerivativeCount_eq in H; cbv zeta in H.
    repeat case_match; simplify_eq.
    match goal with
    | |- dense (set_models (<[?k := ?m']> _) _) /\ _ =>
        destruct (core_update s (set_models (<[k := m']> (models s)) s) k m'
                    eq_refl eq_refl eq_refl ltac:(done) Hd Hi) as (Hd' & Hi' & Hcore)
    end.
    split; [exact Hd'|]. split; [exact Hi'|]. split; [cbn; lia|]. intros; apply Hcore.
  - unfold setMarketplace, onlyOwner in H. minv.
    split; [exact Hd|]. split; [exact Hi|]. split; [cbn; lia|]. done.
  - unfold setDerivativeRoyaltyRegistry, onlyOwner in H. minv.
    split; [exact Hd|]. split; [exact Hi|]. split; [cbn; lia|]. done.
  - unfold transferOwnership, onlyOwner in H. minv.
    destruct (newOwner =? 0); [discriminate|]. minv.
    split; [exact Hd|]. split; [exact Hi|]. split; [cbn; lia|]. done.
  - unfold renounceOwnership, onlyOwner in H. minv.
    split; [exact Hd|]. split; [exact Hi|]. split; [cbn; lia|]. done.
Qed.

Lemma step_any_inv tx s :
  _modelIdCounter s < MAX_UINT256 ->
  dense s -> indexed_by_creator s ->
  dense (step_any tx s) /\ indexed_by_creator (step_any tx s) /\
  _modelIdCounter (step_any tx s) <= _modelIdCounter s + 1 /\
  forall id, exists_ (models s)⟦id⟧ = true ->
             same_core (models (step_any tx s))⟦id⟧ (models s)⟦id⟧.
Proof.
  intros Hmax Hd Hi. unfold step_any.
  destruct (exec_any (fst tx) (snd tx) s) as [[[[] s'] t]|e] eqn:H.
  - by eapply exec_any_inv.
  - split; [done|]. split; [done|]. split; [lia|done].
Qed.

Lemma run_any_inv txs : forall s,
  _modelIdCounter s + N.of_nat (length txs) <= MAX_UINT256 ->
  dense s -> indexed_by_creator s ->
  dense (run_any txs s) /\ indexed_by_creator (run_any txs s) /\
  _modelIdCounter (run_any txs s) <= _modelIdCounter s + N.of_nat (length txs) /\
  forall id, exists_ (models s)⟦id⟧ = true ->
             same_core (models (run_any txs s))⟦id⟧ (models s)⟦id⟧.
Proof.
  induction txs as [|tx txs IH]; intros s Hlen Hd Hi.
  - split; [done|]. split; [done|]. split; [cbn; lia|done].
  - change (run_any (tx :: txs) s) with (run_any txs (step_any tx s)).
    cbn [length] in *.
    destruct (step_any_inv tx s ltac:(lia) Hd Hi) as (Hd' & Hi' & Hc' & Hcore).
    destruct (IH (step_any tx s) ltac:(lia) Hd' Hi') as (Hd'' & Hi'' & Hc'' & Hcore').
    split; [done|]. split; [done|]. split; [lia|].
    intros id Hex. destruct (Hcore id Hex) as (C1 & C2 & C3 & C4).
    destruct (Hcore' id ltac:(congruence)) as (D1 & D2 & D3 & D4).
    unfold same_core. repeat split; congruence.
Qed.

End RegistryInterface.

(** X5.  Model ids are dense and the per-creator index is exact.  After
    any sequence of calls of any functions of the registry by any callers
    (fewer than 2^256 of them) on a freshly deployed registry: the models
    that exist are exactly those with an id below [getModelCount()], and
    [getCreatorModels(a)] lists, each once, exactly the registered models
    whose creator is [a]. *)
Theorem registry_ids_are_dense :
  forall deployer txs,
    N.of_nat (length txs) <= MAX_UINT256 ->
    let s := ModelRegistry.run_any txs (ModelRegistry.constructor deployer) in
    ModelRegistry.getModelCount s = Ok (ModelRegistry._modelIdCounter s, s, []) /\
    ModelRegistry._modelIdCounter s <= N.of_nat (length txs) /\
    dense s /\
    (forall a, ModelRegistry.getCreatorModels a s
               = Ok ((ModelRegistry.creatorModels s)⟦a⟧, s, [])) /\
    indexed_by_creator s.
Proof.
  intros deployer txs Hlen s.
  destruct (run_any_inv txs (ModelRegistry.constructor deployer)) as (Hd & Hi & Hc & _).
  - cbn. lia.
  - intros id. cbn. split; [done|lia].
  - intros a. cbn. split; [apply NoDup_nil_2|]. intros id. split; [by intros ?%elem_of_nil|].
    by intros [? _].
  - fold s in Hd, Hi, Hc. cbn in Hc. done.
Qed.

(** Two registrations by 11 and 12 and a refused update by a stranger. *)
Lemma registry_ids_after_two_registrations :
  let s := ModelRegistry.run_any
             [(mkEnv 11 0 1000, ModelRegistry.RegisterModel "QmModel" "QmMeta");
              (mkEnv 12 0 2000, ModelRegistry.RegisterDerivativeModel "QmDeriv" "QmMeta1" 0);
              (mkEnv 66 0 3000,
               ModelRegistry.ByCreator (ModelRegistry.UpdateMetadata 0 "QmEvil"))]
             (ModelRegistry.constructor 1) in
  ModelRegistry.getModelCount s = Ok (ModelRegistry._modelIdCounter s, s, []) /\
  ModelRegistry._modelIdCounter s <= 3 /\
  dense s /\
  (forall a, ModelRegistry.getCreatorModels a s
             = Ok ((ModelRegistry.creatorModels s)⟦a⟧, s, [])) /\
  indexed_by_creator s.
Proof.
  apply (registry_ids_are_dense 1
           [(mkEnv 11 0 1000, ModelRegistry.RegisterModel "QmModel" "QmMeta");
            (mkEnv 12 0 2000, ModelRegistry.RegisterDerivativeModel "QmDeriv" "QmMeta1" 0);
            (mkEnv 66 0 3000,
             ModelRegistry.ByCreator (ModelRegistry.UpdateMetadata 0 "QmEvil"))]).
  by vm_compute.
Defined.

(** X6.  A registered model is permanent.  Once a model is registered on
    a registry deployed empty, no later call of any function of the
    registry by any caller (registrations, metadata updates, toggles,
    derivative counting, admin calls; fewer than 2^256 calls in all) changes
    its creator, its creation timestamp or its model file reference, or
    unregisters it. *)
Theorem registered_model_is_permanent :
  forall deployer txs more id,
    N.of_nat (length txs + length more) <= MAX_UINT256 ->
    let s := ModelRegistry.run_any txs (ModelRegistry.constructor deployer) in
    let s' := ModelRegistry.run_any more s in
    ModelRegistry.exists_ (ModelRegistry.models s)⟦id⟧ = true ->
    same_core (ModelRegistry.models s')⟦id⟧ (ModelRegistry.models s)⟦id⟧.
Proof.
  intros deployer txs more id Hlen s s' Hex.
  destruct (run_any_inv txs (ModelRegistry.constructor deployer)) as (Hd & Hi & Hc & _).
  - cbn. lia.
  - intros id'. cbn. split; [done|lia].
  - intros a. cbn. split; [apply NoDup_nil_2|]. intros id'.
    split; [by intros ?%elem_of_nil|]. by intros [? _].
  - fold s in Hd, Hi, Hc. cbn in Hc.
    destruct (run_any_inv more s) as (_ & _ & _ & Hcore); [lia|done|done|].
    by apply Hcore.
Qed.

(** Model 0, registered by 11, after a re-registration attempt, an update
    by its creator and a toggle by a stranger. *)
Lemma registered_model_0_is_permanent :
  let s := ModelRegistry.run_any
             [(mkEnv 11 0 1000, ModelRegistry.RegisterModel "QmModel" "QmMeta")]
             (ModelRegistry.constructor 1) in
  let s' := ModelRegistry.run_any
              [(mkEnv 66 0 2000, ModelRegistry.RegisterModel "QmModel" "QmMeta");
               (mkEnv 11 0 3000,
                ModelRegistry.ByCreator (ModelRegistry.UpdateMetadata 0 "QmMeta2"));
               (mkEnv 66 0 4000, ModelRegistry.ByCreator (ModelRegistry.ToggleModelActive 0))]
              s in
  same_core (ModelRegistry.models s')⟦0⟧ (ModelRegistry.models s)⟦0⟧.
Proof.
  apply (registered_model_is_permanent 1
           [(mkEnv 11 0 1000, ModelRegistry.RegisterModel "QmModel" "QmMeta")]
           [(mkEnv 66 0 2000, ModelRegistry.RegisterModel "QmModel" "QmMeta");
            (mkEnv 11 0 3000,
             ModelRegistry.ByCreator (ModelRegistry.UpdateMetadata 0 "QmMeta2"));
            (mkEnv 66 0 4000, ModelRegistry.ByCreator (ModelRegistry.ToggleModelActive 0))]
           0).
  - by vm_compute.
  - reflexivity.
Defined.

(** X7.  A derivative is counted twice.  [registerDerivativeModel]
    appends the new model to the derivatives of the original and increments
    the original's [derivativeCount]; when a derivative royalty is then set
    for that model, [setDerivativeRoyalty] has the registry increment the
    same counter again.  So one derivative leaves [derivativeCount] two
    higher while [getDerivatives] has grown by one entry. *)
Theorem derivative_is_counted_twice :
  forall env modelIPFS metadataIPFS o s d s1 t1 env' bps w w2 t2,
    ModelRegistry.registerDerivativeModel env modelIPFS metadataIPFS o s = Ok (d, s1, t1) ->
    o < ModelRegistry._modelIdCounter s ->
    DerivativeRoyaltyRegistry.registry w = s1 ->
    DerivativeRoyaltyRegistry.setDerivativeRoyalty env' d o bps w = Ok (tt, w2, t2) ->
    ModelRegistry.derivativeCount
      (ModelRegistry.models (DerivativeRoyaltyRegistry.registry w2))⟦o⟧
      = ModelRegistry.derivativeCount (ModelRegistry.models s)⟦o⟧ + 2 /\
    ModelRegistry.getDerivatives o (DerivativeRoyaltyRegistry.registry w2)
      = Ok ((ModelRegistry.modelDerivatives s)⟦o⟧ ++ [d],
            DerivativeRoyaltyRegistry.registry w2, []).
Proof.
  intros env a b o s d s1 t1 env' bps w w2 t2 Hreg Ho Hw Hset.
  rewrite registerDerivativeModel_eq, registerModel_eq in Hreg; cbv zeta in Hreg.
  destruct (ModelRegistry.exists_ (ModelRegistry.models s)⟦o⟧) eqn:Hex; [|done].
  cbn [negb] in Hreg.
  destruct (nonempty a); [|done]. destruct (nonempty b); [|done]. cbn [negb] in Hreg.
  cbn [ModelRegistry.models ModelRegistry.modelDerivatives] in Hreg.
  assert (ModelRegistry._modelIdCounter s <> o) as Hne by (intros E; lia).
  rewrite mapping_get_insert_ne in Hreg by done.
  destruct (_ <=? _) eqn:Hle; [|done]. cbn [negb] in Hreg.
  injection Hreg as <- Hs1 _.
  assert ((ModelRegistry.models s1)⟦o⟧
          = ModelRegistry.set_derivativeCount
              (ModelRegistry.derivativeCount (ModelRegistry.models s)⟦o⟧ + 1)
              (ModelRegistry.models s)⟦o⟧) as Hmo
    by (rewrite <- Hs1; cbn; by rewrite mapping_get_insert).
  assert (ModelRegistry.exists_ (ModelRegistry.models s1)⟦ModelRegistry._modelIdCounter s⟧
          = true) as Hmc.
  { rewrite <- Hs1; cbn. rewrite mapping_get_insert_ne by done.
    by rewrite mapping_get_insert. }
  assert ((ModelRegistry.modelDerivatives s1)⟦o⟧
          = (ModelRegistry.modelDerivatives s)⟦o⟧ ++ [ModelRegistry._modelIdCounter s]) as Hmd
    by (rewrite <- Hs1; cbn; by rewrite mapping_get_insert).
  clear Hs1.
  rewrite setDerivativeRoyalty_eq in Hset; cbv zeta in Hset.
  rewrite Hw, Hmc, Hmo in Hset.
  cbn [negb ModelRegistry.exists_ ModelRegistry.set_derivativeCount
       ModelRegistry.creator ModelRegistry.derivativeCount] in Hset.
  rewrite Hex in Hset. cbn [negb] in Hset.
  repeat case_match; simplify_eq.
  cbn [DerivativeRoyaltyRegistry.registry DerivativeRoyaltyRegistry.set_registry
       ModelRegistry.models ModelRegistry.set_models].
  rewrite mapping_get_insert. split; [cbn; lia|].
  unfold ModelRegistry.getDerivatives, ModelRegistry.modelExists,
    mbind, M_bind, bind, gets, require; cbn [ModelRegistry.models ModelRegistry.set_models].
  rewrite mapping_get_insert.
  cbn [ModelRegistry.exists_ ModelRegistry.set_derivativeCount]. rewrite Hex. cbn.
  by rewrite Hmd.
Qed.

(** Model 0 by creator 11; 12 registers a derivative of it and a 10%
    derivative royalty is set (the royalty registry, at 300, is the
    registry's marketplace). *)
Lemma derivative_of_model_0_counted_twice :
  exists s1 t1 w2 t2,
    ModelRegistry.registerDerivativeModel (mkEnv 12 0 2000) "QmDeriv" "QmMeta1" 0
      (ModelRegistry.set_marketplace 300 scenario_registry) = Ok (1, s1, t1) /\
    DerivativeRoyaltyRegistry.setDerivativeRoyalty (mkEnv 12 0 3000) 1 0 1000
      (DerivativeRoyaltyRegistry.mkWorld s1 (DerivativeRoyaltyRegistry.constructor 1)
         300 0 (fun _ => true)) = Ok (tt, w2, t2) /\
    ModelRegistry.derivativeCount
      (ModelRegistry.models (DerivativeRoyaltyRegistry.registry w2))⟦0⟧ = 0 + 2 /\
    ModelRegistry.getDerivatives 0 (DerivativeRoyaltyRegistry.registry w2)
      = Ok ([] ++ [1], DerivativeRoyaltyRegistry.registry w2, []).
Proof.
  destruct (ModelRegistry.registerDerivativeModel (mkEnv 12 0 2000) "QmDeriv" "QmMeta1" 0
              (ModelRegistry.set_marketplace 300 scenario_registry))
    as [[[d s1] t1]|e] eqn:Hreg; [|by vm_compute in Hreg].
  assert (d = 1) as -> by (vm_compute in Hreg; congruence).
  destruct (DerivativeRoyaltyRegistry.setDerivativeRoyalty (mkEnv 12 0 3000) 1 0 1000
              (DerivativeRoyaltyRegistry.mkWorld s1 (DerivativeRoyaltyRegistry.constructor 1)
                 300 0 (fun _ => true)))
    as [[[[] w2] t2]|e] eqn:Hset.
  2: { vm_compute in Hreg. injection Hreg as <- <-. by vm_compute in Hset. }
  exists s1, t1, w2, t2. split; [done|]. split; [done|].
  refine (derivative_is_counted_twice _ _ _ _ _ _ _ _ _ _ _ _ _ Hreg _ _ Hset);
    [by vm_compute|reflexivity].
Defined.

(** X8.  The address stored by [setDerivativeRoyaltyRegistry] carries no
    authority.  Only the owner can store it, the call writes nothing but
    that one variable, and a call of [incrementDerivativeCount] from the
    stored address is still rejected unless that address is also the
    registry's [marketplace]. *)
Theorem derivativeRoyaltyRegistry_has_no_authority :
  forall admin a s s1 t env id,
    ModelRegistry.setDerivativeRoyaltyRegistry admin a s = Ok (tt, s1, t) ->
    msg_sender env = a ->
    a <> ModelRegistry.marketplace s ->
    ModelRegistry.exists_ (ModelRegistry.models s)⟦id⟧ = true ->
    msg_sender admin = ModelRegistry._owner s /\
    s1 = ModelRegistry.set_derivativeRoyaltyRegistry a s /\
    ModelRegistry.incrementDerivativeCount env id s1
      = Revert (Error "ModelRegistry: Only marketplace can call").
Proof.
  intros admin a s s1 t env id Hset <- Hne Hex.
  unfold ModelRegistry.setDerivativeRoyaltyRegistry, ModelRegistry.onlyOwner in Hset.
  minv. match goal with H : (_ =? _) = true |- _ => apply N.eqb_eq in H end.
  split; [done|]. split; [done|].
  rewrite incrementDerivativeCount_eq; cbv zeta. cbn. rewrite Hex. cbn.
  by rewrite (proj2 (N.eqb_neq _ _) Hne).
Qed.

(** The owner (1) names 300 as the derivative royalty registry; 300 then
    tries to count a derivative of model 0. *)
Lemma derivativeRoyaltyRegistry_300_rejected :
  exists s1 t,
    ModelRegistry.setDerivativeRoyaltyRegistry (mkEnv 1 0 100) 300 scenario_registry
      = Ok (tt, s1, t) /\
    1 = ModelRegistry._owner scenario_registry /\
    s1 = ModelRegistry.set_derivativeRoyaltyRegistry 300 scenario_registry /\
    ModelRegistry.incrementDerivativeCount (mkEnv 300 0 200) 0 s1
      = Revert (Error "ModelRegistry: Only marketplace can call").
Proof.
  destruct (ModelRegistry.setDerivativeRoyaltyRegistry (mkEnv 1 0 100) 300 scenario_registry)
    as [[[[] s1] t]|e] eqn:Hset; [|by vm_compute in Hset].
  exists s1, t. split; [done|].
  apply (derivativeRoyaltyRegistry_has_no_authority (mkEnv 1 0 100) 300 scenario_registry
           s1 t (mkEnv 300 0 200) 0 Hset); [reflexivity|by vm_compute|reflexivity].
Defined.


(* ================================================================= *)
(** * ModelMarketplace: the whole interface *)

(** Inversion of a successful call of a marketplace function. *)
Ltac market_inv :=
  repeat first
    [ minv1
    | match goal with
      | H : revert _ _ = Ok _ |- _ => discriminate H
      | H : (if ?c then _ else _) _ = Ok _ |- _ => destruct c eqn:?
      | H : match ?o with Some _ => _ | None => _ end _ = Ok _ |- _ => destruct o eqn:?
      | H : ModelRegistry.models_ _ _ = Ok _ |- _ => unfold ModelRegistry.models_ in H
      | H : ModelMarketplace.modelExists _ _ _ = Ok _ |- _ =>
          unfold ModelMarketplace.modelExists in H
      | H : ModelMarketplace.onlyCreator _ _ _ _ = Ok _ |- _ =>
          unfold ModelMarketplace.onlyCreator in H
      end ].

Section MarketplaceInterface.
Import ModelMarketplace.


Lemma variations_kept_refl s : variations_kept s s.
Proof. intros id i v Hv. eauto. Qed.

Lemma variations_kept_trans s1 s2 s3 :
  variations_kept s1 s2 -> variations_kept s2 s3 -> variations_kept s1 s3.
Proof.
  intros H12 H23 id i v Hv.
  destruct (H12 id i v Hv) as (v2 & Hv2 & E1 & E2 & E3).
  destruct (H23 id i v2 Hv2) as (v3 & Hv3 & F1 & F2 & F3).
  exists v3. repeat split; congruence.
Qed.

Lemma variations_kept_same s s' :
  variations s' = variations s -> variations_kept s s'.
Proof. intros E id i v Hv. rewrite E. eauto. Qed.

(** What one successful call can change: it keeps the royalty cap, the
    variations added so far, and never lowers a sold count. *)
Lemma exec_marketplace_inv reg env c s s' t :
  exec reg env c s = Ok (tt, s', t) ->
  (royalties_capped s -> royalties_capped s') /\
  variations_kept s s' /\
  (forall id, (soldCounts s)⟦id⟧ <= (soldCounts s')⟦id⟧).
Proof.
  intros H.
  destruct c as [id config|id lt p|id r b|id n p m|id i|id ms|id|id|newOwner|];
    cbn [exec] in H.
  - unfold setLicenseConfig in H. market_inv.
    split; [done|]. split; [by apply variations_kept_same|]. intros; cbn; lia.
  - unfold setLicensePrice in H. market_inv.
    all: split; [done|]; split; [by apply variations_kept_same|]; intros; cbn; lia.
  - unfold setRoyalty in H. market_inv.
    split; [|split; [by apply variations_kept_same|intros; cbn; lia]].
    intros Hcap id'. cbn. destruct (N.eqb_spec id id') as [<-|Hne].
    + rewrite mapping_get_insert. cbn.
      match goal with E : (b <=? _) = true |- _ => by apply N.leb_le in E end.
    + rewrite mapping_get_insert_ne by done. apply Hcap.
  - unfold addVariation in H. market_inv.
    split; [done|]. split; [|intros; cbn; lia].
    intros id' i v Hv. cbn. destruct (N.eqb_spec id id') as [<-|Hne].
    + rewrite mapping_get_insert. exists v. split; [|done].
      by apply lookup_app_l_Some.
    + rewrite mapping_get_insert_ne by done. eauto.
  - unfold toggleVariationActive in H. market_inv.
    split; [done|]. split; [|intros; cbn; lia].
    intros id' i' v0 Hv0. cbn. destruct (N.eqb_spec id id') as [<-|Hne].
    + rewrite mapping_get_insert. destruct (decide (N.to_nat i = i')) as [<-|Hi].
      * eexists. rewrite list_lookup_insert_eq by (by eapply lookup_lt_Some).
        split; [done|]. simplify_eq. done.
      * exists v0. by rewrite list_lookup_insert_ne.
    + rewrite mapping_get_insert_ne by done. eauto.
  - unfold setMaxSupply in H. market_inv.
    split; [done|]. split; [by apply variations_kept_same|]. intros; cbn; lia.
  - unfold toggleForSale in H. market_inv.
    split; [done|]. split; [by apply variations_kept_same|]. intros; cbn; lia.
  - rewrite incrementSoldCount_eq in H; cbv zeta in H.
    destruct (_ <=? _); [|done]. simplify_eq.
    split; [done|]. split; [by apply variations_kept_same|].
    intros id'. cbn. destruct (N.eqb_spec id id') as [<-|Hne].
    + rewrite mapping_get_insert. lia.
    + rewrite mapping_get_insert_ne by done. lia.
  - unfold transferOwnership, onlyOwner in H. market_inv.
    split; [done|]. split; [by apply variations_kept_same|]. intros; cbn; lia.
  - unfold renounceOwnership, onlyOwner in H. market_inv.
    split; [done|]. split; [by apply variations_kept_same|]. intros; cbn; lia.
Qed.

Lemma run_marketplace_inv txs : forall s,
  (royalties_capped s -> royalties_capped (run txs s)) /\
  variations_kept s (run txs s) /\
  (forall id, (soldCounts s)⟦id⟧ <= (soldCounts (run txs s))⟦id⟧).
Proof.
  induction txs as [|tx txs IH]; intros s.
  - split; [done|]. split; [apply variations_kept_refl|]. intros; cbn; lia.
  - change (run (tx :: txs) s) with (run txs (step tx s)).
    destruct (IH (step tx s)) as (Hcap' & Hv' & Hs').
    assert ((royalties_capped s -> royalties_capped (step tx s)) /\
            variations_kept s (step tx s) /\
            (forall id, (soldCounts s)⟦id⟧ <= (soldCounts (step tx s))⟦id⟧))
      as (Hcap & Hv & Hs).
    { unfold step.
      destruct (exec (fst (fst tx)) (snd (fst tx)) (snd tx) s) as [[[[] s1] t]|e] eqn:H.
      - by eapply exec_marketplace_inv.
      - split; [done|]. split; [apply variations_kept_refl|]. intros; lia. }
    split; [auto|]. split; [by eapply variations_kept_trans|].
    intros id. specialize (Hs id). specialize (Hs' id). lia.
Qed.

End MarketplaceInterface.

(** X9.  The ERC-2981 royalty never exceeds a fifth of the sale price.
    [setRoyalty] is the only function that writes a royalty and it refuses
    a rate above [MAX_ROYALTY_BPS] = 2000, so on a marketplace deployed
    empty, after any calls of any of its functions by any callers and
    whatever the registry holds, every rate is at most 2000 bps and what
    [royaltyInfo] returns is at most 20% of the sale price (and zero when
    there is no recipient). *)
Theorem royalty_is_at_most_a_fifth :
  forall deployer txs id salePrice receiver royaltyAmount s' t,
    ModelMarketplace.royaltyInfo id salePrice
      (ModelMarketplace.run txs (ModelMarketplace.constructor deployer))
      = Ok ((receiver, royaltyAmount), s', t) ->
    royalties_capped (ModelMarketplace.run txs (ModelMarketplace.constructor deployer)) /\
    5 * royaltyAmount <= salePrice /\
    (receiver = 0 -> royaltyAmount = 0).
Proof.
  intros deployer txs id salePrice receiver royaltyAmount s' t H.
  destruct (run_marketplace_inv txs (ModelMarketplace.constructor deployer)) as (Hcap & _).
  assert (royalties_capped (ModelMarketplace.run txs (ModelMarketplace.constructor deployer)))
    as Hc.
  { apply Hcap. intros id'. cbn. unfold mapping_get. rewrite lookup_empty. cbn.
    unfold ModelMarketplace.MAX_ROYALTY_BPS. lia. }
  split; [done|].
  rewrite royaltyInfo_eq in H; cbv zeta in H. specialize (Hc id).
  unfold ModelMarketplace.MAX_ROYALTY_BPS in Hc.
  destruct (N.eqb_spec (ModelMarketplace.recipient
              (ModelMarketplace.royalties
                 (ModelMarketplace.run txs (ModelMarketplace.constructor deployer)))⟦id⟧) 0)
    as [E|E].
  - injection H as <- <- _ _. split; [lia|done].
  - destruct (_ <=? _); [|done]. injection H as <- <- _ _.
    split; [|done]. revert Hc.
    generalize (ModelMarketplace.bps
                  (ModelMarketplace.royalties
                     (ModelMarketplace.run txs (ModelMarketplace.constructor deployer)))⟦id⟧).
    intros b Hb.
    assert (salePrice * b / 10000 <= salePrice * 2000 / 10000) as Hdiv
      by (apply N.Div0.div_le_mono; nia).
    assert (salePrice * 2000 / 10000 = salePrice / 5) as Hfifth.
    { replace (salePrice * 2000) with (salePrice * 2000 / 2000 * 2000)
        by (rewrite N.div_mul by done; lia).
      rewrite N.div_mul by done.
      change 10000 with (2000 * 5). rewrite <- N.Div0.div_div.
      by rewrite N.div_mul by done. }
    pose proof (N.Div0.mul_div_le salePrice 5). lia.
Qed.

(** The creator of model 0 sets a 10% royalty to 12: a sale at 300 owes 30. *)
Lemma royalty_of_300_at_1000_bps :
  let s := ModelMarketplace.run
             [(scenario_registry, mkEnv 11 0 100, ModelMarketplace.SetRoyalty 0 12 1000)]
             (ModelMarketplace.constructor 1) in
  ModelMarketplace.royaltyInfo 0 300 s = Ok ((12, 30), s, []) /\
  royalties_capped s /\ 5 * 30 <= 300 /\ (12 = 0 -> 30 = 0).
Proof.
  split; [by vm_compute|].
  apply (royalty_is_at_most_a_fifth 1
           [(scenario_registry, mkEnv 11 0 100, ModelMarketplace.SetRoyalty 0 12 1000)]
           0 300 12 30
           (ModelMarketplace.run
              [(scenario_registry, mkEnv 11 0 100, ModelMarketplace.SetRoyalty 0 12 1000)]
              (ModelMarketplace.constructor 1)) []).
  by vm_compute.
Defined.

(** X10.  Variations are never removed or re-priced, and sold counts never
    go down.  Whatever the storage, after any calls of any functions of the
    marketplace by any callers: every variation that was there is still
    there, at the same index and with the same name, price and metadata
    (only its active flag can have changed), and no sold count is lower
    than it was. *)
Theorem variations_and_sold_counts_are_kept :
  forall txs s,
    variations_kept s (ModelMarketplace.run txs s) /\
    (forall id, (ModelMarketplace.soldCounts s)⟦id⟧
                <= (ModelMarketplace.soldCounts (ModelMarketplace.run txs s))⟦id⟧).
Proof.
  intros txs s. destruct (run_marketplace_inv txs s) as (_ & Hv & Hs). done.
Qed.


(* ================================================================= *)
(** * ModelMarketplace: the view functions over variations *)

Section MarketplaceViews.
Import ModelMarketplace.

Lemma getActiveVariations_count_eq vs : forall c,
  c + N.of_nat (length vs) <= MAX_UINT256 ->
  getActiveVariations_count vs c = Ok (c + N.of_nat (length (List.filter active vs))).
Proof.
  induction vs as [|v vs IH]; intros c Hc; cbn [getActiveVariations_count List.filter length].
  - by rewrite N.add_0_r.
  - cbn [length] in Hc. destruct (active v); cbn [length].
    + unfold checked_add. rewrite (proj2 (N.leb_le (c + 1) MAX_UINT256)) by lia.
      rewrite IH by lia. f_equal. lia.
    + apply IH. lia.
Qed.

Lemma getActiveVariations_fill_eq vs : forall pre rest,
  N.of_nat (length pre) + N.of_nat (length vs) <= MAX_UINT256 ->
  length rest = length (List.filter active vs) ->
  getActiveVariations_fill vs (pre ++ rest) (N.of_nat (length pre))
    = Ok (pre ++ List.filter active vs).
Proof.
  induction vs as [|v vs IH]; intros pre rest Hlen Hrest;
    cbn [getActiveVariations_fill List.filter length] in *.
  - destruct rest; [done|discriminate].
  - destruct (active v).
    + destruct rest as [|r rest]; [discriminate|]. cbn [length] in Hrest.
      rewrite (proj2 (N.ltb_lt _ _)) by (rewrite length_app; cbn [length]; lia).
      unfold checked_add.
      rewrite (proj2 (N.leb_le (N.of_nat (length pre) + 1) MAX_UINT256)) by lia.
      rewrite Nat2N.id.
      replace (<[length pre := v]> (pre ++ r :: rest)) with ((pre ++ [v]) ++ rest).
      2:{ rewrite insert_app_r_alt by lia. rewrite Nat.sub_diag. cbn.
          by rewrite <- app_assoc. }
      replace (N.of_nat (length pre) + 1) with (N.of_nat (length (pre ++ [v])))
        by (rewrite length_app; cbn [length]; lia).
      rewrite IH.
      * by rewrite <- app_assoc.
      * rewrite length_app; cbn [length]. lia.
      * lia.
    + apply IH; [lia|done].
Qed.

Lemma getTotalPrice_loop_iff vs vids : forall total P s s' t,
  getTotalPrice_loop vs vids total s = Ok (P, s', t) <->
  s' = s /\ t = [] /\ selectable vs vids = true /\
  P = total + variation_prices vs vids /\ (vids = [] \/ P <= MAX_UINT256).
Proof.
  unfold variation_prices.
  induction vids as [|id vids IH]; intros total P s s' t;
    cbn [getTotalPrice_loop selectable forallb map].
  - unfold mret, M_ret, ret. cbn. rewrite N.add_0_r. split.
    + intros [= <- <- <-]. repeat split; by left.
    + by intros (-> & -> & _ & -> & _).
  - rewrite sum_list_cons.
    unfold mbind, M_bind, bind, require, ret, revert, lift, checked_add.
    destruct (N.ltb_spec id (N.of_nat (length vs))) as [Hlt|Hge].
    + destruct (vs !! N.to_nat id) as [v|] eqn:Hv.
      2:{ apply lookup_ge_None in Hv. lia. }
      cbn. destruct (active v); cbn.
      2:{ split; [done|]. by intros (_ & _ & ? & _). }
      destruct (N.leb_spec (total + price v) MAX_UINT256) as [Hle|Hgt]; cbn.
      * specialize (IH (total + price v) P s). rewrite <- N.add_assoc in IH.
        destruct (getTotalPrice_loop vs vids (total + price v) s) as [[[P' s1] t1]|e].
        -- split.
           ++ intros [= <- <- <-].
              destruct (proj1 (IH s1 t1) eq_refl) as (-> & -> & Hsel & HP & Hmax).
              split; [done|]. split; [done|]. split; [done|]. split; [exact HP|]. right.
              destruct Hmax as [-> | ?]; [|done]. cbn in HP. lia.
           ++ intros (-> & -> & Hsel & HP & Hmax).
              assert (Ok (P', s1, t1) = Ok (P, s, @nil event)) as Hr.
              { apply IH. split; [done|]. split; [done|]. split; [done|].
                split; [exact HP|]. right. by destruct Hmax. }
              by injection Hr as -> -> ->.
        -- split; [done|]. intros (-> & -> & Hsel & HP & Hmax).
           assert (@Revert (uint256 * Storage * list event) e = Ok (P, s, @nil event)) as Hr.
           { apply IH. split; [done|]. split; [done|]. split; [done|].
             split; [exact HP|]. right. by destruct Hmax. }
           done.
      * split; [done|]. intros (_ & _ & _ & -> & [? | ?]); [done|lia].
    + cbn. split; [done|]. intros (_ & _ & Hsel & _).
      destruct (vs !! N.to_nat id) as [v|] eqn:Hv; [|done].
      apply lookup_lt_Some in Hv. lia.
Qed.

End MarketplaceViews.

(** X11.  [getActiveVariations] returns the active variations of the
    model in the order they were added: its count-then-fill loops compute
    the filter of the variation list by the active flag (for any list whose
    length fits a [uint256], as every storage array's does), and change
    nothing. *)
Theorem getActiveVariations_is_filter :
  forall modelId s,
    N.of_nat (length (ModelMarketplace.variations s)⟦modelId⟧) <= MAX_UINT256 ->
    ModelMarketplace.getActiveVariations modelId s
      = Ok (List.filter ModelMarketplace.active (ModelMarketplace.variations s)⟦modelId⟧,
            s, []).
Proof.
  intros id s Hlen.
  unfold ModelMarketplace.getActiveVariations, mbind, M_bind, bind, gets, lift.
  rewrite getActiveVariations_count_eq by lia. rewrite N.add_0_l, Nat2N.id.
  pose proof (getActiveVariations_fill_eq (ModelMarketplace.variations s)⟦id⟧ []
                (replicate (length (List.filter ModelMarketplace.active
                                      (ModelMarketplace.variations s)⟦id⟧)) zero)) as Hfill.
  change (N.of_nat (length (@nil ModelMarketplace.Variation))) with 0 in Hfill.
  cbn [app] in Hfill. rewrite Hfill; [done|lia|by rewrite length_replicate].
Qed.

(** Three variations of model 0, the second switched off. *)
Lemma getActiveVariations_of_three :
  let s := ModelMarketplace.set_variations
             {[ 0 := [ModelMarketplace.mkVariation "oak" 10 "QmOak" true;
                      ModelMarketplace.mkVariation "pine" 20 "QmPine" false;
                      ModelMarketplace.mkVariation "steel" 30 "QmSteel" true] ]}
             (ModelMarketplace.constructor 1) in
  ModelMarketplace.getActiveVariations 0 s
    = Ok (List.filter ModelMarketplace.active (ModelMarketplace.variations s)⟦0⟧, s, []).
Proof.
  apply (getActiveVariations_is_filter 0
           (ModelMarketplace.set_variations
              {[ 0 := [ModelMarketplace.mkVariation "oak" 10 "QmOak" true;
                       ModelMarketplace.mkVariation "pine" 20 "QmPine" false;
                       ModelMarketplace.mkVariation "steel" 30 "QmSteel" true] ]}
              (ModelMarketplace.constructor 1))).
  by vm_compute.
Defined.

(** X12.  [getTotalPrice] succeeds exactly when the license type is one
    of the four tiers, every selected variation id is in range and active,
    and (when a variation is selected) the sum fits a [uint256]; it then
    returns the tier price plus the prices of the selected variations, an
    id that is listed twice being charged twice, and changes nothing. *)
Theorem getTotalPrice_is_tier_plus_variations :
  forall modelId licenseType variationIds s P s' t,
    ModelMarketplace.getTotalPrice modelId licenseType variationIds s = Ok (P, s', t) <->
    s' = s /\ t = [] /\
    exists base,
      ModelMarketplace.getLicensePrice modelId licenseType s = Ok (base, s, []) /\
      selectable (ModelMarketplace.variations s)⟦modelId⟧ variationIds = true /\
      P = base + variation_prices (ModelMarketplace.variations s)⟦modelId⟧ variationIds /\
      (variationIds = [] \/ P <= MAX_UINT256).
Proof.
  intros id lt vids s P s' t.
  unfold ModelMarketplace.getTotalPrice.
  unfold mbind at 1, M_bind at 1, bind at 1.
  destruct (ModelMarketplace.getLicensePrice id lt s) as [[[base s1] t1]|e] eqn:Hbase.
  2:{ split; [done|]. by intros (_ & _ & base & ? & _). }
  destruct (getLicensePrice_pure _ _ _ _ _ _ Hbase) as [-> ->].
  unfold mbind, M_bind, bind, gets.
  pose proof (getTotalPrice_loop_iff (ModelMarketplace.variations s)⟦id⟧ vids base P s)
    as Hloop.
  destruct (ModelMarketplace.getTotalPrice_loop _ vids base s) as [[[P' s2] t2]|e].
  - split.
    + intros [= <- <- <-]. destruct (proj1 (Hloop s2 t2) eq_refl) as (-> & -> & ? & ? & ?).
      split; [done|]. split; [done|]. exists base. done.
    + intros (-> & -> & base' & [= <-] & Hsel & HP & Hmax).
      assert (Ok (P', s2, t2) = Ok (P, s, @nil event)) as Hr by (by apply Hloop).
      by injection Hr as -> -> ->.
  - split; [done|]. intros (-> & -> & base' & [= <-] & Hsel & HP & Hmax).
    assert (@Revert (uint256 * ModelMarketplace.Storage * list event) e
            = Ok (P, s, @nil event)) as Hr by (by apply Hloop).
    done.
Qed.


(* ================================================================= *)
(** * ModelMarketplace: what the creator's calls leave behind *)

Section MarketplaceRoundTrips.
Import ModelMarketplace.

Lemma str_eq_true a b : str_eq a b = true -> a = b.
Proof. unfold str_eq. by intros ?%bool_decide_eq_true. Qed.

Lemma mapping_nonempty_lookup {A} (m : gmap N (list A)) k (l : list A) i x :
  m⟦k⟧ = l -> l !! i = Some x -> m !! k = Some l.
Proof.
  unfold mapping_get. destruct (m !! k) as [l'|]; cbn; [by intros ->|].
  unfold zero, list_zero. by intros <-.
Qed.

End MarketplaceRoundTrips.

(** X13.  [setLicensePrice] and [getLicensePrice] round-trip.  A
    successful [setLicensePrice] comes from the creator of the model; the
    price it wrote is what [getLicensePrice] then returns for that tier;
    the prices of the other tiers and every duration of the model are as
    they were; and no other model is affected. *)
Theorem setLicensePrice_then_getLicensePrice :
  forall registry env modelId licenseType price s s' t,
    ModelMarketplace.setLicensePrice registry env modelId licenseType price s
      = Ok (tt, s', t) ->
    ModelRegistry.creator (ModelRegistry.models registry)⟦modelId⟧ = msg_sender env /\
    ModelMarketplace.getLicensePrice modelId licenseType s' = Ok (price, s', []) /\
    (forall other P,
       other <> licenseType ->
       ModelMarketplace.getLicensePrice modelId other s = Ok (P, s, []) ->
       ModelMarketplace.getLicensePrice modelId other s' = Ok (P, s', [])) /\
    (forall tier D,
       ModelMarketplace.getLicenseDuration modelId tier s = Ok (D, s, []) ->
       ModelMarketplace.getLicenseDuration modelId tier s' = Ok (D, s', [])) /\
    (forall modelId',
       modelId' <> modelId ->
       (ModelMarketplace.licenseConfigs s')⟦modelId'⟧
       = (ModelMarketplace.licenseConfigs s)⟦modelId'⟧).
Proof.
  intros registry env id lt p s s' t H.
  unfold ModelMarketplace.setLicensePrice in H. market_inv.
  all: match goal with E : (_ =? msg_sender _) = true |- _ => apply N.eqb_eq in E end.
  all: split; [done|].
  all: repeat match goal with
              | E : str_eq _ _ = true |- _ => apply str_eq_true in E; subst
              | E : str_eq _ _ = false |- _ => clear E
              end.
  all: split; [unfold ModelMarketplace.getLicensePrice, mbind, M_bind, bind, gets,
                 mret, M_ret, ret; cbn; by rewrite mapping_get_insert|].
  all: split;
    [intros other P Hother;
     unfold ModelMarketplace.getLicensePrice, mbind, M_bind, bind, gets,
       mret, M_ret, ret, revert, str_eq; cbn; rewrite mapping_get_insert;
     repeat case_bool_decide; simplify_eq; cbn; congruence|].
  all: split;
    [intros tier D;
     unfold ModelMarketplace.getLicenseDuration, mbind, M_bind, bind, gets,
       mret, M_ret, ret, revert, str_eq; cbn; rewrite mapping_get_insert;
     repeat case_bool_decide; simplify_eq; cbn; congruence|].
  all: intros id' Hne; cbn; by rewrite mapping_get_insert_ne.
Qed.

(** The creator of model 0 reprices the Commercial tier to 450. *)
Lemma setLicensePrice_commercial_450 :
  exists s' t,
    ModelMarketplace.setLicensePrice scenario_registry (mkEnv 11 0 100) 0 "commercial" 450
      scenario_marketplace = Ok (tt, s', t) /\
    ModelMarketplace.getLicensePrice 0 "commercial" s' = Ok (450, s', []).
Proof.
  destruct (ModelMarketplace.setLicensePrice scenario_registry (mkEnv 11 0 100) 0
              "commercial" 450 scenario_marketplace) as [[[[] s'] t]|e] eqn:H;
    [|by vm_compute in H].
  exists s', t. split; [done|].
  exact (proj1 (proj2 (setLicensePrice_then_getLicensePrice _ _ _ _ _ _ _ _ H))).
Defined.

(** X14.  Toggling twice restores.  A second [toggleVariationActive] on
    the same variation by the same caller succeeds and gives back exactly
    the storage before the first; a second [toggleForSale] succeeds and
    gives back a storage that reads the same everywhere. *)
Theorem toggles_are_involutions :
  (forall registry env modelId variationIndex s s1 t1,
     ModelMarketplace.toggleVariationActive registry env modelId variationIndex s
       = Ok (tt, s1, t1) ->
     ModelMarketplace.toggleVariationActive registry env modelId variationIndex s1
       = Ok (tt, s, t1)) /\
  (forall registry env modelId s s1 t1,
     ModelMarketplace.toggleForSale registry env modelId s = Ok (tt, s1, t1) ->
     (ModelMarketplace.forSale s1)⟦modelId⟧ = negb (ModelMarketplace.forSale s)⟦modelId⟧ /\
     exists s2,
       ModelMarketplace.toggleForSale registry env modelId s1 = Ok (tt, s2, t1) /\
       (forall id, (ModelMarketplace.forSale s2)⟦id⟧ = (ModelMarketplace.forSale s)⟦id⟧) /\
       ModelMarketplace.set_forSale (ModelMarketplace.forSale s) s2 = s).
Proof.
  split.
  - intros registry env id i s s1 t1 H.
    unfold ModelMarketplace.toggleVariationActive in H. market_inv.
    unfold ModelMarketplace.toggleVariationActive, ModelMarketplace.modelExists,
      ModelMarketplace.onlyCreator, ModelRegistry.models_, view,
      mbind, M_bind, bind, gets, require, sstore, ret, revert.
    cbn. repeat match goal with E : _ = true |- _ => rewrite E end. cbn.
    rewrite mapping_get_insert, length_insert.
    repeat match goal with E : _ = true |- _ => rewrite E end. cbn.
    match goal with E : _ !! N.to_nat i = Some _ |- _ =>
      rewrite list_lookup_insert_eq by (by eapply lookup_lt_Some); pose proof E as Hv
    end.
    match goal with |- Ok (_, ?X, _) = _ => assert (X = s) as -> end; [|done].
    unfold ModelMarketplace.set_variations; cbn.
    rewrite insert_insert_eq, list_insert_insert_eq.
    destruct v as [n p m a]. cbn. rewrite negb_involutive.
    rewrite list_insert_id by done.
    rewrite insert_id by (by eapply mapping_nonempty_lookup).
    by destruct s.
  - intros registry env id s s1 t1 H.
    unfold ModelMarketplace.toggleForSale in H. market_inv.
    split; [cbn; by rewrite mapping_get_insert|].
    unfold ModelMarketplace.toggleForSale, ModelMarketplace.modelExists,
      ModelMarketplace.onlyCreator, ModelRegistry.models_, view,
      mbind, M_bind, bind, gets, require, sstore, ret, revert.
    cbn. repeat match goal with E : _ = true |- _ => rewrite E end. cbn.
    eexists. split; [reflexivity|]. cbn. split.
    + intros id'. rewrite mapping_get_insert, insert_insert_eq, negb_involutive.
      destruct (N.eqb_spec id id') as [<-|Hne].
      * by rewrite mapping_get_insert.
      * by rewrite mapping_get_insert_ne.
    + by destruct s.
Qed.

(** The creator of model 0 takes it off sale and puts it back. *)
Lemma toggleForSale_twice_model_0 :
  exists s1 t1,
    ModelMarketplace.toggleForSale scenario_registry (mkEnv 11 0 100) 0 scenario_marketplace
      = Ok (tt, s1, t1) /\
    (ModelMarketplace.forSale s1)⟦0⟧ = negb (ModelMarketplace.forSale scenario_marketplace)⟦0⟧.
Proof.
  destruct (ModelMarketplace.toggleForSale scenario_registry (mkEnv 11 0 100) 0
              scenario_marketplace) as [[[[] s1] t1]|e] eqn:H; [|by vm_compute in H].
  exists s1, t1. split; [done|].
  exact (proj1 (proj2 toggles_are_involutions _ _ _ _ _ _ H)).
Defined.



(** X16.  The supply cap.  [setMaxSupply] accepts only zero (unlimited) or
    a cap that is not below the sold count, and changes no sold count.
    With a nonzero cap, a purchase of a model whose sold count has reached
    the cap fails (with "Model not available", unless the entry guard has
    already rejected it), and a purchase that succeeds raises the sold
    count by one without taking it above the cap. *)
Theorem supply_cap_is_respected :
  (forall registry env modelId maxSupply s s' t,
     ModelMarketplace.setMaxSupply registry env modelId maxSupply s = Ok (tt, s', t) ->
     (ModelMarketplace.maxSupplies s')⟦modelId⟧ = maxSupply /\
     (maxSupply = 0 \/ (ModelMarketplace.soldCounts s)⟦modelId⟧ <= maxSupply) /\
     ModelMarketplace.soldCounts s' = ModelMarketplace.soldCounts s) /\
  (forall env modelId licenseType variationIds w,
     let cap := (ModelMarketplace.maxSupplies (ModelToken.marketplace w))⟦modelId⟧ in
     let sold := (ModelMarketplace.soldCounts (ModelToken.marketplace w))⟦modelId⟧ in
     0 < cap ->
     (cap <= sold ->
      ModelToken.purchaseModel env modelId licenseType variationIds w
        = Revert TokenDoesNotExist \/
      ModelToken.purchaseModel env modelId licenseType variationIds w
        = Revert Unavailable) /\
     (forall w' t,
        ModelToken.purchaseModel env modelId licenseType variationIds w = Ok (tt, w', t) ->
        (ModelMarketplace.soldCounts (ModelToken.marketplace w'))⟦modelId⟧ = sold + 1 /\
        sold + 1 <= cap /\
        (ModelMarketplace.maxSupplies (ModelToken.marketplace w'))⟦modelId⟧ = cap)).
Proof.
  split.
  - intros registry env id ms s s' t H.
    unfold ModelMarketplace.setMaxSupply in H. market_inv.
    cbn. rewrite mapping_get_insert. split; [done|]. split; [|done].
    match goal with E : (_ || _) = true |- _ => apply orb_true_iff in E as [E|E] end.
    + left. by apply N.eqb_eq.
    + right. by apply N.leb_le.
  - intros env id lt vids w cap sold Hcap. split.
    + intros Hfull. rewrite purchaseModel_eq, canPurchase_eq; cbv zeta.
      destruct (_ =? 0); [by left|right].
      fold cap sold.
      rewrite (proj2 (N.ltb_lt 0 cap) Hcap), (proj2 (N.leb_le cap sold) Hfull).
      cbn. by rewrite andb_false_r.
    + intros w' t H.
      destruct (purchase_storage _ _ _ _ _ _ _ H) as (Hguard & P & A & D & exp & b & ->).
      cbn. rewrite mapping_get_insert. fold sold cap. split; [done|]. split; [|done].
      destruct (available w id) eqn:Hav.
      * unfold available in Hav. fold cap sold in Hav.
        apply andb_true_iff in Hav as [_ Hav]. apply negb_true_iff in Hav.
        rewrite (proj2 (N.ltb_lt 0 cap) Hcap) in Hav. cbn in Hav.
        apply N.leb_gt in Hav. lia.
      * apply (purchase_unavailable_iff env id lt vids w Hguard) in Hav. congruence.
Qed.

(** Model 0 capped at one copy and not yet sold: the purchase at 300 goes
    through and exhausts the supply. *)
Lemma supply_cap_of_one :
  let w := ModelToken.set_marketplace
             (ModelMarketplace.set_maxSupplies {[ 0 := 1 ]} scenario_marketplace)
             token_world_live in
  exists w' t,
    ModelToken.purchaseModel (mkEnv 13 300 5000) 0 "commercial" [] w = Ok (tt, w', t) /\
    (ModelMarketplace.soldCounts (ModelToken.marketplace w'))⟦0⟧ = 0 + 1 /\
    0 + 1 <= 1.
Proof.
  intros w.
  destruct (ModelToken.purchaseModel (mkEnv 13 300 5000) 0 "commercial" [] w)
    as [[[[] w'] t]|e] eqn:H; [|by vm_compute in H].
  exists w', t. split; [done|].
  destruct (proj2 supply_cap_is_respected (mkEnv 13 300 5000) 0 "commercial" [] w
              ltac:(by vm_compute)) as [_ Hok].
  destruct (Hok w' t H) as (H1 & H2 & _). split; [exact H1|exact H2].
Defined.


(* ================================================================= *)
(** * ModelToken: the helpers *)

Section ToString.
Import ModelToken.

Lemma pow10_succ n : 10 ^ N.of_nat (S n) = 10 * 10 ^ N.of_nat n.
Proof. by rewrite Nat2N.inj_succ, N.pow_succ_r'. Qed.

(** The loop writes the decimal digits of [value] in front of the
    buffer, provided the fuel covers the number of digits. *)
Lemma _toString_loop_value fuel : forall value buffer,
  value < 10 ^ N.of_nat fuel ->
  decimal_value (_toString_loop fuel value buffer)
    = value * 10 ^ N.of_nat (String.length buffer) + decimal_value buffer /\
  (all_digits buffer = true -> all_digits (_toString_loop fuel value buffer) = true).
Proof.
  induction fuel as [|fuel IH]; intros value buffer Hv.
  - cbn in Hv. assert (value = 0) as -> by lia. cbn. split; [lia|done].
  - cbn [_toString_loop]. destruct (N.eqb_spec value 0) as [->|Hne]; [split; [lia|done]|].
    rewrite pow10_succ in Hv.
    assert (value / 10 < 10 ^ N.of_nat fuel) as Hdiv
      by (apply N.Div0.div_lt_upper_bound; lia).
    pose proof (N.mod_lt value 10 ltac:(lia)) as Hmod.
    destruct (IH (value / 10) (String (Ascii.ascii_of_N (48 + value mod 10)) buffer) Hdiv)
      as [Hval Hdig].
    split.
    + rewrite Hval. cbn [decimal_value String.length].
      rewrite Ascii.N_ascii_embedding by (clear -Hmod; lia). rewrite pow10_succ.
      pose proof (N.div_mod value 10 ltac:(lia)) as Hdm.
      rewrite (N.add_comm 48), N.add_sub.
      generalize dependent (10 ^ N.of_nat (String.length buffer)).
      generalize dependent (value / 10). generalize dependent (value mod 10).
      intros; nia.
    + intros Hb. apply Hdig. cbn [all_digits].
      rewrite Ascii.N_ascii_embedding by (clear -Hmod; lia). rewrite Hb.
      destruct (N.leb_spec 48 (48 + value mod 10)) as [_|Hlt].
      2:{ exfalso. clear -Hlt. generalize dependent (value mod 10). intros; lia. }
      destruct (N.leb_spec (48 + value mod 10) 57) as [_|Hgt]; [done|].
      exfalso. clear -Hmod Hgt. lia.
Qed.

Lemma _toString_value value :
  value <= MAX_UINT256 ->
  decimal_value (_toString value) = value /\ all_digits (_toString value) = true.
Proof.
  intros Hv. unfold _toString. destruct (N.eqb_spec value 0) as [->|Hne]; [done|].
  destruct (_toString_loop_value 78 value "") as [Hval Hdig].
  - eapply N.le_lt_trans; [exact Hv|]. by vm_compute.
  - split; [|by apply Hdig]. rewrite Hval. cbn. lia.
Qed.

End ToString.

(** X17.  [_toString] writes the decimal representation.  For every
    [uint256] the string it returns consists of decimal digits only and
    denotes the number it was given; so distinct numbers give distinct
    strings. *)
Theorem _toString_is_decimal :
  forall value,
    value <= MAX_UINT256 ->
    all_digits (ModelToken._toString value) = true /\
    decimal_value (ModelToken._toString value) = value /\
    (forall value',
       value' <= MAX_UINT256 ->
       ModelToken._toString value' = ModelToken._toString value -> value' = value).
Proof.
  intros value Hv. destruct (_toString_value value Hv) as [Hval Hdig].
  split; [done|]. split; [done|].
  intros value' Hv' E. destruct (_toString_value value' Hv') as [Hval' _]. congruence.
Qed.

(** The largest [uint256] has 78 digits, all of them written. *)
Lemma _toString_of_max_uint256 :
  all_digits (ModelToken._toString MAX_UINT256) = true /\
  decimal_value (ModelToken._toString MAX_UINT256) = MAX_UINT256 /\
  String.length (ModelToken._toString MAX_UINT256) = 78%nat.
Proof.
  destruct (_toString_is_decimal MAX_UINT256 ltac:(by vm_compute)) as (H1 & H2 & _).
  split; [exact H1|]. split; [exact H2|]. by vm_compute.
Defined.


(* ================================================================= *)
(** * ModelToken: the per-owner token lists *)

Section OwnedTokens.
Import ModelToken.

Lemma index_of_Some tokenId tokens : forall k i,
  index_of tokenId tokens k = Some i ->
  exists j, i = (k + j)%nat /\ tokens !! j = Some tokenId.
Proof.
  induction tokens as [|x tokens IH]; intros k i; cbn; [done|].
  destruct (N.eqb_spec x tokenId) as [->|Hne].
  - intros [= <-]. exists 0%nat. split; [lia|done].
  - intros (j & -> & Hj)%IH. exists (S j). split; [lia|done].
Qed.

Lemma index_of_None tokenId tokens : forall k,
  index_of tokenId tokens k = None -> tokenId ∉ tokens.
Proof.
  induction tokens as [|x tokens IH]; intros k; cbn; [intros _; apply not_elem_of_nil|].
  destruct (N.eqb_spec x tokenId) as [->|Hne]; [done|].
  intros H%IH. apply not_elem_of_cons. split; [congruence|done].
Qed.

Lemma swap_remove_perm tokenId tokens :
  tokenId ∈ tokens -> tokenId :: swap_remove tokenId tokens ≡ₚ tokens.
Proof.
  intros Hin. unfold swap_remove.
  destruct (index_of tokenId tokens 0) as [i|] eqn:Hidx.
  2:{ by apply index_of_None in Hidx. }
  apply index_of_Some in Hidx as (j & -> & Hj). cbn [Nat.add].
  destruct (exists_last (l := tokens)) as (front & z & ->).
  { intros ->. by apply elem_of_nil in Hin. }
  rewrite last_last.
  destruct (decide (j < length front)%nat) as [Hlt|Hge].
  - rewrite insert_app_l by done. rewrite removelast_last.
    rewrite lookup_app_l in Hj by done.
    rewrite <- (take_drop_middle front j tokenId Hj) at 2.
    rewrite (insert_take_drop front j z) by done.
    generalize (take j front) (drop (S j) front). intros l1 l2.
    solve_Permutation.
  - assert (j = length front) as ->.
    { apply lookup_lt_Some in Hj. rewrite length_app in Hj. cbn in Hj. lia. }
    rewrite list_lookup_middle in Hj by done. injection Hj as ->.
    rewrite insert_app_r_alt by lia. rewrite Nat.sub_diag. cbn.
    rewrite removelast_last. by rewrite <- Permutation_cons_append.
Qed.

Lemma swap_remove_same tokenId tokens :
  tokenId ∉ tokens -> swap_remove tokenId tokens = tokens.
Proof.
  intros Hnin. unfold swap_remove.
  destruct (index_of tokenId tokens 0) as [i|] eqn:Hidx; [|done].
  apply index_of_Some in Hidx as (j & -> & Hj).
  exfalso. apply Hnin. by eapply list_elem_of_lookup_2.
Qed.

End OwnedTokens.

(** X18.  The swap-and-pop of [_update] removes one entry.  When the
    token id is in the list, the list after the removal together with the
    id is a rearrangement of the list before (one occurrence is gone, the
    last entry has taken its place, the length is one less); when it is not
    in the list, the list is unchanged. *)
Theorem swap_remove_removes_one :
  forall tokenId tokens,
    (tokenId ∈ tokens ->
     tokenId :: ModelToken.swap_remove tokenId tokens ≡ₚ tokens /\
     S (length (ModelToken.swap_remove tokenId tokens)) = length tokens /\
     (NoDup tokens -> tokenId ∉ ModelToken.swap_remove tokenId tokens)) /\
    (tokenId ∉ tokens -> ModelToken.swap_remove tokenId tokens = tokens).
Proof.
  intros tokenId tokens. split; [|apply swap_remove_same].
  intros Hin. pose proof (swap_remove_perm tokenId tokens Hin) as Hperm.
  split; [done|]. split.
  - by apply Permutation_length in Hperm.
  - intros Hnd. rewrite <- Hperm in Hnd. by apply NoDup_cons in Hnd as [? _].
Qed.

(** Removing 5 from [5; 7; 9]: 9 takes its place. *)
Lemma swap_remove_5_7_9 :
  ModelToken.swap_remove 5 [5; 7; 9] = [9; 7] /\
  5 :: ModelToken.swap_remove 5 [5; 7; 9] ≡ₚ [5; 7; 9].
Proof.
  split; [reflexivity|].
  apply (proj1 (swap_remove_removes_one 5 [5; 7; 9])).
  apply list_elem_of_here.
Defined.

(** X19.  A transfer moves the token and its list entry and keeps the
    license.  A successful [transferFrom] of an existing token is from its
    owner to a non-null recipient; afterwards the recipient owns the token,
    the approval of the token is cleared, the token id has been taken out
    of the sender's list by swap-and-pop and appended to the recipient's,
    and the purchase records, the record counter and the balance of the
    contract are as they were. *)
Theorem transferFrom_moves_token :
  forall env from to tokenId w w' t,
    ModelToken.transferFrom env from to tokenId w = Ok (tt, w', t) ->
    from <> 0 ->
    (ModelToken._owners (ModelToken.storage w))⟦tokenId⟧ = from /\
    to <> 0 /\
    (ModelToken._owners (ModelToken.storage w'))⟦tokenId⟧ = to /\
    (ModelToken._tokenApprovals (ModelToken.storage w'))⟦tokenId⟧ = 0 /\
    (ModelToken.userTokens (ModelToken.storage w'))⟦to⟧
      = (if from =? to
         then ModelToken.swap_remove tokenId (ModelToken.userTokens (ModelToken.storage w))⟦from⟧
         else (ModelToken.userTokens (ModelToken.storage w))⟦to⟧) ++ [tokenId] /\
    (from <> to ->
     (ModelToken.userTokens (ModelToken.storage w'))⟦from⟧
       = ModelToken.swap_remove tokenId (ModelToken.userTokens (ModelToken.storage w))⟦from⟧) /\
    ModelToken.purchaseSnapshots (ModelToken.storage w')
      = ModelToken.purchaseSnapshots (ModelToken.storage w) /\
    ModelToken._tokenIdCounter (ModelToken.storage w')
      = ModelToken._tokenIdCounter (ModelToken.storage w) /\
    ModelToken.balance w' = ModelToken.balance w.
Proof.
  intros env from to tokenId w w' t H Hfrom.
  unfold ModelToken.transferFrom in H. erc721_inv; try discriminate.
  all: cbn in *.
  all: repeat match goal with
              | E : negb _ = false |- _ => apply negb_false_iff in E
              | E : negb _ = true |- _ => apply negb_true_iff in E
              | E : (_ =? _) = true |- _ => apply N.eqb_eq in E
              | E : (_ =? _) = false |- _ => apply N.eqb_neq in E
              | E : _ && _ = true |- _ => apply andb_true_iff in E as [? ?]
              | E : _ && _ = false |- _ => apply andb_false_iff in E as [E|E]
              end.
  all: try congruence.
  all: subst.
  all: split; [done|]; split; [done|].
  all: rewrite ?mapping_get_insert.
  all: split; [done|]; split; [done|].
  all: destruct (N.eqb_spec ((ModelToken._owners (ModelToken.storage w))⟦tokenId⟧) to)
         as [Eq|Hne].
  all: try (rewrite <- Eq; rewrite !mapping_get_insert).
  all: try (rewrite mapping_get_insert_ne by done).
  all: (split; [done|]; split; [|done]).
  all: intros Hne'; try done.
  all: rewrite mapping_get_insert_ne by done; by rewrite mapping_get_insert.
Qed.

(** The owner (14) of record 0 hands it to 15. *)
Lemma transferFrom_record_0_to_15 :
  exists w' t,
    ModelToken.transferFrom (mkEnv 14 0 5000) 14 15 0 token_world_live = Ok (tt, w', t) /\
    (ModelToken._owners (ModelToken.storage w'))⟦0⟧ = 15 /\
    (ModelToken.userTokens (ModelToken.storage w'))⟦15⟧ = [0] /\
    (ModelToken.userTokens (ModelToken.storage w'))⟦14⟧ = [].
Proof.
  destruct (ModelToken.transferFrom (mkEnv 14 0 5000) 14 15 0 token_world_live)
    as [[[[] w'] t]|e] eqn:H; [|by vm_compute in H].
  exists w', t. split; [done|].
  destruct (transferFrom_moves_token _ _ _ _ _ _ _ H ltac:(done))
    as (_ & _ & Ho & _ & Hto & Hfrom & _).
  split; [exact Ho|]. split; [exact Hto|]. apply Hfrom. done.
Defined.


(* ================================================================= *)
(** * ModelToken: downloads and license time *)

Lemma nonempty_String a s : nonempty (String a s) = true.
Proof. unfold nonempty. by rewrite bool_decide_eq_false_2. Qed.

Lemma nonempty_key s : nonempty ("key_" +:+ s) = true.
Proof. exact (nonempty_String _ ("ey_" +:+ s)). Qed.

(** X20.  After a burn.  In any storage, a successful [burnForDownload]
    makes [canDownload] true and [getBurnCertificate] return the record,
    burned, with the model, price, license and variations of the purchase;
    the burned token is still listed by [getOwnedTokens] (the lists are
    not touched by a burn); and if the administrator then sets the empty
    string as the key, [canDownload] is false again. *)
Theorem burn_enables_download :
  forall keccak256 env tokenId w w1 t,
    ModelToken.burnForDownload keccak256 env tokenId w = Ok (tt, w1, t) ->
    let old := (ModelToken.purchaseSnapshots (ModelToken.storage w))⟦tokenId⟧ in
    ModelToken.canDownload tokenId w1 = Ok (true, w1, []) /\
    (exists certificate,
       ModelToken.getBurnCertificate tokenId w1 = Ok (certificate, w1, []) /\
       ModelToken.burned certificate = true /\
       ModelToken.modelId certificate = ModelToken.modelId old /\
       ModelToken.pricePaid certificate = ModelToken.pricePaid old /\
       ModelToken.license certificate = ModelToken.license old /\
       ModelToken.variationIds certificate = ModelToken.variationIds old /\
       ModelToken.royaltyBpsAtPurchase certificate = ModelToken.royaltyBpsAtPurchase old) /\
    ModelToken.userTokens (ModelToken.storage w1)
      = ModelToken.userTokens (ModelToken.storage w) /\
    (forall admin w2 t2,
       ModelToken.setDownloadKey admin tokenId "" w1 = Ok (tt, w2, t2) ->
       ModelToken.canDownload tokenId w2 = Ok (false, w2, [])).
Proof.
  intros keccak256 env tokenId w w1 t H old.
  rewrite burnForDownload_eq in H; cbv zeta in H.
  destruct (_ =? 0); [done|]. destruct (negb _); [done|].
  destruct (ModelToken.burned _) eqn:Hb; [done|]. destruct (negb _); [done|].
  injection H as <- _.
  split; [|split; [|split]].
  - unfold ModelToken.canDownload, gets. cbn. rewrite !mapping_get_insert. cbn.
    by rewrite nonempty_key.
  - eexists. unfold ModelToken.getBurnCertificate, mbind, M_bind, bind, gets, require,
      mret, M_ret, ret. cbn. rewrite !mapping_get_insert. cbn. done.
  - done.
  - intros admin w2 t2 H2. rewrite setDownloadKey_eq in H2; cbv zeta in H2.
    destruct (negb _); [done|]. cbn in H2. rewrite !mapping_get_insert in H2. cbn in H2.
    injection H2 as <- _.
    unfold ModelToken.canDownload, gets. cbn. by rewrite !mapping_get_insert.
Qed.

(** The owner (14) of record 0 burns it. *)
Lemma burn_of_record_0_enables_download :
  exists w1 t,
    ModelToken.burnForDownload const_hash (mkEnv 14 0 5000) 0 token_world_live
      = Ok (tt, w1, t) /\
    ModelToken.canDownload 0 w1 = Ok (true, w1, []) /\
    ModelToken.userTokens (ModelToken.storage w1)
      = ModelToken.userTokens (ModelToken.storage token_world_live).
Proof.
  destruct (ModelToken.burnForDownload const_hash (mkEnv 14 0 5000) 0 token_world_live)
    as [[[[] w1] t]|e] eqn:H; [|by vm_compute in H].
  exists w1, t. split; [done|].
  destruct (burn_enables_download _ _ _ _ _ _ H) as (Hcan & _ & Hut & _).
  split; [exact Hcan|exact Hut].
Defined.

(** X21.  Validity and remaining time.  Both views read the expiry of the
    record and change nothing.  A perpetual license (expiry 0) is valid
    with the largest [uint256] as remaining time; otherwise the remaining
    time is the expiry minus the block time, zero from the expiry on, while
    the license is still valid at the very second of its expiry: it is
    valid exactly when time remains or the block time is the expiry. *)
Theorem license_validity_and_time_remaining :
  forall env tokenId w,
    let expiry := ModelToken.expiresAt
                    (ModelToken.license
                       (ModelToken.purchaseSnapshots (ModelToken.storage w))⟦tokenId⟧) in
    exists valid remaining,
      ModelToken.isLicenseValid env tokenId w = Ok (valid, w, []) /\
      ModelToken.getLicenseTimeRemaining env tokenId w = Ok (remaining, w, []) /\
      (expiry = 0 -> valid = true /\ remaining = MAX_UINT256) /\
      (expiry <> 0 -> remaining = expiry - block_timestamp env) /\
      (valid = true <-> 0 < remaining \/ (expiry <> 0 /\ block_timestamp env = expiry)).
Proof.
  intros env tokenId w expiry.
  unfold ModelToken.isLicenseValid, ModelToken.getLicenseTimeRemaining,
    mbind, M_bind, bind, gets, mret, M_ret, ret. cbn. fold expiry.
  destruct (N.eqb_spec expiry 0) as [E0|E0].
  - eexists _, _. split; [done|]. split; [done|]. split; [done|]. split; [done|].
    split; [intros _; left; by vm_compute|done].
  - destruct (N.leb_spec expiry (block_timestamp env)) as [Hle|Hgt];
      destruct (N.leb_spec (block_timestamp env) expiry) as [Hle'|Hgt'];
      eexists _, _; (split; [reflexivity|]); (split; [reflexivity|]);
      (split; [done|]).
    + split; [intros _; lia|]. split; [intros _; right; split; [done|lia]|done].
    + split; [intros _; lia|]. split; [done|]. intros [?|[_ ?]]; lia.
    + split; [done|]. split; [intros _; left; lia|done].
    + lia.
Qed.




(* ================================================================= *)
(** * DerivativeRoyaltyRegistry: the split of a derivative sale *)

(** X23.  The split of a derivative sale.  A successful
    [payDerivativeRoyalty] is for an active derivative royalty and carries
    exactly the sale price; the royalty is the sale price times the rate
    over 10000, rounded down; the caller gets the rest back in the one
    transfer of the call; the original creator's claimable balance grows by
    the royalty, and so does the balance of the contract. *)
Theorem payDerivativeRoyalty_splits_the_sale :
  forall env derivativeModelId salePrice w w' t,
    DerivativeRoyaltyRegistry.payDerivativeRoyalty env derivativeModelId salePrice w
      = Ok (tt, w', t) ->
    let royalty := (DerivativeRoyaltyRegistry.derivativeRoyalties
                      (DerivativeRoyaltyRegistry.storage w))⟦derivativeModelId⟧ in
    let creator := DerivativeRoyaltyRegistry.originalCreator royalty in
    let royaltyAmount := salePrice * DerivativeRoyaltyRegistry.royaltyBps royalty / 10000 in
    DerivativeRoyaltyRegistry.active royalty = true /\
    msg_value env = salePrice /\
    royaltyAmount <= salePrice /\
    transfers t = [(msg_sender env, salePrice - royaltyAmount)] /\
    (DerivativeRoyaltyRegistry.claimableRoyalties
       (DerivativeRoyaltyRegistry.storage w'))⟦creator⟧
      = (DerivativeRoyaltyRegistry.claimableRoyalties
           (DerivativeRoyaltyRegistry.storage w))⟦creator⟧ + royaltyAmount /\
    DerivativeRoyaltyRegistry.balance w' = DerivativeRoyaltyRegistry.balance w + royaltyAmount.
Proof.
  intros env d salePrice w w' t H royalty creator royaltyAmount.
  unfold DerivativeRoyaltyRegistry.payDerivativeRoyalty in H. royalty_inv. cbn in *.
  repeat match goal with
         | H : checked_add _ _ = Ok _ |- _ => apply checked_add_ok in H as [-> ?]
         | H : checked_sub _ _ = Ok _ |- _ => apply checked_sub_ok in H as [-> ?]
         | H : checked_mul _ _ = Ok _ |- _ => apply checked_mul_ok in H as [-> ?]
         | H : (_ =? _) = true |- _ => apply N.eqb_eq in H
         end.
  subst royalty creator royaltyAmount.
  split; [done|]. split; [done|]. split; [done|]. split; [by subst|].
  split; [by rewrite mapping_get_insert|].
  match goal with
  | |- context [?a `div` 10000] => generalize dependent (a `div` 10000)
  end.
  intros; lia.
Qed.

(** The sale of derivative 1 at 1000 with a 10% royalty to creator 11: the
    seller (12) gets 900 back and 100 become claimable. *)
Lemma payDerivativeRoyalty_splits_1000 :
  exists w' t,
    DerivativeRoyaltyRegistry.payDerivativeRoyalty (mkEnv 12 1000 5000) 1 1000
      royalty_world_configured = Ok (tt, w', t) /\
    transfers t = [(12, 1000 - 1000 * 1000 / 10000)] /\
    (DerivativeRoyaltyRegistry.claimableRoyalties
       (DerivativeRoyaltyRegistry.storage w'))⟦11⟧ = 0 + 1000 * 1000 / 10000.
Proof.
  destruct (DerivativeRoyaltyRegistry.payDerivativeRoyalty (mkEnv 12 1000 5000) 1 1000
              royalty_world_configured) as [[[[] w'] t]|e] eqn:H; [|by vm_compute in H].
  exists w', t. split; [done|].
  destruct (payDerivativeRoyalty_splits_the_sale _ _ _ _ _ _ H) as (_ & _ & _ & Ht & Hc & _).
  split; [exact Ht|exact Hc].
Defined.



